(** * solbuild, package [source]: the simple (tarball) source

    A shallow embedding of [src/builder/source/simple.go] and the
    properties of its fetch-and-cache protocol.

    The file is organised as follows.
    - [Digest]: [crypto/sha256], [crypto/sha1] and [encoding/hex], which
      [GetSHA256Sum] and [GetSHA1Sum] call.
    - [Filepath]: [path/filepath.Base] and [path/filepath.Join].
    - [Os]: the file system the package works on (directories, regular
      files, symbolic links) with the calls the package makes.
    - [Source]: the [SimpleSource] type and its methods, written in a
      small state-and-error monad over the file system and the network
      trace.
    - [Builder]: [Build] of the package [builder].
    - The theorems. *)

From stdpp Require Import gmap strings list fin_maps.
From Stdlib Require Import ZArith NArith.
From Stdlib.Strings Require Import Byte Ascii.
From Stdlib Require DecimalString.

Open Scope string_scope.
Open Scope list_scope.

(** ** Digests *)

Module Digest.

Local Open Scope Z_scope.

(** 32-bit words are integers in [0, 2^32), wrap-around written out. *)
Definition w32 (x : Z) : Z := Z.land x 0xFFFFFFFF.
Definition add32 (x y : Z) : Z := w32 (x + y).
Definition rotl (n x : Z) : Z :=
  Z.lor (w32 (Z.shiftl x n)) (Z.shiftr x (32 - n)).
Definition rotr (n x : Z) : Z := rotl (32 - n) x.
Definition not32 (x : Z) : Z := Z.lxor x 0xFFFFFFFF.

Definition Z_of_byte (b : byte) : Z := Z.of_N (Byte.to_N b).
Definition byte_of_Z (z : Z) : byte :=
  match Byte.of_N (Z.to_N (Z.land z 0xFF)) with
  | Some b => b
  | None => x00
  end.

(** Big-endian encodings. *)
Definition be32 (x : Z) : list byte :=
  [byte_of_Z (Z.shiftr x 24); byte_of_Z (Z.shiftr x 16);
   byte_of_Z (Z.shiftr x 8); byte_of_Z x].
Definition be64 (x : Z) : list byte := be32 (Z.shiftr x 32) ++ be32 x.

Definition word_of (b3 b2 b1 b0 : byte) : Z :=
  Z.lor (Z.shiftl (Z_of_byte b3) 24)
    (Z.lor (Z.shiftl (Z_of_byte b2) 16)
       (Z.lor (Z.shiftl (Z_of_byte b1) 8) (Z_of_byte b0))).

Fixpoint words (bs : list byte) : list Z :=
  match bs with
  | b3 :: b2 :: b1 :: b0 :: rest => word_of b3 b2 b1 b0 :: words rest
  | _ => []
  end.

(** Merkle-Damgard padding, shared by SHA-1 and SHA-256: one [0x80]
    byte, zero bytes up to 56 modulo 64, the bit length on 64 bits. *)
Definition pad (msg : list byte) : list byte :=
  let len := Z.of_nat (length msg) in
  let zeros := Z.to_nat ((55 - len) mod 64) in
  msg ++ x80 :: replicate zeros x00 ++ be64 (8 * len).

Fixpoint blocks (fuel : nat) (ws : list Z) : list (list Z) :=
  match fuel, ws with
  | S fuel', _ :: _ => take 16 ws :: blocks fuel' (drop 16 ws)
  | _, _ => []
  end.

Definition nth_word (ws : list Z) (i : nat) : Z := nth i ws 0.

(** *** SHA-256 (FIPS 180-4, section 6.2) *)

Definition K256 : list Z :=
  [ 0x428A2F98; 0x71374491; 0xB5C0FBCF; 0xE9B5DBA5; 0x3956C25B; 0x59F111F1;
    0x923F82A4; 0xAB1C5ED5; 0xD807AA98; 0x12835B01; 0x243185BE; 0x550C7DC3;
    0x72BE5D74; 0x80DEB1FE; 0x9BDC06A7; 0xC19BF174; 0xE49B69C1; 0xEFBE4786;
    0x0FC19DC6; 0x240CA1CC; 0x2DE92C6F; 0x4A7484AA; 0x5CB0A9DC; 0x76F988DA;
    0x983E5152; 0xA831C66D; 0xB00327C8; 0xBF597FC7; 0xC6E00BF3; 0xD5A79147;
    0x06CA6351; 0x14292967; 0x27B70A85; 0x2E1B2138; 0x4D2C6DFC; 0x53380D13;
    0x650A7354; 0x766A0ABB; 0x81C2C92E; 0x92722C85; 0xA2BFE8A1; 0xA81A664B;
    0xC24B8B70; 0xC76C51A3; 0xD192E819; 0xD6990624; 0xF40E3585; 0x106AA070;
    0x19A4C116; 0x1E376C08; 0x2748774C; 0x34B0BCB5; 0x391C0CB3; 0x4ED8AA4A;
    0x5B9CCA4F; 0x682E6FF3; 0x748F82EE; 0x78A5636F; 0x84C87814; 0x8CC70208;
    0x90BEFFFA; 0xA4506CEB; 0xBEF9A3F7; 0xC67178F2 ].

Record state256 := State256 {
  sa : Z; sb : Z; sc : Z; sd : Z; se : Z; sf : Z; sg : Z; sh : Z }.

Definition init256 : state256 :=
  State256 0x6a09e667 0xbb67ae85 0x3c6ef372 0xa54ff53a
           0x510e527f 0x9b05688c 0x1f83d9ab 0x5be0cd19.

Definition ssig0 (x : Z) := Z.lxor (rotr 7 x) (Z.lxor (rotr 18 x) (Z.shiftr x 3)).
Definition ssig1 (x : Z) := Z.lxor (rotr 17 x) (Z.lxor (rotr 19 x) (Z.shiftr x 10)).
Definition bsig0 (x : Z) := Z.lxor (rotr 2 x) (Z.lxor (rotr 13 x) (rotr 22 x)).
Definition bsig1 (x : Z) := Z.lxor (rotr 6 x) (Z.lxor (rotr 11 x) (rotr 25 x)).
Definition ch (x y z : Z) := Z.lxor (Z.land x y) (Z.land (not32 x) z).
Definition maj (x y z : Z) :=
  Z.lxor (Z.land x y) (Z.lxor (Z.land x z) (Z.land y z)).

(** The message schedule, grown one word at a time from the 16 words
    of the block. *)
Fixpoint schedule256 (n : nat) (w : list Z) : list Z :=
  match n with
  | O => w
  | S n' =>
      let t := length w in
      let x := add32 (add32 (ssig1 (nth_word w (t - 2))) (nth_word w (t - 7)))
                 (add32 (ssig0 (nth_word w (t - 15))) (nth_word w (t - 16))) in
      schedule256 n' (w ++ [x])
  end.

Definition round256 (s : state256) (kw : Z * Z) : state256 :=
  let t1 := add32 (add32 (add32 (sh s) (bsig1 (se s))) (ch (se s) (sf s) (sg s)))
              (add32 kw.1 kw.2) in
  let t2 := add32 (bsig0 (sa s)) (maj (sa s) (sb s) (sc s)) in
  State256 (add32 t1 t2) (sa s) (sb s) (sc s) (add32 (sd s) t1) (se s) (sf s) (sg s).

Definition compress256 (s : state256) (block : list Z) : state256 :=
  let w := schedule256 48 block in
  let r := foldl round256 s (zip K256 w) in
  State256 (add32 (sa s) (sa r)) (add32 (sb s) (sb r)) (add32 (sc s) (sc r))
           (add32 (sd s) (sd r)) (add32 (se s) (se r)) (add32 (sf s) (sf r))
           (add32 (sg s) (sg r)) (add32 (sh s) (sh r)).

(** [sha256.New(); Write(inp); Sum(nil)]: the 32 bytes of the digest. *)
Definition sha256_Sum (inp : list byte) : list byte :=
  let ws := words (pad inp) in
  let s := foldl compress256 init256 (blocks (length ws) ws) in
  be32 (sa s) ++ be32 (sb s) ++ be32 (sc s) ++ be32 (sd s) ++
  be32 (se s) ++ be32 (sf s) ++ be32 (sg s) ++ be32 (sh s).

(** *** SHA-1 (FIPS 180-4, section 6.1) *)

Record state1 := State1 { ha : Z; hb : Z; hc : Z; hd : Z; he : Z }.

Definition init1 : state1 :=
  State1 0x67452301 0xefcdab89 0x98badcfe 0x10325476 0xc3d2e1f0.

Fixpoint schedule1 (n : nat) (w : list Z) : list Z :=
  match n with
  | O => w
  | S n' =>
      let t := length w in
      let x := rotl 1 (Z.lxor (Z.lxor (nth_word w (t - 3)) (nth_word w (t - 8)))
                         (Z.lxor (nth_word w (t - 14)) (nth_word w (t - 16)))) in
      schedule1 n' (w ++ [x])
  end.

Definition f1 (t : nat) (b c d : Z) : Z :=
  if decide (t < 20)%nat then ch b c d
  else if decide (t < 40)%nat then Z.lxor b (Z.lxor c d)
  else if decide (t < 60)%nat then maj b c d
  else Z.lxor b (Z.lxor c d).

Definition K1 (t : nat) : Z :=
  if decide (t < 20)%nat then 0x5a827999
  else if decide (t < 40)%nat then 0x6ed9eba1
  else if decide (t < 60)%nat then 0x8f1bbcdc
  else 0xca62c1d6.

Definition round1 (s : state1) (tw : nat * Z) : state1 :=
  let t := tw.1 in
  let tmp := add32 (add32 (rotl 5 (ha s)) (f1 t (hb s) (hc s) (hd s)))
               (add32 (add32 (he s) (K1 t)) tw.2) in
  State1 tmp (ha s) (rotl 30 (hb s)) (hc s) (hd s).

Definition compress1 (s : state1) (block : list Z) : state1 :=
  let w := schedule1 64 block in
  let r := foldl round1 s (zip (seq 0 80) w) in
  State1 (add32 (ha s) (ha r)) (add32 (hb s) (hb r)) (add32 (hc s) (hc r))
         (add32 (hd s) (hd r)) (add32 (he s) (he r)).

(** [sha1.New(); Write(inp); Sum(nil)]: the 20 bytes of the digest. *)
Definition sha1_Sum (inp : list byte) : list byte :=
  let ws := words (pad inp) in
  let s := foldl compress1 init1 (blocks (length ws) ws) in
  be32 (ha s) ++ be32 (hb s) ++ be32 (hc s) ++ be32 (hd s) ++ be32 (he s).

(** *** [encoding/hex] *)

Definition hexdigit (n : N) : ascii :=
  match n with
  | 0%N => "0"%char | 1%N => "1"%char | 2%N => "2"%char | 3%N => "3"%char
  | 4%N => "4"%char | 5%N => "5"%char | 6%N => "6"%char | 7%N => "7"%char
  | 8%N => "8"%char | 9%N => "9"%char | 10%N => "a"%char | 11%N => "b"%char
  | 12%N => "c"%char | 13%N => "d"%char | 14%N => "e"%char | _ => "f"%char
  end.

(** [hex.EncodeToString]: two lower-case digits per byte. *)
Fixpoint EncodeToString (src : list byte) : string :=
  match src with
  | [] => ""
  | b :: rest =>
      let n := Byte.to_N b in
      String (hexdigit (N.div n 16)) (String (hexdigit (N.modulo n 16))
        (EncodeToString rest))
  end.

End Digest.

Arguments Digest.sha256_Sum : simpl never.
Arguments Digest.sha1_Sum : simpl never.

Definition bytes_of (s : string) : list byte := String.list_byte_of_string s.

(** ** Paths *)

(** The package only handles absolute paths: [SourceDir] and
    [SourceStagingDir] are absolute, and every other path is joined onto
    them. A cleaned absolute path is represented by the list of its names,
    [[]] being the root directory. *)
Abbreviation path := (list string).

Module Filepath.

Definition IsPathSeparator (c : ascii) : bool := bool_decide (c = "/"%char).

(** The elements of a path string: the pieces between separators. *)
Fixpoint split (s : string) : list string :=
  match s with
  | EmptyString => [""]
  | String c s' =>
      if IsPathSeparator c then "" :: split s'
      else match split s' with
           | [] => [String c ""]
           | x :: xs => String c x :: xs
           end
  end.

Fixpoint strip_separators (r : list ascii) : list ascii :=
  match r with
  | c :: r' => if IsPathSeparator c then strip_separators r' else r
  | [] => []
  end.

Fixpoint upto_separator (r : list ascii) : list ascii :=
  match r with
  | c :: r' => if IsPathSeparator c then [] else c :: upto_separator r'
  | [] => []
  end.

(** [filepath.Base]: the last element of the path, trailing separators
    removed first; ["."] for the empty path, ["/"] for a path of
    separators only. The two loops of the library scan the string from
    its end, so they are written on the reversed string. *)
Definition Base (p : string) : string :=
  if decide (p = "") then "."
  else
    let r := strip_separators (rev (String.list_ascii_of_string p)) in
    let last := String.string_of_list_ascii (rev (upto_separator r)) in
    if decide (last = "") then "/" else last.

(** One step of [filepath.Clean] on a rooted path: empty and ["."]
    elements are dropped, [".."] removes the element before it (and is
    dropped at the root). *)
Definition clean_step (p : path) (c : string) : path :=
  if decide (c = "" ∨ c = ".") then p
  else if decide (c = "..") then removelast p
  else p ++ [c].

(** [filepath.Join(dir, elem...)] for a cleaned directory [dir]: the
    elements are joined with separators and the result is cleaned.
    [Join [] elem] is [filepath.Join(elem...)] from the root. *)
Definition Join (dir : path) (elem : list string) : path :=
  foldl clean_step dir (flat_map split elem).

End Filepath.

(** The spec's "final path segment": what follows the last separator. *)
Definition final_segment (p : string) : string :=
  List.last (Filepath.split p) "".

(** ** The file system *)

Module Os.

Inductive errno :=
| ENOENT | EEXIST | ENOTDIR | EISDIR | ELOOP | ENOTEMPTY | EINVAL
| EACCES | ENOSPC | EIO.

Inductive node :=
| File (data : list byte)
| Dir
| Link (target : string).

Abbreviation FS := (gmap path node).

(** The entry at a physical path; the root is always a directory. *)
Definition entry (fs : FS) (p : path) : option node :=
  match p with
  | [] => Some Dir
  | _ => fs !! p
  end.

(** Linux follows at most 40 symbolic links in one resolution. *)
Definition MAXSYMLINKS : nat := 40.

Definition link_elems (t : string) : list string :=
  filter (λ c, c ≠ "" ∧ c ≠ ".") (Filepath.split t).

Definition is_abs (t : string) : bool :=
  match t with
  | String c _ => Filepath.IsPathSeparator c
  | EmptyString => false
  end.

(** Path resolution, name by name from the directory [cur]. A
    symbolic link met on the way is replaced by its target, resolved
    from the link's directory or from the root ([follow_link] does
    it); a link in last position is followed only when [follow] is
    set. The result is the physical path of the last name, which may
    have no entry yet. *)
Fixpoint walk_names (fs : FS) (follow : bool)
    (follow_link : path → list string → errno + path)
    (cur : path) (rest : list string) {struct rest} : errno + path :=
  match rest with
  | [] => inr cur
  | c :: rest' =>
      if decide (c = "..") then
        walk_names fs follow follow_link (removelast cur) rest'
      else
        let p := cur ++ [c] in
        match fs !! p with
        | None =>
            match rest' with [] => inr p | _ => inl ENOENT end
        | Some Dir => walk_names fs follow follow_link p rest'
        | Some (File _) =>
            match rest' with [] => inr p | _ => inl ENOTDIR end
        | Some (Link t) =>
            if bool_decide (rest' = []) && negb follow then inr p
            else follow_link (if is_abs t then [] else cur)
                             (link_elems t ++ rest')
        end
  end.

(** [walk n] follows at most [n] symbolic links. *)
Fixpoint walk (n : nat) (fs : FS) (follow : bool)
    : path → list string → errno + path :=
  walk_names fs follow
    (match n with
     | O => λ _ _, inl ELOOP
     | S n' => walk n' fs follow
     end).

Definition resolve (follow : bool) (fs : FS) (p : path) : errno + path :=
  walk MAXSYMLINKS fs follow [] p.

(** [os.Stat] and [os.Lstat], reduced to the kind of entry found. *)
Definition Stat (fs : FS) (p : path) : errno + node :=
  match resolve true fs p with
  | inl e => inl e
  | inr q => match entry fs q with Some n => inr n | None => inl ENOENT end
  end.

Definition Lstat (fs : FS) (p : path) : errno + node :=
  match resolve false fs p with
  | inl e => inl e
  | inr q => match entry fs q with Some n => inr n | None => inl ENOENT end
  end.

(** [os.Mkdir] *)
Definition Mkdir (fs : FS) (p : path) : errno + FS :=
  match resolve false fs p with
  | inl e => inl e
  | inr q =>
      match entry fs q with
      | Some _ => inl EEXIST
      | None => inr (<[q := Dir]> fs)
      end
  end.

(** [os.MkdirAll]: nothing to do for a directory; otherwise the parent
    is made first (unless it is the root), then the directory, and a
    failure of that last [Mkdir] is forgiven when the directory is
    there. *)
Fixpoint mkdir_all (n : nat) (fs : FS) (p : path) : errno + FS :=
  match Stat fs p with
  | inr Dir => inr fs
  | inr _ => inl ENOTDIR
  | inl _ =>
      let parent :=
        match n with
        | S n' =>
            if decide (2 ≤ length p)%nat then mkdir_all n' fs (removelast p)
            else inr fs
        | O => inr fs
        end in
      match parent with
      | inl e => inl e
      | inr fs1 =>
          match Mkdir fs1 p with
          | inr fs2 => inr fs2
          | inl e =>
              match Lstat fs1 p with
              | inr Dir => inr fs1
              | _ => inl e
              end
          end
      end
  end.

Definition MkdirAll (fs : FS) (p : path) : errno + FS :=
  mkdir_all (length p) fs p.

(** [os.Create]: open for writing, created if absent and truncated.
    The result carries the physical path of the open file. *)
Definition Create (fs : FS) (p : path) : errno + (path * FS) :=
  match resolve true fs p with
  | inl e => inl e
  | inr q =>
      match entry fs q with
      | Some Dir => inl EISDIR
      | Some (Link _) => inl ELOOP
      | Some (File _) | None => inr (q, <[q := File []]> fs)
      end
  end.

(** [Write] of [os.File], on the file opened at [q]. *)
Definition Write (fs : FS) (q : path) (data : list byte) : FS :=
  match fs !! q with
  | Some (File old) => <[q := File (old ++ data)]> fs
  | _ => fs
  end.

(** [ioutil.ReadFile] *)
Definition ReadFile (fs : FS) (p : path) : errno + list byte :=
  match Stat fs p with
  | inl e => inl e
  | inr (File data) => inr data
  | inr Dir => inl EISDIR
  | inr (Link _) => inl ELOOP
  end.

(** The entries of [fs] with the subtree at [old] moved to [new]. *)
Definition move_tree (fs : FS) (old new : path) : FS :=
  list_to_map
    (map (λ kv : path * node,
            (if bool_decide (old `prefix_of` kv.1)
             then new ++ drop (length old) kv.1 else kv.1, kv.2))
       (map_to_list fs)).

Definition has_children (fs : FS) (p : path) : bool :=
  bool_decide (map_Exists (λ k _, p `prefix_of` k ∧ k ≠ p) fs).

(** [os.Rename]: neither name is followed when it is a symbolic link;
    an existing file or link at the new name is replaced. *)
Definition Rename (fs : FS) (oldpath newpath : path) : errno + FS :=
  match resolve false fs oldpath with
  | inl e => inl e
  | inr qs =>
      match entry fs qs with
      | None => inl ENOENT
      | Some n =>
          match resolve false fs newpath with
          | inl e => inl e
          | inr qd =>
              if decide (qs = qd) then inr fs
              else
                match n with
                | Dir =>
                    if decide (qs `prefix_of` qd) then inl EINVAL
                    else
                      match entry fs qd with
                      | Some Dir =>
                          if has_children fs qd then inl ENOTEMPTY
                          else inr (move_tree fs qs qd)
                      | Some _ => inl ENOTDIR
                      | None => inr (move_tree fs qs qd)
                      end
                | _ =>
                    match entry fs qd with
                    | Some Dir => inl EISDIR
                    | _ => inr (<[qd := n]> (delete qs fs))
                    end
                end
          end
      end
  end.

(** [os.Symlink(target, linkpath)]: fails when anything is at
    [linkpath] already. *)
Definition Symlink (target : string) (fs : FS) (linkpath : path) : errno + FS :=
  match resolve false fs linkpath with
  | inl e => inl e
  | inr q =>
      match entry fs q with
      | Some _ => inl EEXIST
      | None => inr (<[q := Link target]> fs)
      end
  end.

End Os.

(** ** The [source] package *)

(** Go's [error] values, by the package that makes them. *)
Inductive error :=
| PathError (e : Os.errno)
| NetError (msg : string)
| UrlError (msg : string)
| FmtError (msg : string).

Inductive result (A : Type) :=
| Ok (a : A)
| Err (e : error).
Arguments Ok {A} a.
Arguments Err {A} e.

(** [net/url]: the fields of [url.URL] and [url.Userinfo] the package
    reads. *)
Record Userinfo := {
  username : string;
  password : string;
  passwordSet : bool }.

Definition Username (u : Userinfo) : string := username u.
Definition Password (u : Userinfo) : string * bool :=
  if passwordSet u then (password u, true) else ("", false).

Record URL := {
  Scheme : string;
  User : option Userinfo;
  Host : string;
  Path : string }.

(** A SimpleSource is a tarball or other source for a package. *)
Record SimpleSource := {
  URI : string;
  File : string;
  legacy : bool;
  validator : string;
  url : URL }.

Record BindConfiguration := {
  BindSource : path;
  BindTarget : path }.

(** *** The network *)

(** An entry of an FTP directory listing. *)
Record Entry := { Name : string; Size : N }.

(** What goes over the network, in order. *)
Inductive NetEvent :=
| CurlPerform (uri : string)
| FtpDial (addr : string)
| FtpLogin (user pass : string)
| FtpList (path : string)
| FtpRetr (path : string)
| FtpQuit.

(** The calls into the operating system that can be refused for reasons
    the file system model does not hold (permissions, a full disk, an I/O
    error). *)
Inductive OsCall :=
| CMkdirAll (p : path)
| CCreate (p : path)
| CWrite (p : path)
| CReadFile (p : path)
| CRename (oldpath newpath : path)
| CSymlink (target : string) (linkpath : path).

(** The environment of one run: the faults of the operating system and
    the answers of the remote side. A transfer delivers the bytes
    received and, when it broke off, the error. *)
Record Env := {
  os_fault : OsCall → option Os.errno;
  curl_Perform : string → list byte * option error;
  ftp_DialTimeout : string → option error;
  ftp_Login : string → string → option error;
  ftp_List : string → result (list Entry);
  ftp_Retr : string → result (list byte * option error) }.

(** The state: the file system and the trace of network operations. *)
Record World := {
  fs : Os.FS;
  net : list NetEvent }.

Definition set_fs (f : Os.FS) (w : World) : World :=
  {| fs := f; net := net w |}.
Definition log (ev : NetEvent) (w : World) : World :=
  {| fs := fs w; net := net w ++ [ev] |}.

(** *** State and errors *)

Definition M (A : Type) : Type := World → result A * World.

Definition ret {A} (a : A) : M A := λ w, (Ok a, w).
Definition raise {A} (e : error) : M A := λ w, (Err e, w).
Definition bind {A B} (m : M A) (k : A → M B) : M B :=
  λ w, match m w with
       | (Ok a, w') => k a w'
       | (Err e, w') => (Err e, w')
       end.
(** [defer]: [d] runs when [m] returns, whatever it returns. *)
Definition defer {A} (d : World → World) (m : M A) : M A :=
  λ w, let '(r, w') := m w in (r, d w').

Notation "x <- m ;; k" := (bind m (λ x, k))
  (at level 100, m at next level, right associativity).
Notation "m ;; k" := (bind m (λ _, k))
  (at level 100, right associativity).

(** A call into the operating system: refused by the environment, or
    served by the file system. *)
Definition syscall {A} (env : Env) (c : OsCall)
    (op : Os.FS → Os.errno + (A * Os.FS)) : M A :=
  λ w, match os_fault env c with
       | Some e => (Err (PathError e), w)
       | None =>
           match op (fs w) with
           | inl e => (Err (PathError e), w)
           | inr (a, f) => (Ok a, set_fs f w)
           end
       end.

Definition with_unit (r : Os.errno + Os.FS) : Os.errno + (unit * Os.FS) :=
  match r with inl e => inl e | inr f => inr (tt, f) end.

Definition os_MkdirAll (env : Env) (p : path) : M unit :=
  syscall env (CMkdirAll p) (λ f, with_unit (Os.MkdirAll f p)).
Definition os_Create (env : Env) (p : path) : M path :=
  syscall env (CCreate p) (λ f, Os.Create f p).
Definition os_Rename (env : Env) (oldpath newpath : path) : M unit :=
  syscall env (CRename oldpath newpath)
    (λ f, with_unit (Os.Rename f oldpath newpath)).
Definition os_Symlink (env : Env) (target : string) (linkpath : path) : M unit :=
  syscall env (CSymlink target linkpath)
    (λ f, with_unit (Os.Symlink target f linkpath)).
Definition ioutil_ReadFile (env : Env) (p : path) : M (list byte) :=
  syscall env (CReadFile p)
    (λ f, match Os.ReadFile f p with inl e => inl e | inr d => inr (d, f) end).

(** Writing [data] to the open file [out]; nothing is written when there
    is nothing to write. *)
Definition file_Write (env : Env) (out : path) (data : list byte) : M unit :=
  match data with
  | [] => ret tt
  | _ => syscall env (CWrite out) (λ f, inr (tt, Os.Write f out data))
  end.

(** [strings.Contains] *)
Definition Contains (s substr : string) : bool :=
  match String.index 0 substr s with Some _ => true | None => false end.

(** [fmt.Errorf("FTP expected 1 file, found %d files", n)] *)
Definition Errorf_expected_1_file (n : nat) : error :=
  FmtError ("FTP expected 1 file, found " +:+
            DecimalString.NilZero.string_of_uint (Nat.to_uint n) +:+ " files").

(** Modelled from the spec: [PathExists], the "pure filesystem existence
    check" of the package, declared outside [simple.go]: whether [os.Stat]
    succeeds. *)
Definition PathExists (p : path) (w : World) : bool :=
  match Os.Stat (fs w) p with inr _ => true | inl _ => false end.

Module Source.
Section Methods.

(** Modelled from the spec: the content root [<root>] and the staging
    directory. [SourceDir] and [SourceStagingDir] are constants of the
    package declared outside [simple.go]; they are left open here. *)
Variables SourceDir SourceStagingDir : string.

(** The parser of [net/url]. *)
Variable url_Parse : string → result URL.

(** NewSimple will create a new source instance *)
Definition NewSimple (uri validator : string) (legacy : bool)
    : result SimpleSource :=
  match url_Parse uri with
  | Err err => Err err
  | Ok uriObj =>
      Ok {| URI := uri;
            File := Filepath.Base (Path uriObj);
            legacy := legacy;
            validator := validator;
            url := uriObj |}
  end.

(** GetIdentifier will return the URI associated with this source. *)
Definition GetIdentifier (s : SimpleSource) : string := URI s.

(** GetPath gets the path on the filesystem of the source *)
Definition GetPath (s : SimpleSource) (hash : string) : path :=
  Filepath.Join [] [SourceDir; hash; File s].

(** GetBindConfiguration will return the pair for binding our tarballs. *)
Definition GetBindConfiguration (s : SimpleSource) (rootfs : string)
    : BindConfiguration :=
  {| BindSource := GetPath s (validator s);
     BindTarget := Filepath.Join [] [rootfs; File s] |}.

(** GetSHA1Sum will return the sha1sum for the given path *)
Definition GetSHA1Sum (env : Env) (s : SimpleSource) (p : path) : M string :=
  inp <- ioutil_ReadFile env p ;;
  let sum := Digest.sha1_Sum inp in
  ret (Digest.EncodeToString sum).

(** GetSHA256Sum will return the sha256sum for the given path *)
Definition GetSHA256Sum (env : Env) (s : SimpleSource) (p : path) : M string :=
  inp <- ioutil_ReadFile env p ;;
  let sum := Digest.sha256_Sum inp in
  ret (Digest.EncodeToString sum).

(** IsFetched will determine if the source is already present *)
Definition IsFetched (s : SimpleSource) (w : World) : bool :=
  PathExists (GetPath s (validator s)) w.

(** downloadCurl utilises CURL to do all downloads. [Perform] hands
    every chunk received to [writer], which appends it to [out]; a
    failed write makes [Perform] fail. *)
Definition curl_write_error : error :=
  NetError "curl: Failed writing received data to disk/application".

Definition Perform (env : Env) (uri : string) (out : path) : M unit :=
  λ w,
    let '(data, res) := curl_Perform env uri in
    match file_Write env out data (log (CurlPerform uri) w) with
    | (Err _, w') => (Err curl_write_error, w')
    | (Ok _, w') =>
        match res with
        | Some e => (Err e, w')
        | None => (Ok tt, w')
        end
    end.

Definition downloadCurl (env : Env) (s : SimpleSource) (destination : path)
    : M unit :=
  out <- os_Create env destination ;;
  Perform env (URI s) out.

(** The address [downloadFTP] dials: a port is assigned if not set. *)
Definition ftp_hostAddr (u : URL) : string :=
  let hostAddr := Host u in
  if negb (Contains hostAddr ":") then hostAddr +:+ ":21" else hostAddr.

(** The credentials [downloadFTP] logs in with. *)
Definition ftp_credentials (u : URL) : string * string :=
  let username := "anonymous" in
  let password := "anonymous" in
  match User u with
  | Some user =>
      let username := Username user in
      let '(pwd, set) := Password user in
      if set then (username, pwd) else (username, "")
  | None => (username, password)
  end.

Definition Dial (env : Env) (addr : string) : M unit :=
  λ w, match ftp_DialTimeout env addr with
       | Some e => (Err e, log (FtpDial addr) w)
       | None => (Ok tt, log (FtpDial addr) w)
       end.

Definition Login (env : Env) (user pass : string) : M unit :=
  λ w, match ftp_Login env user pass with
       | Some e => (Err e, log (FtpLogin user pass) w)
       | None => (Ok tt, log (FtpLogin user pass) w)
       end.

Definition List (env : Env) (p : string) : M (list Entry) :=
  λ w, (ftp_List env p, log (FtpList p) w).

Definition Retr (env : Env) (p : string) : M (list byte * option error) :=
  λ w, (ftp_Retr env p, log (FtpRetr p) w).

(** [io.Copy(out, reader)]: what was read is written, and the first
    error of the two sides is returned. *)
Definition io_Copy (env : Env) (out : path) (resp : list byte * option error)
    : M unit :=
  file_Write env out resp.1 ;;
  match resp.2 with
  | Some e => raise e
  | None => ret tt
  end.

(** downloadFTP will fetch a file over ftp using anonymous credentials *)
Definition downloadFTP (env : Env) (s : SimpleSource) (destination : path)
    : M unit :=
  let hostAddr := ftp_hostAddr (url s) in
  Dial env hostAddr ;;
  defer (log FtpQuit) (
    let '(username, password) := ftp_credentials (url s) in
    Login env username password ;;
    let toFetch := Path (url s) in
    entries <- List env toFetch ;;
    if decide (length entries ≠ 1)
    then raise (Errorf_expected_1_file (length entries))
    else
      resp <- Retr env toFetch ;;
      out <- os_Create env destination ;;
      io_Copy env out resp).

(** download will proxy the download to the correct scheme handler *)
Definition download (env : Env) (s : SimpleSource) (destination : path)
    : M unit :=
  if decide (Scheme (url s) = "ftp")
  then downloadFTP env s destination
  else downloadCurl env s destination.

(** Fetch will download the given source and cache it locally *)
Definition Fetch (env : Env) (s : SimpleSource) : M unit :=
  let destPath := Filepath.Join [] [SourceStagingDir; File s] in
  (λ w, if negb (PathExists (Filepath.Join [] [SourceStagingDir]) w)
        then os_MkdirAll env (Filepath.Join [] [SourceStagingDir]) w
        else ret tt w) ;;
  download env s destPath ;;
  hash <- GetSHA256Sum env s destPath ;;
  let tgtDir := Filepath.Join [] [SourceDir; hash] in
  (λ w, if negb (PathExists tgtDir w)
        then os_MkdirAll env tgtDir w
        else ret tt w) ;;
  let dest := Filepath.Join tgtDir [File s] in
  os_Rename env destPath dest ;;
  if legacy s then
    sha <- GetSHA1Sum env s dest ;;
    let tgtLink := Filepath.Join [] [SourceDir; sha] in
    os_Symlink env hash tgtLink
  else ret tt.

End Methods.
End Source.

(** ** Notions used in the statements *)

(** No symbolic link sits at [p] or above it. *)
Definition plain (f : Os.FS) (p : path) : bool :=
  forallb (λ n, match f !! take n p with
                | Some (Os.Link _) => false
                | _ => true
                end)
          (seq 1 (length p)).

(** The bytes a transfer that succeeds delivers. *)
Definition transferred (env : Env) (s : SimpleSource) : list byte :=
  if decide (Scheme (url s) = "ftp") then
    match ftp_Retr env (Path (url s)) with
    | Ok resp => resp.1
    | Err _ => []
    end
  else (curl_Perform env (URI s)).1.

(** The only changes from [f] to [f']: directories made where nothing
    was. *)
Definition dirs_added (f f' : Os.FS) : Prop :=
  ∀ k, f' !! k = f !! k ∨ (f !! k = None ∧ f' !! k = Some Os.Dir).

(** The digests of the bytes transferred. *)
Definition strong_hash (env : Env) (s : SimpleSource) : string :=
  Digest.EncodeToString (Digest.sha256_Sum (transferred env s)).

Definition weak_hash (env : Env) (s : SimpleSource) : string :=
  Digest.EncodeToString (Digest.sha1_Sum (transferred env s)).

(** The source without its legacy flag: its [Fetch] stops after the
    commit. *)
Definition without_alias (s : SimpleSource) : SimpleSource :=
  {| URI := URI s; File := File s; legacy := false;
     validator := validator s; url := url s |}.

Definition with_validator (v : string) (s : SimpleSource) : SimpleSource :=
  {| URI := URI s; File := File s; legacy := legacy s;
     validator := v; url := url s |}.

(** The staging path of a source. *)
Definition staged (SourceStagingDir : string) (s : SimpleSource) : path :=
  Filepath.Join [] [SourceStagingDir; File s].

(** The two checks of [Fetch] that make a directory when it is missing. *)
Definition ensure_dir (env : Env) (p : path) : M unit :=
  λ w, if negb (PathExists p w) then os_MkdirAll env p w else ret tt w.

(** The port of a [host] or [host:port] string, as [net/url] reads it
    ([URL.Port]): what follows the colon, for a bracketed IPv6 literal
    what follows ["]:"]. *)
Definition Port (hostport : string) : string :=
  match String.index 0 ":" hostport with
  | None => ""
  | Some colon =>
      match String.index 0 "]:" hostport with
      | Some i => String.substring (i + 2) (String.length hostport - (i + 2)) hostport
      | None =>
          if Contains hostport "]" then ""
          else String.substring (colon + 1) (String.length hostport - (colon + 1))
                 hostport
      end
  end.

(** A store without symbolic links. *)
Definition is_link (n : Os.node) : bool :=
  match n with Os.Link _ => true | _ => false end.

Definition no_links (f : Os.FS) : bool :=
  bool_decide (map_Forall (λ _ n, is_link n = false) f).

(** A file system is a tree: every entry sits in a directory. *)
Definition is_dir (o : option Os.node) : bool :=
  match o with Some Os.Dir => true | _ => false end.

Definition wf (f : Os.FS) : bool :=
  bool_decide (map_Forall (λ k _, is_dir (Os.entry f (removelast k)) = true) f).

(** * Notions of the statements and proofs *)

(** A name: a string that is a single path element and not one that
    [filepath.Clean] removes. *)
Fixpoint plain_chars (s : string) : bool :=
  match s with
  | EmptyString => true
  | String c s' =>
      negb (Filepath.IsPathSeparator c) && negb (bool_decide (c = "."%char))
      && plain_chars s'
  end.

(** The elements that [filepath.Clean] keeps. *)
Definition is_name (c : string) : Prop := c ≠ "" ∧ c ≠ "." ∧ c ≠ "..".

(** Cleaned paths hold no [".."]. *)
Definition no_dotdot (p : path) : Prop := Forall (λ c, c ≠ "..") p.

(** Symbolic links of [f'] that are in [f] already. *)
Definition no_new_links (f f' : Os.FS) : Prop :=
  ∀ k t, f' !! k = Some (Os.Link t) → f !! k = Some (Os.Link t).

(** Every directory above [p] is there. *)
Definition dirs_above (f : Os.FS) (p : path) : Prop :=
  ∀ a b, p = a ++ b → a ≠ [] → b ≠ [] → f !! a = Some Os.Dir.

(** Resolution to the last name, where there is no entry or a regular
    file, is kept when an entry is put there. *)
Definition free_or_file (f : Os.FS) (q : path) : Prop :=
  f !! q = None ∨ ∃ d, f !! q = Some (Os.File d).

(** What a transfer leaves: nothing, or the file it opened. *)
Definition wrote (p : path) (f f' : Os.FS) : Prop :=
  f' = f ∨
  ∃ q d, Os.resolve true f p = inr q ∧ free_or_file f q ∧ q ≠ [] ∧
         f' = <[q := Os.File d]> f.

(** Strings without a separator. *)
Fixpoint nosep (s : string) : bool :=
  match s with
  | EmptyString => true
  | String c s' => negb (Filepath.IsPathSeparator c) && nosep s'
  end.

(** Joining a base name onto a directory: the directory itself, the
    directory above, or the name under the directory. *)
Inductive join_shape (f : string) : Prop :=
| join_same : (∀ X, Filepath.Join X [f] = X) → join_shape f
| join_parent : (∀ X, Filepath.Join X [f] = removelast X) → join_shape f
| join_under : (∀ X, Filepath.Join X [f] = X ++ [f]) → f ≠ ".." → join_shape f.

(** The steps of [Fetch], for a store at [SourceDir] that stages under
    [SourceStagingDir]. *)
Section Steps.

Context (SourceDir SourceStagingDir : string).

Local Abbreviation GetPath := (Source.GetPath SourceDir).
Local Abbreviation staged := (staged SourceStagingDir).

(** The run of [Fetch] up to the rename, when every step succeeds:
    [h] is the hash computed and [w4] the state reached. *)
Definition commits (env : Env) (s : SimpleSource) (w : World)
    (h : string) (w4 : World) : Prop :=
  ∃ w1 w2 w3,
    ensure_dir env (Filepath.Join [] [SourceStagingDir]) w = (Ok tt, w1) ∧
    Source.download env s (staged s) w1 = (Ok tt, w2) ∧
    Source.GetSHA256Sum env s (staged s) w2 = (Ok h, w2) ∧
    ensure_dir env (Filepath.Join [] [SourceDir; h]) w2 = (Ok tt, w3) ∧
    os_Rename env (staged s) (GetPath s h) w3 = (Ok tt, w4).

(** The last step of [Fetch]. *)
Definition alias (env : Env) (s : SimpleSource) (h : string) : M unit :=
  if legacy s then
    sha <- Source.GetSHA1Sum env s (GetPath s h) ;;
    os_Symlink env h (Filepath.Join [] [SourceDir; sha])
  else ret tt.

(** A run of [Fetch] given up before the rename is done. *)
Definition aborted (s : SimpleSource) (w w' : World) : Prop :=
  ∃ f1 f2,
    dirs_added (fs w) f1 ∧ wrote (staged s) f1 f2 ∧ dirs_added f2 (fs w').

(** Between [w] and [w'] nothing is lost, and the only entries made or
    changed are directories made where nothing was and the file the
    staging path leads to. *)
Definition only_staged (s : SimpleSource) (w w' : World) : Prop :=
  ∀ k, fs w' !! k = fs w !! k ∨
       (fs w !! k = None ∧ fs w' !! k = Some Os.Dir) ∨
       (∃ d, fs w' !! k = Some (Os.File d) ∧
             Os.resolve true (fs w') (staged s) = inr k).

End Steps.

(** ** Notions of the further statements *)

(** The credentials of an FTP session, read off the URL: the user
    information when there is one, the anonymous login otherwise. *)
Definition credentials_of (u : URL) : string * string :=
  match User u with
  | None => ("anonymous", "anonymous")
  | Some ui => (username ui, if passwordSet ui then password ui else "")
  end.

(** What an FTP session sends between the dial and the quit, when
    nothing fails. *)
Definition ftp_session (s : SimpleSource) : list NetEvent :=
  [FtpLogin (credentials_of (url s)).1 (credentials_of (url s)).2;
   FtpList (Path (url s)); FtpRetr (Path (url s))].

(** Strings of lower-case hexadecimal digits. *)
Definition is_hexdigit (c : ascii) : bool :=
  bool_decide (c ∈ String.list_ascii_of_string "0123456789abcdef").

Fixpoint lower_hex (s : string) : bool :=
  match s with
  | EmptyString => true
  | String c s' => is_hexdigit c && lower_hex s'
  end.

(** ** The [builder] package *)

Module Builder.
Section Build.

(** The package to build, the backing image and the overlay over it
    are declared in other files of the package, with [NewOverlay] and
    the two methods of the overlay that [Build] calls; they are left
    open here. *)
Variables Package BackingImage Overlay : Type.
Variable NewOverlay : BackingImage → Package → Overlay.
Variables CleanExisting EnsureDirs : Overlay → M unit.

(** [errors.New] *)
Definition errors_New (text : string) : error := FmtError text.

(** Build will attempt to build the package in the overlayfs system *)
Definition Build (p : Package) (img : BackingImage) : M unit :=
  let overlay := NewOverlay img p in
  CleanExisting overlay ;;
  EnsureDirs overlay ;;
  raise (errors_New "Not yet implemented").

End Build.
End Builder.

(** ** Inputs for the examples *)

Module Example.

Definition SourceDir : string := "/var/lib/solbuild/sources".

Definition SourceStagingDir : string := "/var/lib/solbuild/sources/staging".

(** The values [net/url] gives for the URIs of the examples. *)
Definition url_Parse (uri : string) : result URL :=
  if decide (uri = "https://example.org/pkg/foo-1.2.tar.xz") then
    Ok {| Scheme := "https"; User := None; Host := "example.org";
          Path := "/pkg/foo-1.2.tar.xz" |}
  else if decide (uri = "http://example.org/") then
    Ok {| Scheme := "http"; User := None; Host := "example.org"; Path := "/" |}
  else if decide (uri = "ftp://[::1]/pub/bar.tar.gz") then
    Ok {| Scheme := "ftp"; User := None; Host := "[::1]";
          Path := "/pub/bar.tar.gz" |}
  else if decide (uri = "ftp://anonymous@mirror.example/pub/bar.tar.gz") then
    Ok {| Scheme := "ftp";
          User := Some {| username := "anonymous"; password := "";
                          passwordSet := false |};
          Host := "mirror.example"; Path := "/pub/bar.tar.gz" |}
  else Err (UrlError "parse error").

Definition no_fault : OsCall → option Os.errno := λ _, None.

(** A web server that delivers [body]; no FTP server answers. *)
Definition http (body : list byte) : Env :=
  {| os_fault := no_fault;
     curl_Perform := λ _, (body, None);
     ftp_DialTimeout := λ _, Some (NetError "dial tcp: connection refused");
     ftp_Login := λ _ _, None;
     ftp_List := λ _, Ok [];
     ftp_Retr := λ _, Err (NetError "550 no such file") |}.

(** No host is reached. *)
Definition offline : Env :=
  {| os_fault := no_fault;
     curl_Perform := λ _, ([], Some (NetError "curl: Couldn't resolve host name"));
     ftp_DialTimeout := λ _, Some (NetError "dial tcp: no such host");
     ftp_Login := λ _ _, None;
     ftp_List := λ _, Ok [];
     ftp_Retr := λ _, Err (NetError "550 no such file") |}.

(** An FTP server that lists [entries] for every path and delivers
    [body]. *)
Definition ftp (entries : list Entry) (body : list byte) : Env :=
  {| os_fault := no_fault;
     curl_Perform := λ _, ([], Some (NetError "curl: Couldn't resolve host name"));
     ftp_DialTimeout := λ _, None;
     ftp_Login := λ _ _, None;
     ftp_List := λ _, Ok entries;
     ftp_Retr := λ _, Ok (body, None) |}.

Definition abc : list byte := bytes_of "abc".

Definition sha256_abc_hex : string :=
  "ba7816bf8f01cfea414140de5dae2223b00361a396177a9cb410ff61f20015ad".

Definition sha1_abc_hex : string := "a9993e364706816aba3e25717850c26c9cd0d89d".

Definition sha256_empty_hex : string :=
  "e3b0c44298fc1c149afbf4c8996fb92427ae41e4649b934ca495991b7852b855".

Definition foo_url : URL :=
  {| Scheme := "https"; User := None; Host := "example.org";
     Path := "/pkg/foo-1.2.tar.xz" |}.

(** [foo-1.2.tar.xz], of the current format, validated by SHA-256. *)
Definition foo (validator : string) : SimpleSource :=
  {| URI := "https://example.org/pkg/foo-1.2.tar.xz";
     File := "foo-1.2.tar.xz"; legacy := false; validator := validator;
     url := foo_url |}.

(** The same file from a legacy package, validated by SHA-1. *)
Definition foo_legacy : SimpleSource :=
  {| URI := "https://example.org/pkg/foo-1.2.tar.xz";
     File := "foo-1.2.tar.xz"; legacy := true; validator := sha1_abc_hex;
     url := foo_url |}.

(** The same bytes under another name, from another legacy package. *)
Definition foo_mirror : SimpleSource :=
  {| URI := "https://mirror.example.org/foo-latest.tar.xz";
     File := "foo-latest.tar.xz"; legacy := true; validator := sha1_abc_hex;
     url := {| Scheme := "https"; User := None; Host := "mirror.example.org";
               Path := "/foo-latest.tar.xz" |} |}.

(** A file on an FTP host given by an IPv6 address without a port. *)
Definition bar_ipv6 : SimpleSource :=
  {| URI := "ftp://[::1]/pub/bar.tar.gz";
     File := "bar.tar.gz"; legacy := false; validator := sha256_abc_hex;
     url := {| Scheme := "ftp"; User := None; Host := "[::1]";
               Path := "/pub/bar.tar.gz" |} |}.

Definition bar : SimpleSource :=
  {| URI := "ftp://anonymous@mirror.example/pub/bar.tar.gz";
     File := "bar.tar.gz"; legacy := false; validator := sha256_abc_hex;
     url := {| Scheme := "ftp";
               User := Some {| username := "anonymous"; password := "";
                               passwordSet := false |};
               Host := "mirror.example"; Path := "/pub/bar.tar.gz" |} |}.

(** Nothing on disk, nothing sent. *)
Definition fresh : World := {| fs := ∅; net := [] |}.

(** The store with its two directories. *)
Definition initialised : World :=
  {| fs := list_to_map
             [ (["var"], Os.Dir); (["var"; "lib"], Os.Dir);
               (["var"; "lib"; "solbuild"], Os.Dir);
               (["var"; "lib"; "solbuild"; "sources"], Os.Dir);
               (["var"; "lib"; "solbuild"; "sources"; "staging"], Os.Dir) ];
     net := [] |}.

Definition Fetch := Source.Fetch SourceDir SourceStagingDir.

Definition GetPath := Source.GetPath SourceDir.

Definition IsFetched := Source.IsFetched SourceDir.

(** The state after [foo] was fetched into the fresh store. *)
Definition after_foo : World := (Fetch (http abc) (foo sha256_abc_hex) fresh).2.

(** The state after [foo_legacy] was fetched into the fresh store. *)
Definition after_foo_legacy : World := (Fetch (http abc) foo_legacy fresh).2.

End Example.

(** More cases for the runs at concrete inputs. *)
Module Cases.

(** A web server whose transfer breaks off after [part]. *)
Definition cut_off (part : list byte) : Env :=
  {| os_fault := Example.no_fault;
     curl_Perform := λ _,
       (part, Some (NetError "curl: transfer closed with outstanding read data remaining"));
     ftp_DialTimeout := λ _, Some (NetError "dial tcp: connection refused");
     ftp_Login := λ _ _, None;
     ftp_List := λ _, Ok [];
     ftp_Retr := λ _, Err (NetError "550 no such file") |}.

(** A disk where [/var] is a regular file: no directory can be made
    under it. *)
Definition blocked : World :=
  {| fs := {[ ["var"] := Os.File [] ]}; net := [] |}.

(** The one entry of the FTP listing of [bar]. *)
Definition bar_entry : Entry := {| Name := "bar.tar.gz"; Size := 3 |}.

(** The source made from [http://example.org/]. *)
Definition site : SimpleSource :=
  {| URI := "http://example.org/"; File := "/"; legacy := false;
     validator := Example.sha256_abc_hex;
     url := {| Scheme := "http"; User := None; Host := "example.org";
               Path := "/" |} |}.

End Cases.

(** ** The theorems at concrete inputs *)

Ltac refute_by_computation :=
  apply (proj1 (bool_decide_eq_false _)); vm_compute; reflexivity.

(** * Test vectors of the digests *)

Example sha256_empty :
  Digest.EncodeToString (Digest.sha256_Sum []) =
  "e3b0c44298fc1c149afbf4c8996fb92427ae41e4649b934ca495991b7852b855".
Proof. vm_compute. reflexivity. Qed.

Example sha256_abc :
  Digest.EncodeToString (Digest.sha256_Sum (bytes_of "abc")) =
  "ba7816bf8f01cfea414140de5dae2223b00361a396177a9cb410ff61f20015ad".
Proof. vm_compute. reflexivity. Qed.

Example sha256_two_blocks :
  Digest.EncodeToString (Digest.sha256_Sum (replicate 119 "a"%byte)) =
  "31eba51c313a5c08226adf18d4a359cfdfd8d2e816b13f4af952f7ea6584dcfb".
Proof. vm_compute. reflexivity. Qed.

Example sha1_empty :
  Digest.EncodeToString (Digest.sha1_Sum []) =
  "da39a3ee5e6b4b0d3255bfef95601890afd80709".
Proof. vm_compute. reflexivity. Qed.

Example sha1_abc :
  Digest.EncodeToString (Digest.sha1_Sum (bytes_of "abc")) =
  "a9993e364706816aba3e25717850c26c9cd0d89d".
Proof. vm_compute. reflexivity. Qed.

Example sha1_two_blocks :
  Digest.EncodeToString (Digest.sha1_Sum (replicate 119 "a"%byte)) =
  "ee971065aaa017e0632a8ca6c77bb3bf8b1dfc56".
Proof. vm_compute. reflexivity. Qed.

(** * Digests and paths *)

Lemma sha256_Sum_nonempty (inp : list byte) : Digest.sha256_Sum inp ≠ [].
Proof. unfold Digest.sha256_Sum, Digest.be32. cbv zeta. cbn [app]. discriminate. Qed.

Lemma sha1_Sum_nonempty (inp : list byte) : Digest.sha1_Sum inp ≠ [].
Proof. unfold Digest.sha1_Sum, Digest.be32. cbv zeta. cbn [app]. discriminate. Qed.

Lemma sha256_Sum_length (inp : list byte) : length (Digest.sha256_Sum inp) = 32.
Proof. unfold Digest.sha256_Sum, Digest.be32. cbv zeta. cbn [app]. reflexivity. Qed.

Lemma sha1_Sum_length (inp : list byte) : length (Digest.sha1_Sum inp) = 20.
Proof. unfold Digest.sha1_Sum, Digest.be32. cbv zeta. cbn [app]. reflexivity. Qed.

Lemma EncodeToString_length (src : list byte) :
  String.length (Digest.EncodeToString src) = 2 * length src.
Proof. induction src as [|b src IH]; simpl; [done | rewrite IH; lia]. Qed.

Lemma hexdigit_plain (n : N) :
  Filepath.IsPathSeparator (Digest.hexdigit n) = false ∧
  bool_decide (Digest.hexdigit n = "."%char) = false.
Proof.
  destruct n as [|p]; [split; reflexivity|].
  do 5 (try destruct p as [p|p|]); split; reflexivity.
Qed.

Lemma EncodeToString_plain (src : list byte) :
  plain_chars (Digest.EncodeToString src) = true.
Proof.
  induction src as [|b src IH]; [done|]. cbn [Digest.EncodeToString plain_chars].
  destruct (hexdigit_plain (Byte.to_N b / 16)) as [-> ->].
  destruct (hexdigit_plain (Byte.to_N b mod 16)) as [-> ->].
  by rewrite IH.
Qed.

Lemma split_plain (s : string) : plain_chars s = true → Filepath.split s = [s].
Proof.
  induction s as [|c s IH]; [done|]. cbn [plain_chars Filepath.split].
  intros H. apply andb_prop in H as [H Hs]. apply andb_prop in H as [Hc _].
  apply negb_true_iff in Hc. rewrite Hc, (IH Hs). done.
Qed.

Lemma plain_not_dots (s : string) :
  plain_chars s = true → s ≠ "." ∧ s ≠ "..".
Proof.
  destruct s as [|c s]; [done|]. cbn [plain_chars]. intros H.
  apply andb_prop in H as [H _]. apply andb_prop in H as [_ Hc].
  apply negb_true_iff, bool_decide_eq_false in Hc.
  split; intros [=]; done.
Qed.

Lemma clean_step_name (p : path) (c : string) :
  is_name c → Filepath.clean_step p c = p ++ [c].
Proof.
  intros (H1 & H2 & H3). unfold Filepath.clean_step.
  destruct (decide _) as [[?|?]|_]; [done..|]. by destruct (decide _).
Qed.

Lemma Join_plain (dir : path) (s : string) :
  plain_chars s = true → s ≠ "" → Filepath.Join dir [s] = dir ++ [s].
Proof.
  intros Hp Hne. unfold Filepath.Join. cbn [flat_map]. rewrite app_nil_r.
  rewrite (split_plain _ Hp). cbn [foldl].
  apply clean_step_name. destruct (plain_not_dots _ Hp). done.
Qed.

Lemma EncodeToString_nonempty (src : list byte) :
  src ≠ [] → Digest.EncodeToString src ≠ "".
Proof. destruct src; done. Qed.

Lemma Join_hex (dir : path) (sum : list byte) :
  sum ≠ [] →
  Filepath.Join dir [Digest.EncodeToString sum] = dir ++ [Digest.EncodeToString sum].
Proof.
  intros H. apply Join_plain; [apply EncodeToString_plain|].
  by apply EncodeToString_nonempty.
Qed.

Lemma Join_app (dir : path) (a b : list string) :
  Filepath.Join dir (a ++ b) = Filepath.Join (Filepath.Join dir a) b.
Proof. unfold Filepath.Join. by rewrite flat_map_app, foldl_app. Qed.

Lemma Join_cons (dir : path) (a : string) (b : list string) :
  Filepath.Join dir (a :: b) = Filepath.Join (Filepath.Join dir [a]) b.
Proof. apply (Join_app dir [a] b). Qed.

Lemma no_dotdot_removelast (p : path) : no_dotdot p → no_dotdot (removelast p).
Proof.
  unfold no_dotdot. induction p as [|c p IH]; [done|]. intros H.
  apply Forall_cons in H as [Hc Hp]. destruct p as [|d p]; [constructor|].
  change (removelast (c :: d :: p)) with (c :: removelast (d :: p)).
  constructor; auto.
Qed.

Lemma clean_step_no_dotdot (p : path) (c : string) :
  no_dotdot p → no_dotdot (Filepath.clean_step p c).
Proof.
  intros H. unfold Filepath.clean_step.
  destruct (decide _); [done|]. destruct (decide _).
  - by apply no_dotdot_removelast.
  - apply Forall_app; split; [done|]. by constructor.
Qed.

Lemma Join_no_dotdot (dir : path) (elem : list string) :
  no_dotdot dir → no_dotdot (Filepath.Join dir elem).
Proof.
  unfold Filepath.Join. generalize (flat_map Filepath.split elem) as l.
  intros l. revert dir. induction l as [|c l IH]; intros dir H; [done|].
  cbn [foldl]. apply IH. by apply clean_step_no_dotdot.
Qed.

Lemma Join_root_no_dotdot (elem : list string) : no_dotdot (Filepath.Join [] elem).
Proof. apply Join_no_dotdot. constructor. Qed.

(** [filepath.Base] against the final segment. *)

Lemma Base_nonempty (p : string) : Filepath.Base p ≠ "".
Proof.
  unfold Filepath.Base. destruct (decide (p = "")); [done|].
  cbv zeta. by destruct (decide _).
Qed.

Lemma split_nonempty (s : string) : Filepath.split s ≠ [].
Proof.
  destruct s as [|c s]; [done|]. cbn [Filepath.split].
  destruct (Filepath.IsPathSeparator c); [done|]. by destruct (Filepath.split s).
Qed.

Lemma split_snoc (s : string) (c : ascii) :
  Filepath.split (s +:+ String c "") =
  if Filepath.IsPathSeparator c then Filepath.split s ++ [""]
  else removelast (Filepath.split s) ++
       [List.last (Filepath.split s) "" +:+ String c ""].
Proof.
  induction s as [|d s IH].
  - destruct (Filepath.IsPathSeparator c) eqn:E; simpl; by rewrite E.
  - change (String d s +:+ String c "") with (String d (s +:+ String c "")).
    cbn [Filepath.split]. rewrite IH. clear IH.
    pose proof (split_nonempty s) as Hne.
    destruct (Filepath.IsPathSeparator d), (Filepath.IsPathSeparator c).
    + done.
    + destruct (Filepath.split s) as [|x xs]; [done|]. done.
    + destruct (Filepath.split s) as [|x xs]; [done|]. done.
    + destruct (Filepath.split s) as [|x [|y ys]]; [done| done |].
      cbn [removelast app]. done.
Qed.

Lemma last_split_snoc (s : string) (c : ascii) :
  List.last (Filepath.split (s +:+ String c "")) "" =
  if Filepath.IsPathSeparator c then ""
  else List.last (Filepath.split s) "" +:+ String c "".
Proof.
  rewrite split_snoc. destruct (Filepath.IsPathSeparator c); apply last_last.
Qed.

Lemma string_of_list_ascii_snoc (l : list ascii) (c : ascii) :
  String.string_of_list_ascii (l ++ [c]) =
  String.string_of_list_ascii l +:+ String c "".
Proof. induction l as [|d l IH]; [done|]. cbn. by rewrite IH. Qed.

Lemma final_segment_rev (r : list ascii) :
  final_segment (String.string_of_list_ascii (rev r)) =
  String.string_of_list_ascii (rev (Filepath.upto_separator r)).
Proof.
  unfold final_segment. induction r as [|c r IH]; [done|].
  cbn [rev Filepath.upto_separator].
  rewrite string_of_list_ascii_snoc, last_split_snoc, IH.
  destruct (Filepath.IsPathSeparator c); [done|].
  cbn [rev]. by rewrite string_of_list_ascii_snoc.
Qed.

Lemma final_segment_scan (p : string) :
  final_segment p =
  String.string_of_list_ascii
    (rev (Filepath.upto_separator (rev (String.list_ascii_of_string p)))).
Proof.
  rewrite <- final_segment_rev, rev_involutive.
  by rewrite String.string_of_list_ascii_of_string.
Qed.

Lemma Base_final_segment (p : string) :
  final_segment p ≠ "" → Filepath.Base p = final_segment p.
Proof.
  intros Hne. unfold Filepath.Base.
  destruct (decide (p = "")) as [->|_]; [done|]. cbv zeta.
  rewrite final_segment_scan in Hne |- *.
  destruct (rev (String.list_ascii_of_string p)) as [|c r]; [done|].
  cbn [Filepath.strip_separators]. cbn [Filepath.upto_separator] in Hne |- *.
  destruct (Filepath.IsPathSeparator c) eqn:E; [done|].
  cbn [Filepath.upto_separator]. rewrite E. by destruct (decide _).
Qed.

(** * The file system *)

Lemma entry_ne (f : Os.FS) (q : path) : q ≠ [] → Os.entry f q = f !! q.
Proof. by destruct q. Qed.

Lemma entry_snoc (f : Os.FS) (q : path) (c : string) :
  Os.entry f (q ++ [c]) = f !! (q ++ [c]).
Proof. apply entry_ne. by destruct q. Qed.

Lemma plain_spec (f : Os.FS) (p : path) :
  plain f p = true ↔
  ∀ a b t, p = a ++ b → a ≠ [] → f !! a ≠ Some (Os.Link t).
Proof.
  unfold plain. rewrite forallb_forall. split.
  - intros H a b t -> Ha Hl.
    specialize (H (length a)). rewrite take_app_length, Hl in H.
    assert (true = false → False) as Hd by done. apply Hd. symmetry. apply H.
    apply in_seq. rewrite length_app. destruct a; [done|]. simpl. lia.
  - intros H n Hn. apply in_seq in Hn.
    destruct (f !! take n p) as [[| |t]|] eqn:E; try done.
    exfalso. apply (H (take n p) (drop n p) t); [by rewrite take_drop| |done].
    destruct p; [simpl in Hn; lia|]. destruct n; [lia|]. done.
Qed.

Lemma plain_prefix (f : Os.FS) (a b : path) :
  plain f (a ++ b) = true → plain f a = true.
Proof.
  rewrite !plain_spec. intros H a1 a2 t -> Ha.
  apply (H a1 (a2 ++ b)); [by rewrite app_assoc | done].
Qed.

Lemma plain_no_new_links (f f' : Os.FS) (p : path) :
  no_new_links f f' → plain f p = true → plain f' p = true.
Proof.
  rewrite !plain_spec. intros Hn H a b t Hp Ha Hl.
  apply (H a b t Hp Ha). by apply Hn.
Qed.

Section walk.

Context (f : Os.FS) (follow : bool).

Context (k : path → list string → Os.errno + path).

Lemma walk_names_plain_inv (rest : list string) (cur q : path) :
  no_dotdot rest →
  (∀ a b t, rest = a ++ b → a ≠ [] → b ≠ [] →
     f !! (cur ++ a) ≠ Some (Os.Link t)) →
  (follow = true → rest ≠ [] → ∀ t, f !! (cur ++ rest) ≠ Some (Os.Link t)) →
  Os.walk_names f follow k cur rest = inr q →
  q = cur ++ rest ∧
  (∀ a b, rest = a ++ b → a ≠ [] → b ≠ [] → f !! (cur ++ a) = Some Os.Dir).
Proof.
  revert cur. induction rest as [|c rest IH]; intros cur Hdd Hpl Hfin Hw.
  - cbn in Hw. injection Hw as <-. rewrite app_nil_r. split; [done|].
    intros a b Hab Ha. by destruct a.
  - apply Forall_cons in Hdd as [Hc Hdd]. cbn [Os.walk_names] in Hw.
    destruct (decide (c = "..")); [done|]. cbv zeta in Hw.
    assert (∀ a b t, rest = a ++ b → a ≠ [] → b ≠ [] →
              f !! ((cur ++ [c]) ++ a) ≠ Some (Os.Link t)) as Hpl'.
    { intros a b t -> Ha Hb. rewrite <- app_assoc. by apply (Hpl (c :: a) b t). }
    assert (follow = true → rest ≠ [] →
            ∀ t, f !! ((cur ++ [c]) ++ rest) ≠ Some (Os.Link t)) as Hfin'.
    { intros Hf _ t. rewrite <- app_assoc. by apply Hfin. }
    destruct (f !! (cur ++ [c])) as [[d| |t]|] eqn:E.
    + destruct rest; [|done]. injection Hw as <-. split; [done|].
      intros [|? [|??]] b Hab Ha Hb; try done. by destruct b.
    + destruct (IH _ Hdd Hpl' Hfin' Hw) as [-> Hd].
      split; [by rewrite <- app_assoc|].
      intros [|x a] b Hab Ha Hb; [done|]. injection Hab as <- ->.
      destruct a as [|y a]; [done|].
      replace (cur ++ c :: y :: a) with ((cur ++ [c]) ++ y :: a)
        by (by rewrite <- app_assoc).
      by apply (Hd _ b).
    + destruct rest as [|c' rest].
      * destruct follow; [exfalso; by apply (Hfin eq_refl ltac:(done) t)|].
        cbn in Hw. injection Hw as <-. split; [done|].
        intros [|? [|??]] b Hab Ha Hb; try done. by destruct b.
      * exfalso. by apply (Hpl [c] (c' :: rest) t).
    + destruct rest; [|done]. injection Hw as <-. split; [done|].
      intros [|? [|??]] b Hab Ha Hb; try done. by destruct b.
Qed.

Lemma walk_names_plain (rest : list string) (cur : path) :
  no_dotdot rest →
  (∀ a b, rest = a ++ b → a ≠ [] → b ≠ [] → f !! (cur ++ a) = Some Os.Dir) →
  (follow = true → rest ≠ [] → ∀ t, f !! (cur ++ rest) ≠ Some (Os.Link t)) →
  Os.walk_names f follow k cur rest = inr (cur ++ rest).
Proof.
  revert cur. induction rest as [|c rest IH]; intros cur Hdd Hd Hl.
  - by rewrite app_nil_r.
  - apply Forall_cons in Hdd as [Hc Hdd]. cbn [Os.walk_names].
    destruct (decide (c = "..")); [done|]. cbv zeta.
    destruct rest as [|c' rest].
    + destruct (f !! (cur ++ [c])) as [[d| |t]|] eqn:E; try done.
      destruct follow; [|done]. exfalso. by apply (Hl eq_refl ltac:(done) t).
    + rewrite (Hd [c] (c' :: rest)) by done.
      rewrite IH; [by rewrite <- app_assoc|done| |].
      * intros a b Hab Ha Hb. rewrite <- app_assoc.
        apply (Hd (c :: a) b); [by rewrite Hab|done..].
      * intros Hf _ t. rewrite <- app_assoc. by apply Hl.
Qed.

(** Directories are walked through. *)
Lemma walk_names_dirs (dir rest : list string) (cur : path) :
  no_dotdot dir →
  (∀ a b, dir = a ++ b → a ≠ [] → f !! (cur ++ a) = Some Os.Dir) →
  Os.walk_names f follow k cur (dir ++ rest) =
  Os.walk_names f follow k (cur ++ dir) rest.
Proof.
  revert cur. induction dir as [|c dir IH]; intros cur Hdd Hd.
  - by rewrite app_nil_r.
  - apply Forall_cons in Hdd as [Hc Hdd].
    cbn [app Os.walk_names]. destruct (decide (c = "..")); [done|]. cbv zeta.
    rewrite (Hd [c] dir) by done. rewrite IH; [by rewrite <- app_assoc|done|].
    intros a b Hab Ha. rewrite <- app_assoc. apply (Hd (c :: a) b); [|done].
    by rewrite Hab.
Qed.

End walk.

Lemma walk_unfold (n : nat) (f : Os.FS) (follow : bool) :
  Os.walk n f follow =
  Os.walk_names f follow
    (match n with
     | O => λ _ _, inl Os.ELOOP
     | S n' => Os.walk n' f follow
     end).
Proof. by destruct n. Qed.

Lemma resolve_plain_inv (follow : bool) (f : Os.FS) (p q : path) :
  no_dotdot p → plain f p = true →
  Os.resolve follow f p = inr q → q = p ∧ dirs_above f p.
Proof.
  intros Hdd Hpl Hw. unfold Os.resolve in Hw. rewrite walk_unfold in Hw.
  rewrite plain_spec in Hpl.
  refine (walk_names_plain_inv f follow _ p [] q Hdd _ _ Hw).
  - intros a b t Hp Ha _. by apply (Hpl a b t).
  - intros _ Hne t. simpl. apply (Hpl p [] t); [by rewrite app_nil_r | done].
Qed.

(** Above the last name, a path without links above a link that is not
    followed. *)
Lemma resolve_nofollow_inv (f : Os.FS) (dir : path) (c : string) (q : path) :
  no_dotdot (dir ++ [c]) → plain f dir = true →
  Os.resolve false f (dir ++ [c]) = inr q →
  q = dir ++ [c] ∧ dirs_above f (dir ++ [c]).
Proof.
  intros Hdd Hpl Hw. unfold Os.resolve in Hw. rewrite walk_unfold in Hw.
  rewrite plain_spec in Hpl.
  refine (walk_names_plain_inv f false _ (dir ++ [c]) [] q Hdd _ _ Hw); [|done].
  intros a b t Hp Ha Hb. simpl.
  assert (∃ b', b = b' ++ [c]) as [b' ->].
  { destruct (exists_last Hb) as (b' & x & ->). exists b'.
    rewrite app_assoc in Hp. by apply app_inj_tail in Hp as [_ ->]. }
  rewrite app_assoc in Hp. apply app_inj_tail in Hp as [-> _].
  by apply (Hpl a b' t).
Qed.

Lemma resolve_plain (follow : bool) (f : Os.FS) (p : path) :
  no_dotdot p → dirs_above f p → (∀ t, f !! p ≠ Some (Os.Link t)) →
  Os.resolve follow f p = inr p.
Proof.
  intros Hdd Hd Hl. unfold Os.resolve. rewrite walk_unfold.
  rewrite walk_names_plain; [done..|]. intros _ _. apply Hl.
Qed.

Lemma resolve_nofollow (f : Os.FS) (p : path) :
  no_dotdot p → dirs_above f p → Os.resolve false f p = inr p.
Proof.
  intros Hdd Hd. unfold Os.resolve. rewrite walk_unfold.
  by rewrite walk_names_plain.
Qed.

(** Resolution to an entry that is there is kept when entries are added. *)
Lemma walk_names_mono (f f' : Os.FS) (follow : bool)
    (k k' : path → list string → Os.errno + path) :
  f ⊆ f' →
  (∀ c r q, k c r = inr q → is_Some (Os.entry f q) → k' c r = inr q) →
  ∀ rest cur q,
    Os.walk_names f follow k cur rest = inr q → is_Some (Os.entry f q) →
    Os.walk_names f' follow k' cur rest = inr q.
Proof.
  intros Hsub Hk. induction rest as [|c rest IH]; intros cur q Hw Hq; [done|].
  cbn [Os.walk_names] in Hw |- *. destruct (decide (c = "..")); [by apply IH|].
  cbv zeta in Hw |- *.
  destruct (f !! (cur ++ [c])) as [[d| |t]|] eqn:E.
  - rewrite (lookup_weaken _ _ _ _ E Hsub). by destruct rest.
  - rewrite (lookup_weaken _ _ _ _ E Hsub). by apply IH.
  - rewrite (lookup_weaken _ _ _ _ E Hsub).
    destruct (bool_decide (rest = []) && negb follow); [done|]. by apply Hk.
  - destruct rest; [|done]. injection Hw as <-.
    rewrite entry_snoc, E in Hq. by destruct Hq.
Qed.

Lemma walk_mono (n : nat) (f f' : Os.FS) (follow : bool) (cur : path)
    (rest : list string) (q : path) :
  f ⊆ f' →
  Os.walk n f follow cur rest = inr q → is_Some (Os.entry f q) →
  Os.walk n f' follow cur rest = inr q.
Proof.
  intros Hsub. revert cur rest q.
  induction n as [|n IH]; intros cur rest q; cbn [Os.walk];
    apply walk_names_mono; auto.
Qed.

Lemma resolve_mono (follow : bool) (f f' : Os.FS) (p q : path) :
  f ⊆ f' → Os.resolve follow f p = inr q → is_Some (Os.entry f q) →
  Os.resolve follow f' p = inr q.
Proof. apply walk_mono. Qed.

Lemma walk_names_insert (f : Os.FS) (follow : bool)
    (k k' : path → list string → Os.errno + path) (q : path) (nd : Os.node) :
  free_or_file f q →
  (follow = true → ∀ t, nd ≠ Os.Link t) →
  (∀ c r, k c r = inr q → k' c r = inr q) →
  ∀ rest cur,
    Os.walk_names f follow k cur rest = inr q →
    Os.walk_names (<[q := nd]> f) follow k' cur rest = inr q.
Proof.
  intros Hq Hnd Hk. induction rest as [|c rest IH]; intros cur Hw; [done|].
  cbn [Os.walk_names] in Hw |- *. destruct (decide (c = "..")); [by apply IH|].
  cbv zeta in Hw |- *.
  destruct (decide (cur ++ [c] = q)) as [<-|Hne].
  - rewrite lookup_insert_eq.
    assert (rest = []) as ->.
    { destruct Hq as [Hq|[d Hq]]; rewrite Hq in Hw; by destruct rest. }
    destruct nd as [d| |t]; [done..|].
    destruct follow; [by specialize (Hnd eq_refl t)|done].
  - rewrite lookup_insert_ne by done.
    destruct (f !! (cur ++ [c])) as [[d| |t]|] eqn:E.
    + destruct rest; [|done]. by injection Hw.
    + by apply IH.
    + destruct (bool_decide (rest = []) && negb follow); [by injection Hw|].
      by apply Hk.
    + destruct rest; [|done]. by injection Hw.
Qed.

Lemma walk_insert (n : nat) (f : Os.FS) (follow : bool) (q : path)
    (nd : Os.node) (cur : path) (rest : list string) :
  free_or_file f q →
  (follow = true → ∀ t, nd ≠ Os.Link t) →
  Os.walk n f follow cur rest = inr q →
  Os.walk n (<[q := nd]> f) follow cur rest = inr q.
Proof.
  intros Hq Hnd. revert cur rest.
  induction n as [|n IH]; intros cur rest; cbn [Os.walk];
    apply walk_names_insert; auto.
Qed.

Lemma resolve_insert (follow : bool) (f : Os.FS) (p q : path) (nd : Os.node) :
  free_or_file f q →
  (follow = true → ∀ t, nd ≠ Os.Link t) →
  Os.resolve follow f p = inr q →
  Os.resolve follow (<[q := nd]> f) p = inr q.
Proof. apply walk_insert. Qed.

(** ** What the calls do *)

Lemma dirs_added_refl (f : Os.FS) : dirs_added f f.
Proof. intros k. by left. Qed.

Lemma dirs_added_trans (f1 f2 f3 : Os.FS) :
  dirs_added f1 f2 → dirs_added f2 f3 → dirs_added f1 f3.
Proof.
  intros H12 H23 k. destruct (H12 k) as [E1|[E1 E1']], (H23 k) as [E2|[E2 E2']].
  - left. congruence.
  - right. split; congruence.
  - right. split; congruence.
  - congruence.
Qed.

Lemma dirs_added_subseteq (f f' : Os.FS) : dirs_added f f' → f ⊆ f'.
Proof.
  intros H. apply map_subseteq_spec. intros k x E.
  destruct (H k) as [E'|[E' _]]; congruence.
Qed.

Lemma dirs_added_no_new_links (f f' : Os.FS) :
  dirs_added f f' → no_new_links f f'.
Proof. intros H k t E. destruct (H k) as [E'|[_ E']]; congruence. Qed.

Lemma dirs_added_insert (f : Os.FS) (q : path) :
  f !! q = None → dirs_added f (<[q := Os.Dir]> f).
Proof.
  intros E k. destruct (decide (q = k)) as [<-|Hne].
  - right. by rewrite lookup_insert_eq.
  - left. by rewrite lookup_insert_ne.
Qed.

Lemma Mkdir_inv (f f' : Os.FS) (p : path) :
  Os.Mkdir f p = inr f' →
  ∃ q, Os.resolve false f p = inr q ∧ f !! q = None ∧ q ≠ [] ∧
       f' = <[q := Os.Dir]> f.
Proof.
  unfold Os.Mkdir. destruct (Os.resolve false f p) as [e|q]; [done|].
  destruct q as [|c q]; [done|]. cbn [Os.entry].
  destruct (f !! (c :: q)) eqn:E; [done|]. intros [= <-]. by exists (c :: q).
Qed.

Lemma Mkdir_dirs_added (f f' : Os.FS) (p : path) :
  Os.Mkdir f p = inr f' → dirs_added f f'.
Proof.
  intros H. apply Mkdir_inv in H as (q & _ & E & _ & ->).
  by apply dirs_added_insert.
Qed.

Lemma mkdir_all_dirs_added (n : nat) (f f' : Os.FS) (p : path) :
  Os.mkdir_all n f p = inr f' → dirs_added f f'.
Proof.
  revert f f' p. induction n as [|n IH]; intros f f' p; cbn [Os.mkdir_all].
  - destruct (Os.Stat f p) as [e|[d| |t]]; try done.
    + destruct (Os.Mkdir f p) as [e'|f2] eqn:E.
      * destruct (Os.Lstat f p) as [?|[| |]]; try done.
        intros [= <-]. apply dirs_added_refl.
      * intros [= <-]. by apply Mkdir_dirs_added in E.
    + intros [= <-]. apply dirs_added_refl.
  - destruct (Os.Stat f p) as [e|[d| |t]]; try done.
    + assert (∀ f1, dirs_added f f1 →
        match Os.Mkdir f1 p with
        | inl e => match Os.Lstat f1 p with
                   | inr Os.Dir => inr f1
                   | _ => inl e
                   end
        | inr f2 => inr f2
        end = inr f' → dirs_added f f') as Hrest.
      { intros f1 H1. destruct (Os.Mkdir f1 p) as [e'|f2] eqn:E.
        - destruct (Os.Lstat f1 p) as [?|[| |]]; try done. by intros [= <-].
        - intros [= <-]. apply Mkdir_dirs_added in E.
          by apply (dirs_added_trans _ f1). }
      destruct (decide (2 ≤ length p)%nat).
      * destruct (Os.mkdir_all n f (removelast p)) as [e'|f1] eqn:E1; [done|].
        apply Hrest. by apply IH in E1.
      * apply Hrest, dirs_added_refl.
    + intros [= <-]. apply dirs_added_refl.
Qed.

Lemma MkdirAll_dirs_added (f f' : Os.FS) (p : path) :
  Os.MkdirAll f p = inr f' → dirs_added f f'.
Proof. apply mkdir_all_dirs_added. Qed.

Lemma Create_inv (f f' : Os.FS) (p q : path) :
  Os.Create f p = inr (q, f') →
  Os.resolve true f p = inr q ∧ free_or_file f q ∧ q ≠ [] ∧
  f' = <[q := Os.File []]> f.
Proof.
  unfold Os.Create, free_or_file.
  destruct (Os.resolve true f p) as [e|q']; [done|].
  destruct q' as [|c q']; [done|]. cbn [Os.entry].
  destruct (f !! (c :: q')) as [[d| |t]|] eqn:E; try done.
  - intros [= <- <-]. rewrite E. eauto 6.
  - intros [= <- <-]. rewrite E. eauto.
Qed.

Lemma Write_created (f : Os.FS) (q : path) (data : list byte) :
  Os.Write (<[q := Os.File []]> f) q data = <[q := Os.File data]> f.
Proof. unfold Os.Write. by rewrite lookup_insert_eq, insert_insert_eq. Qed.

Lemma ReadFile_inv (f : Os.FS) (p : path) (d : list byte) :
  Os.ReadFile f p = inr d →
  ∃ q, Os.resolve true f p = inr q ∧ Os.entry f q = Some (Os.File d).
Proof.
  unfold Os.ReadFile, Os.Stat.
  destruct (Os.resolve true f p) as [e|q]; [done|].
  destruct (Os.entry f q) as [[d'| |t]|] eqn:E; try done.
  intros [= <-]. eauto.
Qed.

Lemma ReadFile_intro (f : Os.FS) (p q : path) (d : list byte) :
  Os.resolve true f p = inr q → Os.entry f q = Some (Os.File d) →
  Os.ReadFile f p = inr d.
Proof. unfold Os.ReadFile, Os.Stat. by intros -> ->. Qed.

Lemma Rename_file_inv (f f' : Os.FS) (old new qs : path) (d : list byte) :
  Os.resolve false f old = inr qs → Os.entry f qs = Some (Os.File d) →
  Os.Rename f old new = inr f' →
  ∃ qd, Os.resolve false f new = inr qd ∧
        (qs = qd ∧ f' = f ∨
         qs ≠ qd ∧ Os.entry f qd ≠ Some Os.Dir ∧
         f' = <[qd := Os.File d]> (delete qs f)).
Proof.
  unfold Os.Rename. intros -> ->.
  destruct (Os.resolve false f new) as [e|qd]; [done|].
  destruct (decide (qs = qd)) as [->|Hne].
  - intros [= <-]. eauto.
  - destruct (Os.entry f qd) as [[d'| |t]|] eqn:E; try done;
      intros [= <-]; exists qd; split; try done; right; by rewrite ?E.
Qed.

Lemma Symlink_inv (t : string) (f f' : Os.FS) (p : path) :
  Os.Symlink t f p = inr f' →
  ∃ q, Os.resolve false f p = inr q ∧ f !! q = None ∧ q ≠ [] ∧
       f' = <[q := Os.Link t]> f.
Proof.
  unfold Os.Symlink. destruct (Os.resolve false f p) as [e|q]; [done|].
  destruct q as [|c q]; [done|]. cbn [Os.entry].
  destruct (f !! (c :: q)) eqn:E; [done|]. intros [= <-]. by exists (c :: q).
Qed.

Lemma Symlink_exists (t : string) (f : Os.FS) (p : path) (n : Os.node) :
  Os.Lstat f p = inr n → Os.Symlink t f p = inl Os.EEXIST.
Proof.
  unfold Os.Lstat, Os.Symlink. destruct (Os.resolve false f p) as [e|q]; [done|].
  by destruct (Os.entry f q).
Qed.

(** * The monad *)

Global Opaque Digest.sha256_Sum Digest.sha1_Sum.

Lemma set_fs_id (w : World) : set_fs (fs w) w = w.
Proof. by destruct w. Qed.

Lemma bind_inv {A B} (m : M A) (k : A → M B) (w w' : World) (r : result B) :
  bind m k w = (r, w') →
  (∃ e, m w = (Err e, w') ∧ r = Err e) ∨
  (∃ a w1, m w = (Ok a, w1) ∧ k a w1 = (r, w')).
Proof.
  unfold bind. destruct (m w) as [[a|e] w1].
  - right. eauto.
  - intros [= <- <-]. left. eauto.
Qed.

Lemma bind_ok {A B} (m : M A) (k : A → M B) (w w' : World) (b : B) :
  bind m k w = (Ok b, w') →
  ∃ a w1, m w = (Ok a, w1) ∧ k a w1 = (Ok b, w').
Proof. intros H. apply bind_inv in H as [(e & _ & [=])|H]. done. Qed.

Lemma syscall_inv {A} (env : Env) (c : OsCall)
    (op : Os.FS → Os.errno + (A * Os.FS)) (w w' : World) (r : result A) :
  syscall env c op w = (r, w') →
  (∃ e, r = Err e ∧ w' = w) ∨
  (∃ a f, os_fault env c = None ∧ op (fs w) = inr (a, f) ∧
          r = Ok a ∧ w' = set_fs f w).
Proof.
  unfold syscall. destruct (os_fault env c) as [e|].
  - intros [= <- <-]. left. eauto.
  - destruct (op (fs w)) as [e|[a f]]; intros [= <- <-]; [left|right]; eauto 7.
Qed.

Lemma syscall_ok {A} (env : Env) (c : OsCall)
    (op : Os.FS → Os.errno + (A * Os.FS)) (w w' : World) (a : A) :
  syscall env c op w = (Ok a, w') →
  ∃ f, os_fault env c = None ∧ op (fs w) = inr (a, f) ∧ w' = set_fs f w.
Proof.
  intros H. apply syscall_inv in H as [(e & [=] & _)|(a' & f & ? & ? & [= <-] & ?)].
  eauto.
Qed.

Lemma file_Write_inv (env : Env) (q : path) (data : list byte)
    (w w' : World) (r : result unit) :
  file_Write env q data w = (r, w') →
  (∃ e, r = Err e ∧ w' = w) ∨
  (r = Ok tt ∧ net w' = net w ∧
   (data = [] ∧ fs w' = fs w ∨ fs w' = Os.Write (fs w) q data)).
Proof.
  destruct data as [|b data]; cbn [file_Write].
  - intros [= <- <-]. right. auto.
  - intros H. apply syscall_inv in H as [?|(a & f & _ & H & -> & ->)];
      [by left|right]. destruct a. injection H as <-. auto.
Qed.

Lemma ReadFile_m_inv (env : Env) (p : path) (w w' : World) (r : result (list byte)) :
  ioutil_ReadFile env p w = (r, w') →
  w' = w ∧ ∀ d, r = Ok d → Os.ReadFile (fs w) p = inr d.
Proof.
  intros H. apply syscall_inv in H as [(e & -> & ->)|(a & f & _ & H & -> & ->)].
  - done.
  - destruct (Os.ReadFile (fs w) p) as [e|d]; [done|]. injection H as <- <-.
    split; [apply set_fs_id|]. by intros d' [= <-].
Qed.

Lemma GetSHA256Sum_inv (env : Env) (s : SimpleSource) (p : path)
    (w w' : World) (r : result string) :
  Source.GetSHA256Sum env s p w = (r, w') →
  w' = w ∧
  ∀ h, r = Ok h →
    ∃ d, Os.ReadFile (fs w) p = inr d ∧
         h = Digest.EncodeToString (Digest.sha256_Sum d).
Proof.
  unfold Source.GetSHA256Sum. intros H.
  apply bind_inv in H as [(e & H & ->)|(d & w1 & H & Hr)].
  - apply ReadFile_m_inv in H as [-> _]. done.
  - apply ReadFile_m_inv in H as [-> H]. injection Hr as <- <-.
    split; [done|]. intros h [= <-]. eauto.
Qed.

Lemma GetSHA1Sum_inv (env : Env) (s : SimpleSource) (p : path)
    (w w' : World) (r : result string) :
  Source.GetSHA1Sum env s p w = (r, w') →
  w' = w ∧
  ∀ h, r = Ok h →
    ∃ d, Os.ReadFile (fs w) p = inr d ∧
         h = Digest.EncodeToString (Digest.sha1_Sum d).
Proof.
  unfold Source.GetSHA1Sum. intros H.
  apply bind_inv in H as [(e & H & ->)|(d & w1 & H & Hr)].
  - apply ReadFile_m_inv in H as [-> _]. done.
  - apply ReadFile_m_inv in H as [-> H]. injection Hr as <- <-.
    split; [done|]. intros h [= <-]. eauto.
Qed.

Lemma ensure_dir_inv (env : Env) (p : path) (w w' : World) (r : result unit) :
  ensure_dir env p w = (r, w') →
  net w' = net w ∧ dirs_added (fs w) (fs w') ∧ (∀ e, r = Err e → w' = w).
Proof.
  unfold ensure_dir. destruct (negb (PathExists p w)).
  - intros H. apply syscall_inv in H as [(e & -> & ->)|(a & f & _ & H & -> & ->)].
    + split; [done|]. split; [apply dirs_added_refl|done].
    + split; [done|]. split; [|done]. cbn [fs set_fs].
      unfold with_unit in H. destruct (Os.MkdirAll (fs w) p) as [e|f'] eqn:E; [done|].
      injection H as _ <-. by apply MkdirAll_dirs_added in E.
  - intros [= <- <-]. split; [done|]. split; [apply dirs_added_refl|done].
Qed.

(** * The transfers *)

Lemma created_written (env : Env) (f f1 : Os.FS) (p q : path) (data : list byte)
    (w w' : World) :
  Os.Create f p = inr (q, f1) → fs w = f1 →
  file_Write env q data w = (Ok tt, w') →
  fs w' = <[q := Os.File data]> f ∧ net w' = net w.
Proof.
  intros Hc Hw H. apply Create_inv in Hc as (_ & _ & _ & ->).
  apply file_Write_inv in H as [(e & [=] & _)|(_ & Hn & [[-> ->]| ->])].
  - by rewrite Hw.
  - by rewrite Hw, Write_created.
Qed.

Lemma created_written_any (env : Env) (f f1 : Os.FS) (p q : path)
    (data : list byte) (w w' : World) (r : result unit) :
  Os.Create f p = inr (q, f1) → fs w = f1 →
  file_Write env q data w = (r, w') →
  (∃ d, fs w' = <[q := Os.File d]> f) ∧ net w' = net w.
Proof.
  intros Hc Hw H. apply Create_inv in Hc as (_ & _ & _ & ->).
  apply file_Write_inv in H as [(e & _ & ->)|(_ & Hn & [[-> ->]| ->])].
  - rewrite Hw. eauto.
  - rewrite Hw. eauto.
  - rewrite Hw, Write_created. eauto.
Qed.

Lemma os_Create_inv (env : Env) (p : path) (w w' : World) (r : result path) :
  os_Create env p w = (r, w') →
  (∃ e, r = Err e ∧ w' = w) ∨
  (∃ q f1, r = Ok q ∧ Os.Create (fs w) p = inr (q, f1) ∧ w' = set_fs f1 w).
Proof.
  intros H. apply syscall_inv in H as [?|(q & f & _ & H & -> & ->)]; [by left|].
  right. eauto.
Qed.

Lemma downloadCurl_inv (env : Env) (s : SimpleSource) (p : path)
    (w w' : World) (r : result unit) :
  Source.downloadCurl env s p w = (r, w') →
  wrote p (fs w) (fs w') ∧
  (∃ evs, net w' = net w ++ evs ∧ (r = Ok tt → evs ≠ [])) ∧
  (r = Ok tt →
   ∃ q, Os.resolve true (fs w) p = inr q ∧ free_or_file (fs w) q ∧ q ≠ [] ∧
        fs w' = <[q := Os.File (curl_Perform env (URI s)).1]> (fs w)).
Proof.
  unfold Source.downloadCurl. intros H.
  apply bind_inv in H as [(e & H & ->)|(q & w1 & H & Hp)].
  - apply os_Create_inv in H as [(? & _ & ->)|(? & ? & [=] & _)].
    split; [by left|]. split; [|done]. exists []. by rewrite app_nil_r.
  - apply os_Create_inv in H as [(? & [=] & _)|(q' & f1 & [= <-] & Hc & ->)].
    unfold Source.Perform in Hp. destruct (curl_Perform env (URI s)) as [data res].
    destruct (file_Write env q data (log (CurlPerform (URI s)) (set_fs f1 w)))
      as [[[]|e] w2] eqn:Hw.
    + pose proof (created_written env (fs w) f1 p q data
                    (log (CurlPerform (URI s)) (set_fs f1 w)) w2 Hc eq_refl Hw)
        as [Hf Hn].
      pose proof (Create_inv _ _ _ _ Hc) as (Hr & Hq & Hne & _).
      assert (w' = w2) as -> by (destruct res; by injection Hp).
      split; [right; eauto 7|]. split; [exists [CurlPerform (URI s)]; by rewrite Hn|].
      intros _. eauto.
    + pose proof (created_written_any env (fs w) f1 p q data
                    (log (CurlPerform (URI s)) (set_fs f1 w)) w2 _ Hc eq_refl Hw)
        as [[d Hf] Hn].
      pose proof (Create_inv _ _ _ _ Hc) as (Hr & Hq & Hne & _).
      injection Hp as <- <-.
      split; [right; eauto 7|]. split; [|done].
      exists [CurlPerform (URI s)]. by rewrite Hn.
Qed.

Lemma io_Copy_inv (env : Env) (f f1 : Os.FS) (p q : path)
    (resp : list byte * option error) (w w' : World) (r : result unit) :
  Os.Create f p = inr (q, f1) → fs w = f1 →
  Source.io_Copy env q resp w = (r, w') →
  (∃ d, fs w' = <[q := Os.File d]> f) ∧ net w' = net w ∧
  (r = Ok tt → fs w' = <[q := Os.File resp.1]> f).
Proof.
  intros Hc Hf H. unfold Source.io_Copy in H.
  apply bind_inv in H as [(e & H & ->)|([] & w1 & H & Hr)].
  - destruct (created_written_any env f f1 p q resp.1 w w' _ Hc Hf H) as [Hd Hn].
    done.
  - destruct (created_written env f f1 p q resp.1 w w1 Hc Hf H) as [Hd Hn].
    assert (w' = w1) as -> by (destruct resp.2; by injection Hr).
    split; [eauto|]. done.
Qed.

Lemma downloadFTP_inv (env : Env) (s : SimpleSource) (p : path)
    (w w' : World) (r : result unit) :
  Source.downloadFTP env s p w = (r, w') →
  wrote p (fs w) (fs w') ∧
  (∃ evs, net w' = net w ++ evs ∧ evs ≠ []) ∧
  (r = Ok tt →
   ∃ q resp, ftp_Retr env (Path (url s)) = Ok resp ∧
        Os.resolve true (fs w) p = inr q ∧ free_or_file (fs w) q ∧ q ≠ [] ∧
        fs w' = <[q := Os.File resp.1]> (fs w)).
Proof.
  unfold Source.downloadFTP. cbv zeta. intros H.
  apply bind_inv in H as [(e & H & ->)|([] & w1 & H & Hb)].
  { unfold Source.Dial in H. destruct (ftp_DialTimeout env _); [|discriminate H].
    injection H as <- <-.
    split; [by left|]. split; [|done]. cbn. eexists. split; [done|]. done. }
  assert (fs w1 = fs w ∧ net w1 = net w ++ [FtpDial (Source.ftp_hostAddr (url s))])
    as [Hf1 Hn1].
  { unfold Source.Dial in H. destruct (ftp_DialTimeout env _); [discriminate H|].
    by injection H as <-. }
  clear H. unfold defer in Hb.
  match type of Hb with (let '(_, _) := ?m w1 in _) = _ =>
    destruct (m w1) as [r2 w2] eqn:Hm end.
  injection Hb as <- <-. cbn [fs net log].
  destruct (Source.ftp_credentials (url s)) as [user pass].
  apply bind_inv in Hm as [(e & H & ->)|([] & w3 & H & Hm)].
  { unfold Source.Login in H. destruct (ftp_Login env _ _); [|discriminate H].
    injection H as <- <-.
    cbn. rewrite Hf1, Hn1. split; [by left|]. split; [|done].
    eexists. rewrite <- !app_assoc. split; [done|]. done. }
  assert (fs w3 = fs w ∧
          net w3 = net w ++ [FtpDial (Source.ftp_hostAddr (url s)); FtpLogin user pass])
    as [Hf3 Hn3].
  { unfold Source.Login in H. destruct (ftp_Login env _ _); [discriminate H|].
    injection H as <-.
    cbn. rewrite Hf1, Hn1, <- app_assoc. done. }
  clear H.
  apply bind_inv in Hm as [(e & H & ->)|(entries & w4 & H & Hm)].
  { unfold Source.List in H. injection H as _ <-. cbn. rewrite Hf3, Hn3.
    split; [by left|]. split; [|done].
    eexists. rewrite <- !app_assoc. split; [done|]. done. }
  assert (fs w4 = fs w ∧ ∃ evs, net w4 = net w ++ evs) as [Hf4 [evs4 Hn4]].
  { unfold Source.List in H. injection H as _ <-. cbn. rewrite Hf3, Hn3, <- app_assoc.
    eauto. }
  clear H. destruct (decide (length entries ≠ 1)).
  { injection Hm as <- <-. rewrite Hf4, Hn4. split; [by left|]. split; [|done].
    eexists. rewrite <- !app_assoc. split; [done|]. by destruct evs4. }
  apply bind_inv in Hm as [(e & H & ->)|(resp & w5 & H & Hm)].
  { unfold Source.Retr in H. injection H as _ <-. cbn. rewrite Hf4, Hn4.
    split; [by left|]. split; [|done].
    eexists. rewrite <- !app_assoc. split; [done|]. by destruct evs4. }
  assert (ftp_Retr env (Path (url s)) = Ok resp ∧ fs w5 = fs w ∧
          ∃ evs, net w5 = net w ++ evs) as (Hresp & Hf5 & [evs5 Hn5]).
  { unfold Source.Retr in H. injection H as -> <-. cbn. rewrite Hf4, Hn4, <- app_assoc.
    eauto. }
  clear H.
  apply bind_inv in Hm as [(e & H & ->)|(q & w6 & H & Hm)].
  { apply os_Create_inv in H as [(? & _ & ->)|(? & ? & [=] & _)].
    rewrite Hf5, Hn5. split; [by left|]. split; [|done].
    eexists. rewrite <- !app_assoc. split; [done|]. by destruct evs5. }
  apply os_Create_inv in H as [(? & [=] & _)|(q' & f1 & [= <-] & Hc & ->)].
  rewrite Hf5 in Hc.
  destruct (io_Copy_inv env (fs w) f1 p q resp (set_fs f1 w5) w2 r2 Hc eq_refl Hm)
    as ([d Hd] & Hn & Hok).
  pose proof (Create_inv _ _ _ _ Hc) as (Hr & Hq & Hne & _).
  split; [right; eauto 7|]. split.
  - eexists. rewrite Hn. cbn. rewrite Hn5, <- !app_assoc. split; [done|].
    by destruct evs5.
  - intros ->. exists q, resp. repeat split; auto.
Qed.

Lemma download_inv (env : Env) (s : SimpleSource) (p : path)
    (w w' : World) (r : result unit) :
  Source.download env s p w = (r, w') →
  wrote p (fs w) (fs w') ∧
  (∃ evs, net w' = net w ++ evs ∧ (r = Ok tt → evs ≠ [])) ∧
  (r = Ok tt →
   ∃ q, Os.resolve true (fs w) p = inr q ∧ free_or_file (fs w) q ∧ q ≠ [] ∧
        fs w' = <[q := Os.File (transferred env s)]> (fs w)).
Proof.
  unfold Source.download, transferred. destruct (decide (Scheme (url s) = "ftp")).
  - intros H. apply downloadFTP_inv in H as (Hw & (evs & Hn & Hne) & Hok).
    split; [done|]. split; [eauto|]. intros Hr.
    destruct (Hok Hr) as (q & resp & -> & ?). eauto.
  - apply downloadCurl_inv.
Qed.

(** * Fetch *)

Section Fetch.

Context (SourceDir SourceStagingDir : string).

Local Abbreviation Fetch := (Source.Fetch SourceDir SourceStagingDir).

Local Abbreviation GetPath := (Source.GetPath SourceDir).

Local Abbreviation IsFetched := (Source.IsFetched SourceDir).

Local Abbreviation staged := (staged SourceStagingDir).

Lemma GetPath_Join (s : SimpleSource) (h : string) :
  GetPath s h = Filepath.Join (Filepath.Join [] [SourceDir; h]) [File s].
Proof. unfold Source.GetPath. apply (Join_app [] [SourceDir; h] [File s]). Qed.

Lemma Fetch_inv (env : Env) (s : SimpleSource) (w w' : World) (r : result unit) :
  Fetch env s w = (r, w') →
  (∃ e, r = Err e ∧ aborted SourceStagingDir s w w') ∨
  (∃ h w4, commits SourceDir SourceStagingDir env s w h w4 ∧ alias SourceDir env s h w4 = (r, w')).
Proof.
  unfold Source.Fetch. cbv zeta.
  fold (ensure_dir env (Filepath.Join [] [SourceStagingDir])).
  fold (staged s). intros H.
  apply bind_inv in H as [(e & H & ->)|([] & w1 & H1 & H)].
  { left. exists e. split; [done|].
    apply ensure_dir_inv in H as (_ & Hd & _).
    exists (fs w'), (fs w'). split; [done|]. split; [by left|apply dirs_added_refl]. }
  pose proof (ensure_dir_inv _ _ _ _ _ H1) as (_ & Hd1 & _).
  apply bind_inv in H as [(e & H & ->)|([] & w2 & H2 & H)].
  { left. exists e. split; [done|]. apply download_inv in H as (Hw & _).
    exists (fs w1), (fs w'). split; [done|]. split; [done|apply dirs_added_refl]. }
  pose proof (download_inv _ _ _ _ _ _ H2) as (Hw2 & _).
  apply bind_inv in H as [(e & H & ->)|(h & w2' & H3 & H)].
  { left. exists e. split; [done|]. apply GetSHA256Sum_inv in H as [-> _].
    exists (fs w1), (fs w2). split; [done|]. split; [done|apply dirs_added_refl]. }
  pose proof (GetSHA256Sum_inv _ _ _ _ _ _ H3) as [-> _].
  rewrite <- GetPath_Join in H.
  apply bind_inv in H as [(e & H & ->)|([] & w3 & H4 & H)].
  { left. exists e. split; [done|]. apply ensure_dir_inv in H as (_ & Hd & _).
    exists (fs w1), (fs w2). done. }
  pose proof (ensure_dir_inv _ _ _ _ _ H4) as (_ & Hd3 & _).
  apply bind_inv in H as [(e & H & ->)|([] & w4 & H5 & H)].
  { left. exists e. split; [done|].
    apply syscall_inv in H as [(? & _ & ->)|(? & ? & _ & _ & [=] & _)].
    exists (fs w1), (fs w2). done. }
  right. exists h, w4. split; [by exists w1, w2, w3|]. done.
Qed.

Lemma Fetch_commits (env : Env) (s : SimpleSource) (w : World)
    (h : string) (w4 : World) :
  commits SourceDir SourceStagingDir env s w h w4 → Fetch env s w = alias SourceDir env s h w4.
Proof.
  intros (w1 & w2 & w3 & H1 & H2 & H3 & H4 & H5).
  unfold Source.Fetch. cbv zeta.
  fold (ensure_dir env (Filepath.Join [] [SourceStagingDir])).
  fold (staged s). unfold bind at 1. rewrite H1.
  unfold bind at 1. rewrite H2. unfold bind at 1. rewrite H3.
  rewrite <- GetPath_Join.
  fold (ensure_dir env (Filepath.Join [] [SourceDir; h])).
  unfold bind at 1. rewrite H4. unfold bind at 1. rewrite H5. done.
Qed.

Lemma commits_without_alias (env : Env) (s : SimpleSource) (w : World)
    (h : string) (w4 : World) :
  commits SourceDir SourceStagingDir env s w h w4 → Fetch env (without_alias s) w = (Ok tt, w4).
Proof.
  intros H. rewrite (Fetch_commits env (without_alias s) w h w4); [done|].
  exact H.
Qed.

Lemma dirs_added_lookup (f f' : Os.FS) (k : path) (x : Os.node) :
  dirs_added f f' → f !! k = Some x → f' !! k = Some x.
Proof. intros H E. destruct (H k) as [E'|[E' _]]; congruence. Qed.

Lemma dirs_added_above (f f' : Os.FS) (p : path) :
  dirs_added f f' → dirs_above f p → dirs_above f' p.
Proof. intros H Hd a b Hp Ha Hb. eapply dirs_added_lookup; eauto. Qed.

Lemma staged_no_dotdot (s : SimpleSource) : no_dotdot (staged s).
Proof. apply Join_root_no_dotdot. Qed.

Lemma GetPath_no_dotdot (s : SimpleSource) (h : string) : no_dotdot (GetPath s h).
Proof. apply Join_root_no_dotdot. Qed.

(** The commit, in a store without symbolic links on the two paths,
    step by step: the staging directory is ensured, the transfer
    leaves its bytes at the staging path, the canonical directory is
    ensured, and the file moves to the canonical path. *)
Lemma commits_trace (env : Env) (s : SimpleSource) (w : World)
    (h : string) (w4 : World) :
  commits SourceDir SourceStagingDir env s w h w4 →
  plain (fs w) (staged s) = true →
  plain (fs w) (GetPath s (strong_hash env s)) = true →
  h = strong_hash env s ∧
  ∃ w1 w2 w3,
    ensure_dir env (Filepath.Join [] [SourceStagingDir]) w = (Ok tt, w1) ∧
    fs w2 = <[staged s := Os.File (transferred env s)]> (fs w1) ∧
    ensure_dir env (Filepath.Join [] [SourceDir; h]) w2 = (Ok tt, w3) ∧
    fs w3 !! staged s = Some (Os.File (transferred env s)) ∧
    staged s ≠ [] ∧
    dirs_above (fs w3) (GetPath s h) ∧
    no_new_links (fs w) (fs w3) ∧
    (∃ evs, evs ≠ [] ∧ net w3 = net w ++ evs) ∧
    net w4 = net w3 ∧
    (staged s = GetPath s h ∧ fs w4 = fs w3 ∨
     staged s ≠ GetPath s h ∧
     Os.entry (fs w3) (GetPath s h) ≠ Some Os.Dir ∧
     fs w4 = <[GetPath s h := Os.File (transferred env s)]>
               (delete (staged s) (fs w3))).
Proof.
  intros (w1 & w2 & w3 & H1 & H2 & H3 & H4 & H5) Hps Hpd.
  pose proof (ensure_dir_inv _ _ _ _ _ H1) as (Hn1 & Hd1 & _).
  apply download_inv in H2 as (_ & (evs & Hn2 & Hevs) & Hok).
  destruct (Hok eq_refl) as (q & Hq & Hfree & Hqne & Hf2). clear Hok.
  specialize (Hevs eq_refl).
  assert (plain (fs w1) (staged s) = true) as Hps1
    by (eapply plain_no_new_links; [by apply dirs_added_no_new_links|done]).
  destruct (resolve_plain_inv _ _ _ _ (staged_no_dotdot s) Hps1 Hq) as [-> Hab1].
  set (data := transferred env s) in *.
  assert (no_new_links (fs w1) (fs w2)) as Hnl2.
  { intros k t. rewrite Hf2. destruct (decide (staged s = k)) as [<-|Hne].
    - by rewrite lookup_insert_eq.
    - by rewrite lookup_insert_ne. }
  assert (dirs_above (fs w2) (staged s)) as Hab2.
  { intros a b Hp Ha Hb. rewrite Hf2, lookup_insert_ne; [by eapply Hab1|].
    intros Heq. rewrite <- Heq in Hp. rewrite <- (app_nil_r (staged s)) in Hp at 1.
    apply app_inv_head in Hp. done. }
  assert (fs w2 !! staged s = Some (Os.File data)) as Hs2
    by (by rewrite Hf2, lookup_insert_eq).
  assert (Os.resolve true (fs w2) (staged s) = inr (staged s)) as Hr2.
  { apply resolve_plain; [apply staged_no_dotdot|done|]. intros t. by rewrite Hs2. }
  apply GetSHA256Sum_inv in H3 as [_ H3].
  destruct (H3 h eq_refl) as (d & Hrd & Hh). clear H3.
  rewrite (ReadFile_intro _ _ _ data Hr2) in Hrd by (by rewrite entry_ne).
  injection Hrd as <-. change (h = strong_hash env s) in Hh. subst h.
  set (h := strong_hash env s) in *.
  pose proof (ensure_dir_inv _ _ _ _ _ H4) as (Hn4 & Hd4 & _).
  assert (no_new_links (fs w) (fs w3)) as Hnl3.
  { intros k t E. apply dirs_added_no_new_links in Hd1, Hd4. auto. }
  apply syscall_ok in H5 as (f4 & _ & H5 & ->). cbn [fs net set_fs].
  cbv beta in H5. unfold with_unit in H5.
  destruct (Os.Rename (fs w3) (staged s) (GetPath s h)) as [e|f4'] eqn:Hren;
    [done|]. injection H5 as <-.
  assert (fs w3 !! staged s = Some (Os.File data)) as Hs3
    by (by eapply dirs_added_lookup).
  assert (Os.resolve false (fs w3) (staged s) = inr (staged s)) as Hr3.
  { apply resolve_plain; [apply staged_no_dotdot| |].
    - by eapply dirs_added_above.
    - intros t. by rewrite Hs3. }
  apply (Rename_file_inv _ _ _ _ _ data Hr3) in Hren; [|by rewrite entry_ne].
  destruct Hren as (qd & Hrd & Hcase).
  assert (plain (fs w3) (GetPath s h) = true) as Hpd3
    by (by apply (plain_no_new_links (fs w) (fs w3))).
  destruct (resolve_plain_inv _ _ _ _ (GetPath_no_dotdot s h) Hpd3 Hrd)
    as [-> Hab3].
  split; [done|]. exists w1, w2, w3.
  split; [done|]. split; [done|]. split; [done|]. split; [done|].
  split; [done|]. split; [done|]. split; [done|].
  split; [exists evs; split; [done|congruence]|].
  split; [done|]. done.
Qed.

(** The commit, in a store without symbolic links on the two paths:
    the file transferred is moved to the canonical path of its
    digest. *)
Lemma commits_plain (env : Env) (s : SimpleSource) (w : World)
    (h : string) (w4 : World) :
  commits SourceDir SourceStagingDir env s w h w4 →
  plain (fs w) (staged s) = true →
  plain (fs w) (GetPath s (strong_hash env s)) = true →
  h = strong_hash env s ∧
  fs w4 !! GetPath s h = Some (Os.File (transferred env s)) ∧
  dirs_above (fs w4) (GetPath s h) ∧
  GetPath s h ≠ [] ∧
  no_new_links (fs w) (fs w4) ∧
  (∃ evs, evs ≠ [] ∧ net w4 = net w ++ evs) ∧
  (∀ k, k ≠ GetPath s h → k ≠ staged s →
     fs w4 !! k = fs w !! k ∨ (fs w !! k = None ∧ fs w4 !! k = Some Os.Dir)) ∧
  (staged s ≠ GetPath s h → fs w4 !! staged s = None).
Proof.
  intros Hc Hps Hpd.
  destruct (commits_trace env s w h w4 Hc Hps Hpd)
    as (-> & w1 & w2 & w3 & H1 & Hf2 & H4 & Hs3 & Hsne & Hab3 & Hnl3 & Hnet & Hn4
        & Hcase).
  set (h := strong_hash env s) in *. set (data := transferred env s) in *.
  apply ensure_dir_inv in H1 as (_ & Hd1 & _).
  apply ensure_dir_inv in H4 as (_ & Hd4 & _).
  assert (∀ k, k ≠ staged s →
            fs w3 !! k = fs w !! k ∨ (fs w !! k = None ∧ fs w3 !! k = Some Os.Dir))
    as Hch3.
  { intros k Hk. pose proof (Hd4 k) as E4.
    rewrite Hf2, lookup_insert_ne in E4 by done.
    destruct (Hd1 k) as [E1|[E1 E1']], E4 as [E4|[E4 E4']].
    - left. congruence.
    - right. split; congruence.
    - right. split; congruence.
    - congruence. }
  rewrite Hn4.
  destruct Hcase as [[Heq ->]|(Hne & Hnd & ->)].
  - rewrite <- Heq. split; [done|]. split; [done|]. split; [by rewrite Heq|].
    split; [done|].
    split; [done|]. split; [done|]. split; [auto|done].
  - split; [done|]. split; [by rewrite lookup_insert_eq|]. split.
    { intros a b Hp Ha Hb. rewrite lookup_insert_ne.
      - rewrite lookup_delete_ne; [by eapply Hab3|].
        intros <-. rewrite (Hab3 _ _ Hp Ha Hb) in Hs3. done.
      - intros Heq. rewrite <- Heq in Hp.
        rewrite <- (app_nil_r (GetPath s h)) in Hp at 1.
        apply app_inv_head in Hp. done. }
    split; [by destruct (GetPath s h)|]. split.
    { intros k t. destruct (decide (GetPath s h = k)) as [<-|Hk].
      - by rewrite lookup_insert_eq.
      - rewrite lookup_insert_ne by done.
        destruct (decide (staged s = k)) as [<-|Hk'].
        + by rewrite lookup_delete_eq.
        + rewrite lookup_delete_ne by done. apply Hnl3. }
    split; [done|]. split.
    + intros k Hk Hk'. rewrite lookup_insert_ne, lookup_delete_ne by done.
      by apply Hch3.
    + intros _. by rewrite lookup_insert_ne, lookup_delete_eq.
Qed.

Lemma alias_inv (env : Env) (s : SimpleSource) (h : string)
    (w4 w' : World) (r : result unit) :
  alias SourceDir env s h w4 = (r, w') →
  net w' = net w4 ∧
  (∀ e, r = Err e → legacy s = true ∧ w' = w4) ∧
  (r = Ok tt →
   legacy s = false ∧ w' = w4 ∨
   legacy s = true ∧
   ∃ d ql, Os.ReadFile (fs w4) (GetPath s h) = inr d ∧
     Os.resolve false (fs w4)
       (Filepath.Join [] [SourceDir; Digest.EncodeToString (Digest.sha1_Sum d)])
       = inr ql ∧
     fs w4 !! ql = None ∧ ql ≠ [] ∧ fs w' = <[ql := Os.Link h]> (fs w4)).
Proof.
  unfold alias. destruct (legacy s).
  - intros H. apply bind_inv in H as [(e & H & ->)|(sha & w5 & H & Hs)].
    + apply GetSHA1Sum_inv in H as [-> _]. done.
    + apply GetSHA1Sum_inv in H as [-> H].
      destruct (H sha eq_refl) as (d & Hd & ->). clear H.
      apply syscall_inv in Hs as [(e & -> & ->)|([] & f & _ & Hs & -> & ->)];
        [done|].
      split; [done|]. split; [done|]. intros _. right. split; [done|].
      cbv beta in Hs. unfold with_unit in Hs.
      destruct (Os.Symlink h (fs w4) _) as [e|f'] eqn:E; [done|].
      injection Hs as <-. apply Symlink_inv in E as (ql & ? & ? & ? & ->).
      exists d, ql. done.
  - intros [= <- <-]. split; [done|]. split; [done|]. intros _. by left.
Qed.

Lemma insert_fresh_above (f : Os.FS) (ql p : path) (nd : Os.node) :
  f !! ql = None → dirs_above f p → dirs_above (<[ql := nd]> f) p.
Proof.
  intros Hq Hd a b Hp Ha Hb. rewrite lookup_insert_ne; [by eapply Hd|].
  intros <-. rewrite (Hd _ _ Hp Ha Hb) in Hq. done.
Qed.

(** What a successful [Fetch] leaves, in a store without symbolic
    links on the staging path and on the canonical path. *)
Lemma Fetch_ok_plain (env : Env) (s : SimpleSource) (w w' : World) :
  Fetch env s w = (Ok tt, w') →
  plain (fs w) (staged s) = true →
  plain (fs w) (GetPath s (strong_hash env s)) = true →
  ∃ w4,
    commits SourceDir SourceStagingDir env s w (strong_hash env s) w4 ∧
    alias SourceDir env s (strong_hash env s) w4 = (Ok tt, w') ∧
    Os.resolve true (fs w') (GetPath s (strong_hash env s))
      = inr (GetPath s (strong_hash env s)) ∧
    fs w' !! GetPath s (strong_hash env s)
      = Some (Os.File (transferred env s)) ∧
    GetPath s (strong_hash env s) ≠ [] ∧
    ∃ evs, evs ≠ [] ∧ net w' = net w ++ evs.
Proof.
  intros H Hps Hpd.
  apply Fetch_inv in H as [(e & [=] & _)|(h & w4 & Hc & Ha)].
  destruct (commits_plain _ _ _ _ _ Hc Hps Hpd)
    as (-> & Hf & Hab & Hne & Hnl & Hnet & _).
  exists w4. split; [done|]. split; [done|].
  pose proof (alias_inv _ _ _ _ _ _ Ha) as (Hn & _ & Hok).
  rewrite Hn.
  destruct (Hok eq_refl) as [[_ ->]|(_ & d & ql & _ & _ & Hq & _ & ->)].
  - split; [|done]. apply resolve_plain; [apply GetPath_no_dotdot|done|].
    intros t. by rewrite Hf.
  - assert (<[ql:=Os.Link (strong_hash env s)]> (fs w4)
              !! GetPath s (strong_hash env s)
            = Some (Os.File (transferred env s))) as Hf'.
    { rewrite lookup_insert_ne; [done|]. intros Heq. by rewrite Heq, Hf in Hq. }
    split; [|done]. apply resolve_plain; [apply GetPath_no_dotdot| |].
    + by apply insert_fresh_above.
    + intros t. by rewrite Hf'.
Qed.

(** ** C2: content addressing *)

(** C2. After every successful [Fetch], in a store that has no
    symbolic link on the staging path or on the canonical path, the
    file at [<root>/<h>/<fileName>] holds the bytes transferred, and
    [h] is the hex-encoded SHA-256 digest of these bytes. *)
Theorem Fetch_content_addressed (env : Env) (s : SimpleSource) (w w' : World) :
  let data := transferred env s in
  let h := Digest.EncodeToString (Digest.sha256_Sum data) in
  Fetch env s w = (Ok tt, w') →
  plain (fs w) (staged s) = true →
  plain (fs w) (GetPath s h) = true →
  Os.ReadFile (fs w') (Filepath.Join [] [SourceDir; h; File s]) = inr data ∧
  fs w' !! Filepath.Join [] [SourceDir; h; File s] = Some (Os.File data).
Proof.
  intros data h H Hps Hpd.
  destruct (Fetch_ok_plain env s w w' H Hps Hpd)
    as (w4 & _ & _ & Hr & Hf & Hne & _).
  subst data h. fold (strong_hash env s). fold (GetPath s (strong_hash env s)).
  split; [|done]. eapply ReadFile_intro; [exact Hr|]. by rewrite entry_ne.
Qed.

(** ** C1: idempotence *)

(** C1 (amended). [Fetch] makes no existence check of its own: every
    [Fetch] that succeeds has gone over the network. The check is
    [IsFetched], which reads the file system only; after a successful
    [Fetch] of bytes whose SHA-256 is the validator, [IsFetched]
    holds. *)
Theorem Fetch_always_transfers (env : Env) (s : SimpleSource) (w w' : World) :
  Fetch env s w = (Ok tt, w') →
  plain (fs w) (staged s) = true →
  plain (fs w) (GetPath s (strong_hash env s)) = true →
  (∃ evs, evs ≠ [] ∧ net w' = net w ++ evs) ∧
  (validator s = strong_hash env s → IsFetched s w' = true).
Proof.
  intros H Hps Hpd.
  destruct (Fetch_ok_plain env s w w' H Hps Hpd)
    as (w4 & _ & _ & Hr & Hf & Hne & Hnet).
  split; [done|]. intros Hv. unfold Source.IsFetched, PathExists, Os.Stat.
  by rewrite Hv, Hr, entry_ne, Hf.
Qed.

(** ** C3: failure *)

Lemma aborted_only_staged (s : SimpleSource) (w w' : World) :
  aborted SourceStagingDir s w w' → only_staged SourceStagingDir s w w'.
Proof.
  intros (f1 & f2 & Hd1 & [->|(q & d & Hr & Hfree & Hne & ->)] & Hd2) k.
  - destruct (dirs_added_trans _ _ _ Hd1 Hd2 k); auto.
  - destruct (decide (k = q)) as [->|Hk].
    + right. right. exists d. split.
      * eapply dirs_added_lookup; [done|]. by rewrite lookup_insert_eq.
      * eapply resolve_mono; [by apply dirs_added_subseteq| |].
        -- by apply resolve_insert.
        -- by rewrite entry_ne, lookup_insert_eq.
    + pose proof (Hd2 k) as E2. rewrite lookup_insert_ne in E2 by done.
      destruct (Hd1 k) as [E1|[E1 E1']], E2 as [E2|[E2 E2']].
      * left. congruence.
      * right. left. split; congruence.
      * right. left. split; congruence.
      * congruence.
Qed.

(** C3 (amended). When [Fetch] returns an error, either it gave up
    before the rename was done, and then nothing is lost and nothing
    is made or changed but directories and the staged file, which is
    left where the transfer put it; or the source is a legacy one and
    the error is the alias step's, and then the artifact is already
    committed: the state is the one the same [Fetch] without the alias
    step ends in with success. *)
Theorem Fetch_failure (env : Env) (s : SimpleSource) (w w' : World) (e : error) :
  Fetch env s w = (Err e, w') →
  only_staged SourceStagingDir s w w' ∨
  (legacy s = true ∧ Fetch env (without_alias s) w = (Ok tt, w')).
Proof.
  intros H. apply Fetch_inv in H as [(e' & _ & Ha)|(h & w4 & Hc & Ha)].
  - left. by apply aborted_only_staged.
  - right. apply alias_inv in Ha as (_ & Herr & _).
    destruct (Herr e eq_refl) as [Hl ->]. split; [done|].
    by apply (commits_without_alias env s w h).
Qed.

(** ** C6: the alias when something is there *)

(** C6 (amended). Once the artifact is committed, the alias step fails
    whenever anything is at the secondary-hash path, whatever it is
    and wherever it leads; [Fetch] returns the error, which is the
    file-exists error of [os.Symlink] unless reading the file or the
    call itself was refused, and leaves the entry as it is. *)
Theorem Fetch_alias_exists (env : Env) (s : SimpleSource) (w w1 : World)
    (n : Os.node) :
  let h := strong_hash env s in
  let tgtLink := Filepath.Join [] [SourceDir; weak_hash env s] in
  legacy s = true →
  Fetch env (without_alias s) w = (Ok tt, w1) →
  plain (fs w) (staged s) = true →
  plain (fs w) (GetPath s h) = true →
  Os.Lstat (fs w1) tgtLink = inr n →
  ∃ e, Fetch env s w = (Err e, w1) ∧
       (os_fault env (CReadFile (GetPath s h)) = None →
        os_fault env (CSymlink h tgtLink) = None →
        e = PathError Os.EEXIST).
Proof.
  intros h tgtLink Hl H Hps Hpd Hn. subst h tgtLink.
  destruct (Fetch_ok_plain env (without_alias s) w w1 H Hps Hpd)
    as (w4 & Hc & Ha & Hr & Hf & Hne & _).
  injection Ha as ->. change (commits SourceDir SourceStagingDir env s w (strong_hash env s) w1) in Hc.
  rewrite (Fetch_commits env s w _ w1 Hc). unfold alias. rewrite Hl.
  change (GetPath (without_alias s) (strong_hash env (without_alias s)))
    with (GetPath s (strong_hash env s)) in Hr, Hf.
  change (transferred env (without_alias s)) with (transferred env s) in Hf.
  assert (Os.ReadFile (fs w1) (GetPath s (strong_hash env s))
          = inr (transferred env s)) as Hrd
    by (eapply ReadFile_intro; [exact Hr|]; by rewrite entry_ne).
  unfold bind, Source.GetSHA1Sum, bind, ioutil_ReadFile, syscall.
  destruct (os_fault env (CReadFile (GetPath s (strong_hash env s)))) as [e1|].
  { eexists. split; [done|]. done. }
  rewrite Hrd. unfold ret. fold (weak_hash env s).
  rewrite set_fs_id. unfold os_Symlink, syscall.
  destruct (os_fault env (CSymlink _ _)) as [e2|].
  { eexists. split; [done|]. done. }
  rewrite (Symlink_exists _ (fs w1) _ n Hn). cbn. eauto.
Qed.

End Fetch.

(** * The descriptor and the transfers *)

(** ** C7: construction *)

(** C7 (amended). [NewSimple] fails exactly when the URI does not parse,
    with the parser's error. Otherwise the file name is [filepath.Base]
    of the path: it is never empty, and it is the final segment of the
    path whenever that segment is not empty. *)
Theorem NewSimple_fileName (url_Parse : string → result URL)
    (uri validator : string) (legacy : bool) :
  (∀ e, Source.NewSimple url_Parse uri validator legacy = Err e ↔
        url_Parse uri = Err e) ∧
  (∀ u, url_Parse uri = Ok u →
        ∃ s, Source.NewSimple url_Parse uri validator legacy = Ok s ∧
             URI s = uri ∧ url s = u ∧
             File s = Filepath.Base (Path u) ∧
             File s ≠ "" ∧
             (final_segment (Path u) ≠ "" → File s = final_segment (Path u))).
Proof.
  unfold Source.NewSimple. split.
  - intros e. destruct (url_Parse uri) as [u|e']; [done|].
    split; intros [= <-]; done.
  - intros u ->. eexists. split; [done|]. cbn [URI url File].
    split; [done|]. split; [done|]. split; [done|].
    split; [apply Base_nonempty|apply Base_final_segment].
Qed.

(** ** C8: dispatch *)

(** C8. [download] always selects a backend: the FTP one when the
    scheme is ["ftp"], and the curl one for every other scheme, the
    empty one included. *)
Theorem download_dispatch (env : Env) (s : SimpleSource) (destination : path) :
  (Scheme (url s) = "ftp" ∧
   Source.download env s destination = Source.downloadFTP env s destination) ∨
  (Scheme (url s) ≠ "ftp" ∧
   Source.download env s destination = Source.downloadCurl env s destination).
Proof.
  unfold Source.download. destruct (decide (Scheme (url s) = "ftp")); auto.
Qed.

(** ** C4: the FTP listing *)

(** C4. When the listing of the path does not hold exactly one entry,
    [downloadFTP] returns the error ["FTP expected 1 file, found n
    files"]; it has dialled, logged in, listed and quit, has not asked
    for the file, and the file system is as it was. *)
Theorem downloadFTP_ambiguous (env : Env) (s : SimpleSource)
    (destination : path) (w : World) (entries : list Entry) :
  let addr := Source.ftp_hostAddr (url s) in
  let cred := Source.ftp_credentials (url s) in
  ftp_DialTimeout env addr = None →
  ftp_Login env cred.1 cred.2 = None →
  ftp_List env (Path (url s)) = Ok entries →
  length entries ≠ 1 →
  Source.downloadFTP env s destination w =
    (Err (Errorf_expected_1_file (length entries)),
     {| fs := fs w;
        net := net w ++ [FtpDial addr; FtpLogin cred.1 cred.2;
                         FtpList (Path (url s)); FtpQuit] |}).
Proof.
  intros addr cred Hd Hl Hls Hn. subst addr cred.
  unfold Source.downloadFTP. cbv zeta.
  unfold bind at 1. unfold Source.Dial. rewrite Hd.
  unfold defer. destruct (Source.ftp_credentials (url s)) as [user pass].
  cbn [fst snd] in *.
  unfold bind at 1. unfold Source.Login. rewrite Hl.
  unfold bind at 1. unfold Source.List. rewrite Hls.
  destruct (decide (length entries ≠ 1)); [|done].
  unfold raise, log. cbn [fs net]. by rewrite <- !app_assoc.
Qed.

(** ** C9: the FTP connection *)

Lemma ftp_hostAddr_default (u : URL) :
  Contains (Host u) ":" = false → Source.ftp_hostAddr u = Host u +:+ ":21".
Proof. unfold Source.ftp_hostAddr. by intros ->. Qed.

Lemma ftp_hostAddr_given (u : URL) :
  Contains (Host u) ":" = true → Source.ftp_hostAddr u = Host u.
Proof. unfold Source.ftp_hostAddr. by intros ->. Qed.

Lemma ftp_credentials_anonymous (u : URL) :
  User u = None → Source.ftp_credentials u = ("anonymous", "anonymous").
Proof. unfold Source.ftp_credentials. by intros ->. Qed.

Lemma ftp_credentials_user (u : URL) (ui : Userinfo) :
  User u = Some ui →
  Source.ftp_credentials u =
  (username ui, if passwordSet ui then password ui else "").
Proof.
  unfold Source.ftp_credentials, Password, Username. intros ->.
  by destruct (passwordSet ui).
Qed.

(** The first thing [downloadFTP] does is dial [ftp_hostAddr]. *)
Lemma downloadFTP_dials (env : Env) (s : SimpleSource) (destination : path)
    (w w' : World) (r : result unit) :
  Source.downloadFTP env s destination w = (r, w') →
  ∃ evs, net w' = net w ++ FtpDial (Source.ftp_hostAddr (url s)) :: evs.
Proof.
  unfold Source.downloadFTP. cbv zeta. intros H.
  apply bind_inv in H as [(e & H & ->)|([] & w1 & H & Hb)].
  - unfold Source.Dial in H. destruct (ftp_DialTimeout env _); [|discriminate H].
    injection H as <- <-. by exists [].
  - assert (net w1 = net w ++ [FtpDial (Source.ftp_hostAddr (url s))]) as Hn1.
    { unfold Source.Dial in H. destruct (ftp_DialTimeout env _); [discriminate H|].
      by injection H as <-. }
    unfold defer in Hb.
    match type of Hb with (let '(_, _) := ?m w1 in _) = _ =>
      destruct (m w1) as [r2 w2] eqn:Hm end.
    injection Hb as <- <-. cbn [net log].
    assert (∃ evs, net w2 = net w1 ++ evs) as [evs Hn2].
    { destruct (Source.ftp_credentials (url s)) as [user pass].
      apply bind_inv in Hm as [(e & H' & ->)|([] & w3 & H' & Hm)].
      { unfold Source.Login in H'. destruct (ftp_Login env _ _); [|discriminate H'].
        injection H' as <- <-. by eexists. }
      assert (net w3 = net w1 ++ [FtpLogin user pass]) as Hn3.
      { unfold Source.Login in H'. destruct (ftp_Login env _ _); [discriminate H'|].
        by injection H' as <-. }
      apply bind_inv in Hm as [(e & H'' & ->)|(entries & w4 & H'' & Hm)].
      { unfold Source.List in H''. injection H'' as _ <-. cbn. rewrite Hn3.
        rewrite <- app_assoc. by eexists. }
      assert (net w4 = net w1 ++ [FtpLogin user pass; FtpList (Path (url s))])
        as Hn4.
      { unfold Source.List in H''. injection H'' as _ <-. cbn. rewrite Hn3.
        by rewrite <- app_assoc. }
      destruct (decide (length entries ≠ 1)).
      { injection Hm as <- <-. by eexists. }
      apply bind_inv in Hm as [(e & H3 & ->)|(resp & w5 & H3 & Hm)].
      { unfold Source.Retr in H3. injection H3 as _ <-. cbn. rewrite Hn4.
        rewrite <- app_assoc. by eexists. }
      assert (net w5 = net w4 ++ [FtpRetr (Path (url s))]) as Hn5.
      { unfold Source.Retr in H3. by injection H3 as _ <-. }
      apply bind_inv in Hm as [(e & H4 & ->)|(q & w6 & H4 & Hm)].
      { apply os_Create_inv in H4 as [(? & _ & ->)|(? & ? & [=] & _)].
        rewrite Hn5, Hn4, <- app_assoc. by eexists. }
      apply os_Create_inv in H4 as [(? & [=] & _)|(q' & f1 & [= <-] & Hc & ->)].
      destruct (io_Copy_inv env (fs w5) f1 destination q resp (set_fs f1 w5) w2 r2
                  Hc eq_refl Hm) as (_ & Hn & _).
      rewrite Hn. cbn. rewrite Hn5, Hn4, <- app_assoc. by eexists. }
    rewrite Hn2, Hn1, <- !app_assoc. by eexists.
Qed.

(** C9, where the claim holds: for a host without a colon the address
    dialled has port 21; without user information the login is
    anonymous; with a user name and no password the password is empty. *)
Lemma ftp_connection_parameters (u : URL) :
  (Contains (Host u) ":" = false → Source.ftp_hostAddr u = Host u +:+ ":21") ∧
  (User u = None → Source.ftp_credentials u = ("anonymous", "anonymous")) ∧
  (∀ ui, User u = Some ui → passwordSet ui = false →
         Source.ftp_credentials u = (username ui, "")).
Proof.
  split; [apply ftp_hostAddr_default|]. split; [apply ftp_credentials_anonymous|].
  intros ui Hu Hp. rewrite (ftp_credentials_user u ui Hu). by rewrite Hp.
Qed.

(** * The legacy alias *)

Lemma split_nosep (s : string) : nosep s = true → Filepath.split s = [s].
Proof.
  induction s as [|c s IH]; [done|]. cbn [nosep Filepath.split].
  intros H. apply andb_prop in H as [Hc Hs].
  apply negb_true_iff in Hc. by rewrite Hc, (IH Hs).
Qed.

Lemma plain_chars_nosep (s : string) : plain_chars s = true → nosep s = true.
Proof.
  induction s as [|c s IH]; [done|]. cbn [plain_chars nosep]. intros H.
  apply andb_prop in H as [H Hs]. apply andb_prop in H as [-> _]. by apply IH.
Qed.

Lemma nosep_of_list (l : list ascii) :
  Forall (λ c, Filepath.IsPathSeparator c = false) l →
  nosep (String.string_of_list_ascii l) = true.
Proof.
  induction 1 as [|c l Hc _ IH]; [done|]. cbn. by rewrite Hc, IH.
Qed.

Lemma upto_separator_nosep (r : list ascii) :
  Forall (λ c, Filepath.IsPathSeparator c = false) (Filepath.upto_separator r).
Proof.
  induction r as [|c r IH]; [constructor|]. cbn [Filepath.upto_separator].
  destruct (Filepath.IsPathSeparator c) eqn:E; by constructor.
Qed.

Lemma Base_shape (p : string) :
  Filepath.Base p = "/" ∨
  (nosep (Filepath.Base p) = true ∧ Filepath.Base p ≠ "").
Proof.
  unfold Filepath.Base. destruct (decide (p = "")); [by right|]. cbv zeta.
  destruct (decide _) as [|Hne]; [by left|]. right. split; [|done].
  apply nosep_of_list, Forall_rev, upto_separator_nosep.
Qed.

Lemma Join_nosep (X : path) (f : string) :
  nosep f = true → Filepath.Join X [f] = Filepath.clean_step X f.
Proof.
  intros H. unfold Filepath.Join. cbn [flat_map]. rewrite app_nil_r.
  by rewrite (split_nosep _ H).
Qed.

Lemma Base_join_shape (p : string) : join_shape (Filepath.Base p).
Proof.
  destruct (Base_shape p) as [->|[Hn Hne]]; [by apply join_same|].
  destruct (decide (Filepath.Base p = ".")) as [E|Hd].
  { apply join_same. intros X. rewrite Join_nosep by done. by rewrite E. }
  destruct (decide (Filepath.Base p = "..")) as [E|Hdd].
  { apply join_parent. intros X. rewrite Join_nosep by done. by rewrite E. }
  apply join_under; [|done]. intros X. rewrite Join_nosep by done.
  by apply clean_step_name.
Qed.

Lemma hex_not_abs (sum : list byte) :
  Os.is_abs (Digest.EncodeToString sum) = false.
Proof.
  destruct sum as [|b sum]; [done|]. cbn [Digest.EncodeToString Os.is_abs].
  by destruct (hexdigit_plain (Byte.to_N b / 16)) as [-> _].
Qed.

Lemma hex_link_elems (sum : list byte) :
  sum ≠ [] →
  Os.link_elems (Digest.EncodeToString sum) = [Digest.EncodeToString sum].
Proof.
  intros Hne. unfold Os.link_elems.
  rewrite (split_plain _ (EncodeToString_plain sum)).
  pose proof (EncodeToString_nonempty sum Hne).
  destruct (plain_not_dots _ (EncodeToString_plain sum)) as [Hd _].
  by rewrite filter_cons_True.
Qed.

Lemma hex_not_dotdot (sum : list byte) : Digest.EncodeToString sum ≠ "..".
Proof. by destruct (plain_not_dots _ (EncodeToString_plain sum)). Qed.

Lemma strong_weak_differ (data : list byte) :
  Digest.EncodeToString (Digest.sha256_Sum data) ≠
  Digest.EncodeToString (Digest.sha1_Sum data).
Proof.
  intros E. apply (f_equal String.length) in E.
  rewrite !EncodeToString_length, sha256_Sum_length, sha1_Sum_length in E. done.
Qed.

Lemma walk_S (n : nat) (f : Os.FS) (follow : bool) :
  Os.walk (S n) f follow = Os.walk_names f follow (Os.walk n f follow).
Proof. done. Qed.

(** Resolution through a symbolic link to a sibling: [root/c/tail]
    leads to [root/t/tail] when [root/c] is a link to [t]. *)
Lemma resolve_through_alias (f : Os.FS) (root : path) (c t : string)
    (tail : list string) :
  no_dotdot root → no_dotdot (t :: tail) → c ≠ ".." →
  (∀ a b, root = a ++ b → a ≠ [] → f !! a = Some Os.Dir) →
  f !! (root ++ [c]) = Some (Os.Link t) →
  Os.is_abs t = false → Os.link_elems t = [t] →
  (∀ a b, t :: tail = a ++ b → a ≠ [] → b ≠ [] → f !! (root ++ a) = Some Os.Dir) →
  (∀ t', f !! (root ++ t :: tail) ≠ Some (Os.Link t')) →
  Os.resolve true f (root ++ c :: tail) = inr (root ++ t :: tail).
Proof.
  intros Hroot Htail Hc Hdirs Hlink Habs Helems Hd Hfin.
  unfold Os.resolve. change Os.MAXSYMLINKS with (S 39). rewrite walk_S.
  rewrite walk_names_dirs by done. cbn [app Os.walk_names].
  destruct (decide (c = "..")); [done|]. cbv zeta. rewrite Hlink.
  rewrite andb_false_r, Habs, Helems. cbn [app].
  rewrite walk_unfold. apply walk_names_plain; [done|done|].
  intros _ _. apply Hfin.
Qed.

Lemma resolve_through_hex_alias (f : Os.FS) (root : path)
    (sum sum' : list byte) (tail : list string) :
  let c := Digest.EncodeToString sum in
  let t := Digest.EncodeToString sum' in
  sum' ≠ [] → no_dotdot root → no_dotdot tail →
  (∀ a b, root = a ++ b → a ≠ [] → f !! a = Some Os.Dir) →
  f !! (root ++ [c]) = Some (Os.Link t) →
  (∀ a b, t :: tail = a ++ b → a ≠ [] → b ≠ [] → f !! (root ++ a) = Some Os.Dir) →
  (∀ t', f !! (root ++ t :: tail) ≠ Some (Os.Link t')) →
  Os.resolve true f (root ++ c :: tail) = inr (root ++ t :: tail).
Proof.
  intros c t Hs Hroot Htail Hdirs Hlink Hd Hfin.
  apply resolve_through_alias; try done.
  - constructor; [apply hex_not_dotdot|done].
  - apply hex_not_dotdot.
  - apply hex_not_abs.
  - by apply hex_link_elems.
Qed.

Section Alias.

Context (SourceDir SourceStagingDir : string).

Local Abbreviation Fetch := (Source.Fetch SourceDir SourceStagingDir).

Local Abbreviation GetPath := (Source.GetPath SourceDir).

Local Abbreviation staged := (staged SourceStagingDir).

Lemma GetPath_hex (s : SimpleSource) (sum : list byte) :
  sum ≠ [] →
  GetPath s (Digest.EncodeToString sum) =
  Filepath.Join (Filepath.Join [] [SourceDir] ++ [Digest.EncodeToString sum])
    [File s].
Proof.
  intros H. unfold Source.GetPath.
  rewrite (Join_cons [] SourceDir), (Join_cons _ (Digest.EncodeToString sum)).
  by rewrite Join_hex.
Qed.

Lemma Join_root_hex (sum : list byte) :
  sum ≠ [] →
  Filepath.Join [] [SourceDir; Digest.EncodeToString sum] =
  Filepath.Join [] [SourceDir] ++ [Digest.EncodeToString sum].
Proof. intros H. by rewrite (Join_cons [] SourceDir), Join_hex. Qed.

(** ** C5: the legacy alias *)

(** C5. After a successful [Fetch] of a legacy source made by
    [NewSimple], in a store that has no symbolic link on the staging
    path or on the canonical path: a symbolic link to [<strongHash>] is
    at [<root>/<weakHash>], where the weak hash is the hex-encoded
    SHA-1 digest of the bytes committed; the link resolves to the
    canonical directory [<root>/<strongHash>]; and the path through the
    weak hash leads to the file of the canonical path. *)
Theorem Fetch_legacy_alias (env : Env) (s : SimpleSource) (w w' : World) :
  let data := transferred env s in
  let h := Digest.EncodeToString (Digest.sha256_Sum data) in
  let sha := Digest.EncodeToString (Digest.sha1_Sum data) in
  legacy s = true →
  File s = Filepath.Base (Path (url s)) →
  Fetch env s w = (Ok tt, w') →
  plain (fs w) (staged s) = true →
  plain (fs w) (GetPath s h) = true →
  Os.Lstat (fs w') (Filepath.Join [] [SourceDir; sha]) = inr (Os.Link h) ∧
  Os.resolve true (fs w') (Filepath.Join [] [SourceDir; sha])
    = inr (Filepath.Join [] [SourceDir; h]) ∧
  Os.resolve true (fs w') (GetPath s sha) = inr (GetPath s h) ∧
  Os.ReadFile (fs w') (GetPath s sha) = inr data ∧
  Os.ReadFile (fs w') (GetPath s h) = inr data.
Proof.
  intros data h sha Hl HF H Hps Hpd.
  apply Fetch_inv in H as [(e & [=] & _)|(h' & w4 & Hc & Ha)].
  destruct (commits_plain _ _ _ _ _ _ _ Hc Hps Hpd)
    as (-> & Hf & Hab & Hne & Hnl & _).
  fold data in Hf. change (strong_hash env s) with h in *.
  apply alias_inv in Ha as (_ & _ & Hok).
  destruct (Hok eq_refl) as [[Hl' _]|(_ & d & ql & Hrd & Hrl & Hq & Hqne & Hf')];
    [congruence|]. clear Hok.
  assert (Os.ReadFile (fs w4) (GetPath s h) = inr data) as Hrd'.
  { eapply ReadFile_intro; [|by rewrite entry_ne].
    apply resolve_plain; [apply GetPath_no_dotdot|done|]. intros t. by rewrite Hf. }
  rewrite Hrd' in Hrd. injection Hrd as <-. fold sha in Hrl.
  set (root := Filepath.Join [] [SourceDir]).
  assert (Hsum256 := sha256_Sum_nonempty data).
  assert (Hsum1 := sha1_Sum_nonempty data).
  assert (Filepath.Join [] [SourceDir; h] = root ++ [h]) as HT
    by (by apply Join_root_hex).
  assert (Filepath.Join [] [SourceDir; sha] = root ++ [sha]) as HL
    by (by apply Join_root_hex).
  assert (GetPath s h = Filepath.Join (root ++ [h]) [File s]) as Hdest
    by (by apply GetPath_hex).
  assert (GetPath s sha = Filepath.Join (root ++ [sha]) [File s]) as Hweak
    by (by apply GetPath_hex).
  assert (no_dotdot root) as Hroot by apply Join_root_no_dotdot.
  assert (h ≠ sha) as Hhs by apply strong_weak_differ.
  (* the content root holds no link *)
  assert (plain (fs w4) root = true) as Hproot.
  { apply (plain_no_new_links (fs w)); [done|].
    rewrite Hdest in Hpd. rewrite HF in Hpd.
    destruct (Base_join_shape (Path (url s))) as [E|E|E _]; rewrite E in Hpd.
    - by apply plain_prefix in Hpd.
    - by rewrite removelast_last in Hpd.
    - rewrite <- app_assoc in Hpd. by apply plain_prefix in Hpd. }
  rewrite HL in Hrl |- *. rewrite HT.
  assert (no_dotdot (root ++ [sha])) as Hdl.
  { apply Forall_app. split; [done|]. constructor; [|done]. apply hex_not_dotdot. }
  destruct (resolve_nofollow_inv _ _ _ _ Hdl Hproot Hrl) as [-> Habl].
  assert (∀ a b, root = a ++ b → a ≠ [] → fs w4 !! a = Some Os.Dir) as Hdirs.
  { intros a b -> Ha. apply (Habl a (b ++ [sha])); [by rewrite app_assoc|done|].
    by destruct b. }
  assert (∀ a b, root = a ++ b → a ≠ [] → fs w' !! a = Some Os.Dir) as Hdirs'.
  { intros a b Hroot' Ha. rewrite Hf', lookup_insert_ne; [by eapply Hdirs|].
    intros <-. by rewrite (Hdirs _ _ Hroot' Ha) in Hq. }
  assert (fs w' !! (root ++ [sha]) = Some (Os.Link h)) as Hlk
    by (by rewrite Hf', lookup_insert_eq).
  assert (∀ k, k ≠ root ++ [sha] → fs w' !! k = fs w4 !! k) as Hother
    by (intros k Hk; by rewrite Hf', lookup_insert_ne).
  assert (Os.Lstat (fs w') (root ++ [sha]) = inr (Os.Link h)) as HLstat.
  { unfold Os.Lstat. rewrite resolve_nofollow; [by rewrite entry_snoc, Hlk|done|].
    rewrite Hf'. by apply insert_fresh_above. }
  assert (fs w' !! GetPath s h = Some (Os.File data)) as Hfd.
  { rewrite Hother; [done|]. intros E. by rewrite E, Hq in Hf. }
  (* the three shapes of the file name *)
  rewrite Hweak. rewrite Hdest in Hf, Hab, Hne, Hfd |- *. rewrite HF in *.
  destruct (Base_join_shape (Path (url s))) as [E|E|E Hdd];
    rewrite ?(E (root ++ [h])) in Hf, Hab, Hne, Hfd |- *;
    rewrite ?(E (root ++ [sha])).
  - (* the name is dropped: the file is at [root/h] itself *)
    assert (Os.resolve true (fs w') (root ++ [sha]) = inr (root ++ [h])) as Hres.
    { apply (resolve_through_hex_alias _ root _ _ []);
        [done|done|by constructor|done|done| |].
      - intros [|? [|??]] b Hab' Ha Hb; try done. by destruct b.
      - intros t Ht. change (fs w' !! (root ++ [h]) = Some (Os.Link t)) in Ht.
        by rewrite Hfd in Ht. }
    split; [done|]. split; [done|]. split; [done|].
    split; eapply ReadFile_intro; try (by rewrite entry_snoc, Hfd); [done|].
    apply resolve_plain.
    + apply Forall_app. split; [done|]. constructor; [apply hex_not_dotdot|done].
    + rewrite Hf'. by apply insert_fresh_above.
    + intros t. by rewrite Hfd.
  - (* the name is [..]: the file would be the content root *)
    exfalso. rewrite removelast_last in Hf, Hne.
    rewrite (Hdirs root []) in Hf; [done|by rewrite app_nil_r|done].
  - (* the file is [root/h/name] *)
    assert (fs w' !! (root ++ [h]) = Some Os.Dir) as HhDir.
    { rewrite Hother.
      - apply (Hab (root ++ [h]) [Filepath.Base (Path (url s))]);
          [done|by destruct root|done].
      - intros E'. apply app_inj_tail in E' as [_ E']. exact (Hhs E'). }
    assert (Os.resolve true (fs w') (root ++ [sha]) = inr (root ++ [h])) as Hres.
    { apply (resolve_through_hex_alias _ root _ _ []);
        [done|done|by constructor|done|done| |].
      - intros [|? [|??]] b Hab' Ha Hb; try done. by destruct b.
      - intros t Ht. change (fs w' !! (root ++ [h]) = Some (Os.Link t)) in Ht.
        by rewrite HhDir in Ht. }
    assert (Os.resolve true (fs w') ((root ++ [sha]) ++ [Filepath.Base (Path (url s))])
            = inr ((root ++ [h]) ++ [Filepath.Base (Path (url s))])) as Hres'.
    { rewrite <- !app_assoc.
      apply (resolve_through_hex_alias _ root _ _ [Filepath.Base (Path (url s))]);
        [done|done|by constructor|done|done| |].
      - intros [|x [|y l]] b Hab' Ha Hb; try done.
        + injection Hab' as <- <-. exact HhDir.
        + injection Hab' as _ Hab'. by destruct l, b.
      - intros t Ht. rewrite <- app_assoc in Hfd.
        change (fs w' !! (root ++ [h] ++ [Filepath.Base (Path (url s))])
                = Some (Os.Link t)) in Ht.
        by rewrite Hfd in Ht. }
    split; [done|]. split; [done|]. split; [done|].
    split; eapply ReadFile_intro; try (by rewrite entry_snoc, Hfd); [done|].
    apply resolve_plain.
    + apply Forall_app. split; [|by constructor].
      apply Forall_app. split; [done|]. constructor; [apply hex_not_dotdot|done].
    + rewrite Hf'. by apply insert_fresh_above.
    + intros t. by rewrite Hfd.
Qed.

End Alias.

(** * The validator *)

Lemma no_links_spec (f : Os.FS) :
  no_links f = true ↔ ∀ k t, f !! k ≠ Some (Os.Link t).
Proof.
  unfold no_links. rewrite bool_decide_eq_true. unfold map_Forall. split.
  - intros H k t E. by specialize (H k _ E).
  - intros H k [d| |t] E; try done. by specialize (H k t).
Qed.

Lemma no_links_plain (f : Os.FS) (p : path) :
  no_links f = true → plain f p = true.
Proof.
  rewrite no_links_spec, plain_spec. intros H a b t _ _. apply H.
Qed.

Lemma no_links_keep (f f' : Os.FS) :
  no_new_links f f' → no_links f = true → no_links f' = true.
Proof.
  rewrite !no_links_spec. intros Hn H k t E. apply (H k t). by apply Hn.
Qed.

Lemma wf_parent (f : Os.FS) (q : path) (c : string) (n : Os.node) :
  wf f = true → f !! (q ++ [c]) = Some n → Os.entry f q = Some Os.Dir.
Proof.
  unfold wf. rewrite bool_decide_eq_true. intros H E.
  specialize (H _ _ E). cbv beta in H. rewrite removelast_last in H.
  by destruct (Os.entry f q) as [[| |]|].
Qed.

Lemma wf_dirs_above (f : Os.FS) (p : path) (n : Os.node) :
  wf f = true → f !! p = Some n → dirs_above f p.
Proof.
  intros Hwf. revert n. induction p as [|c q IH] using rev_ind; intros n E.
  - intros a b Hab Ha. by destruct a.
  - pose proof (wf_parent f q c n Hwf E) as Hq.
    intros a b Hab Ha Hb.
    destruct (exists_last Hb) as (b' & x & ->).
    rewrite app_assoc in Hab. apply app_inj_tail in Hab as [-> _].
    destruct b' as [|y b'].
    + rewrite app_nil_r in Hq. by rewrite entry_ne in Hq.
    + assert (a ++ y :: b' ≠ []) as Hne by (by destruct a).
      rewrite entry_ne in Hq by done. by apply (IH _ Hq a (y :: b')).
Qed.

Lemma prefix_removelast (k p : path) :
  k `prefix_of` removelast p → k `prefix_of` p.
Proof.
  destruct (decide (p = [])) as [->|Hne]; [done|].
  intros [r Hr]. rewrite (app_removelast_last "" Hne), Hr, <- app_assoc.
  by eexists.
Qed.

Lemma plain_removelast (f : Os.FS) (p : path) :
  plain f p = true → plain f (removelast p) = true.
Proof.
  destruct (decide (p = [])) as [->|Hne]; [done|].
  rewrite (app_removelast_last "" Hne) at 1. apply plain_prefix.
Qed.

(** The directories that [MkdirAll] makes are on the path. *)
Lemma mkdir_all_where (n : nat) (f f' : Os.FS) (p : path) :
  Os.mkdir_all n f p = inr f' → no_dotdot p → plain f p = true →
  ∀ k, f !! k = None → is_Some (f' !! k) → k `prefix_of` p.
Proof.
  revert f f' p. induction n as [|n IH]; intros f f' p H Hdd Hpl k Hk Hk'.
  - cbn [Os.mkdir_all] in H.
    destruct (Os.Stat f p) as [e|[d| |t]]; try done.
    + destruct (Os.Mkdir f p) as [e'|f2] eqn:E.
      * destruct (Os.Lstat f p) as [?|[| |]]; try done.
        injection H as <-. rewrite Hk in Hk'. by destruct Hk'.
      * injection H as <-. apply Mkdir_inv in E as (q & Hq & _ & _ & ->).
        apply resolve_plain_inv in Hq as [-> _]; [|done..].
        destruct (decide (p = k)) as [->|Hne]; [done|].
        rewrite lookup_insert_ne, Hk in Hk' by done. by destruct Hk'.
    + injection H as <-. rewrite Hk in Hk'. by destruct Hk'.
  - cbn [Os.mkdir_all] in H.
    destruct (Os.Stat f p) as [e|[d| |t]]; try done.
    + assert (∀ f1, dirs_added f f1 →
                (∀ k, f !! k = None → is_Some (f1 !! k) → k `prefix_of` p) →
        match Os.Mkdir f1 p with
        | inl e => match Os.Lstat f1 p with
                   | inr Os.Dir => inr f1
                   | _ => inl e
                   end
        | inr f2 => inr f2
        end = inr f' → k `prefix_of` p) as Hrest.
      { intros f1 Hd1 H1 H2. destruct (Os.Mkdir f1 p) as [e'|f2] eqn:E.
        - destruct (Os.Lstat f1 p) as [?|[| |]]; try done. injection H2 as <-.
          by apply H1.
        - injection H2 as <-. apply Mkdir_inv in E as (q & Hq & _ & _ & ->).
          apply resolve_plain_inv in Hq as [-> _]; [|done|].
          + destruct (decide (p = k)) as [->|Hne]; [done|].
            rewrite lookup_insert_ne in Hk' by done. by apply H1.
          + eapply plain_no_new_links; [|done]. by apply dirs_added_no_new_links. }
      destruct (decide (2 ≤ length p)%nat).
      * destruct (Os.mkdir_all n f (removelast p)) as [e'|f1] eqn:E1; [done|].
        apply (Hrest f1); [by apply mkdir_all_dirs_added in E1| |done].
        intros k0 Hk0 Hk0'. apply prefix_removelast.
        apply (IH _ _ _ E1); [by apply no_dotdot_removelast| |done..].
        by apply plain_removelast.
      * apply (Hrest f); [apply dirs_added_refl| |done].
        intros k0 Hk0 Hk0'. rewrite Hk0 in Hk0'. by destruct Hk0'.
    + injection H as <-. rewrite Hk in Hk'. by destruct Hk'.
Qed.

Lemma ensure_dir_where (env : Env) (p : path) (w w' : World) (r : result unit) :
  ensure_dir env p w = (r, w') → no_dotdot p → plain (fs w) p = true →
  ∀ k, fs w !! k = None → is_Some (fs w' !! k) → k `prefix_of` p.
Proof.
  unfold ensure_dir. destruct (negb (PathExists p w)).
  - intros H Hdd Hpl k Hk Hk'.
    apply syscall_inv in H as [(e & -> & ->)|(a & f & _ & H & -> & ->)].
    + rewrite Hk in Hk'. by destruct Hk'.
    + cbn [fs set_fs] in Hk'. unfold with_unit in H.
      destruct (Os.MkdirAll (fs w) p) as [e|f'] eqn:E; [done|].
      injection H as _ <-. by apply (mkdir_all_where _ _ _ _ E).
  - intros [= <- <-] _ _ k Hk Hk'. rewrite Hk in Hk'. by destruct Hk'.
Qed.

Section Validator.

Context (SourceDir SourceStagingDir : string).

Local Abbreviation Fetch := (Source.Fetch SourceDir SourceStagingDir).

Local Abbreviation GetPath := (Source.GetPath SourceDir).

Local Abbreviation IsFetched := (Source.IsFetched SourceDir).

Local Abbreviation GetBindConfiguration :=
  (Source.GetBindConfiguration SourceDir).

Local Abbreviation staged := (staged SourceStagingDir).

(** ** C10: the validator is not compared *)

(** C10 (amended). [Fetch] never reads the validator: with any other
    validator it returns the same result and leaves the same state,
    and the artifact is committed under the hash computed. For a
    source that is not a legacy one, in a store that is a tree without
    symbolic links, when the validator's path is neither the canonical
    path of the hash computed nor a directory that [Fetch] makes (one
    on the way to the staging directory or to the canonical
    directory): if [IsFetched] was false before a successful [Fetch],
    it is false after it, and the bind source is not there. *)
Theorem Fetch_ignores_validator (env : Env) (s : SimpleSource) (w w' : World)
    (rootfs : string) :
  let h := strong_hash env s in
  let P := GetPath s (validator s) in
  legacy s = false →
  Fetch env s w = (Ok tt, w') →
  no_links (fs w) = true →
  wf (fs w) = true →
  IsFetched s w = false →
  P ≠ GetPath s h →
  ¬ P `prefix_of` Filepath.Join [] [SourceDir; h] →
  ¬ P `prefix_of` Filepath.Join [] [SourceStagingDir] →
  (∀ v, Fetch env (with_validator v s) w = (Ok tt, w')) ∧
  Os.ReadFile (fs w') (GetPath s h) = inr (transferred env s) ∧
  IsFetched s w' = false ∧
  PathExists (BindSource (GetBindConfiguration s rootfs)) w' = false.
Proof.
  intros h P Hl H Hnl Hwf Hbefore HPd HPT HPS.
  split; [intros v; exact H|].
  assert (Hps := no_links_plain (fs w) (staged s) Hnl).
  assert (Hpd := no_links_plain (fs w) (GetPath s h) Hnl).
  destruct (Fetch_ok_plain _ _ env s w w' H Hps Hpd)
    as (w4 & Hc & Ha & Hr & Hf & Hne & _).
  split; [eapply ReadFile_intro; [exact Hr|]; by rewrite entry_ne|].
  assert (w' = w4) as ->.
  { unfold alias in Ha. rewrite Hl in Ha. by injection Ha. }
  clear Ha Hr Hf Hne.
  change (BindSource (GetBindConfiguration s rootfs)) with P.
  change (PathExists P w4) with (IsFetched s w4).
  assert (IsFetched s w4 = false) as Hafter; [|done].
  destruct (IsFetched s w4) eqn:Hex; [exfalso|done].
  destruct (commits_trace _ _ env s w _ w4 Hc Hps Hpd)
    as (_ & w1 & w2 & w3 & H1 & Hf2 & H4 & Hs3 & Hsne & Hab3 & Hnl3 & _ & _ & Hcase).
  fold h in H4, Hab3, Hcase.
  pose proof (ensure_dir_inv _ _ _ _ _ H1) as (_ & Hd1 & _).
  pose proof (ensure_dir_inv _ _ _ _ _ H4) as (_ & Hd4 & _).
  assert (no_new_links (fs w) (fs w4)) as Hnl4.
  { destruct Hcase as [[_ ->]|(_ & _ & ->)]; [done|]. intros k t.
    destruct (decide (GetPath s h = k)) as [<-|Hk];
      [by rewrite lookup_insert_eq|]. rewrite lookup_insert_ne by done.
    destruct (decide (staged s = k)) as [<-|Hk'];
      [by rewrite lookup_delete_eq|]. rewrite lookup_delete_ne by done.
    apply Hnl3. }
  (* the validator's path is there after the fetch *)
  unfold Source.IsFetched, PathExists, Os.Stat in Hex. fold P in Hex.
  destruct (Os.resolve true (fs w4) P) as [e|q] eqn:Hq; [done|].
  assert (no_dotdot P) as HddP by apply Join_root_no_dotdot.
  apply resolve_plain_inv in Hq as [-> HabP];
    [|done|by apply no_links_plain, (no_links_keep (fs w))].
  destruct (Os.entry (fs w4) P) as [n|] eqn:HP; [clear Hex|done].
  assert (P ≠ []) as HPne.
  { intros E. unfold Source.IsFetched, PathExists, Os.Stat in Hbefore.
    fold P in Hbefore. rewrite E in Hbefore. done. }
  rewrite entry_ne in HP by done.
  (* it was there before *)
  assert (fs w !! P = Some n) as HPw.
  { assert (fs w3 !! P = Some n) as HP3.
    { destruct Hcase as [[_ Hf4]|(Hne & _ & Hf4)]; rewrite Hf4 in HP; [done|].
      rewrite lookup_insert_ne in HP by done.
      destruct (decide (staged s = P)) as [E|Hk];
        [by rewrite E, lookup_delete_eq in HP|].
      by rewrite lookup_delete_ne in HP. }
    destruct (Hd4 P) as [E4|[E4 E4']].
    - rewrite HP3 in E4.
      assert (fs w1 !! P = Some n ∨ staged s = P) as [HP1|E].
      { destruct (decide (staged s = P)) as [|Hk]; [by right|left].
        by rewrite Hf2, lookup_insert_ne in E4. }
      + destruct (Hd1 P) as [E1|[E1 E1']]; [congruence|].
        exfalso. apply HPS.
        apply (ensure_dir_where _ _ _ _ _ H1); [apply Join_root_no_dotdot| |done|].
        * by apply no_links_plain.
        * by rewrite HP1.
      + (* the staging path: moved away, or the canonical path itself *)
        exfalso. destruct Hcase as [[Heq _]|(Hne & _ & Hf4)]; [congruence|].
        rewrite Hf4, lookup_insert_ne, <- E, lookup_delete_eq in HP; done.
    - exfalso. apply HPT.
      apply (ensure_dir_where _ _ _ _ _ H4); [apply Join_root_no_dotdot| |done|].
      + apply no_links_plain. apply (no_links_keep (fs w)); [|done].
        intros k t. rewrite Hf2. destruct (decide (staged s = k)) as [<-|Hk].
        * by rewrite lookup_insert_eq.
        * rewrite lookup_insert_ne by done. by apply dirs_added_no_new_links.
      + by rewrite HP3. }
  (* so the check held before *)
  unfold Source.IsFetched, PathExists, Os.Stat in Hbefore. fold P in Hbefore.
  rewrite resolve_plain, entry_ne, HPw in Hbefore; [done..| |].
  - by apply (wf_dirs_above _ _ n).
  - intros t. apply no_links_spec. done.
Qed.

End Validator.

(** * Further properties *)

(** * The transfers *)

(** A run is known by its result and the state it ends in. *)
Lemma run_result {A} (m : M A) (w : World) (r : result A) :
  (m w).1 = r → m w = (r, (m w).2).
Proof. intros <-. by destruct (m w). Qed.

Lemma Create_free (f : Os.FS) (p q : path) :
  Os.resolve true f p = inr q →
  match Os.entry f q with
  | Some (Os.File _) | None => true
  | _ => false
  end = true →
  Os.Create f p = inr (q, <[q := Os.File []]> f).
Proof.
  unfold Os.Create. intros -> H.
  by destruct (Os.entry f q) as [[| |]|].
Qed.

Lemma credentials_of_spec (u : URL) :
  Source.ftp_credentials u = credentials_of u.
Proof.
  unfold Source.ftp_credentials, credentials_of, Username, Password.
  destruct (User u) as [ui|]; [|done]. by destruct (passwordSet ui).
Qed.

(** The run of [downloadFTP] once the server is dialled. *)
Lemma downloadFTP_session_inv (env : Env) (s : SimpleSource)
    (destination : path) (w w' : World) (r : result unit) :
  Source.downloadFTP env s destination w = (r, w') →
  ftp_DialTimeout env (Source.ftp_hostAddr (url s)) = None →
  ∃ evs,
    net w' = net w ++ FtpDial (Source.ftp_hostAddr (url s)) :: evs ++ [FtpQuit] ∧
    evs ≠ [] ∧ evs `prefix_of` ftp_session s ∧
    (fs w' ≠ fs w ∨ r = Ok tt →
     evs = ftp_session s ∧
     ftp_Login env (credentials_of (url s)).1 (credentials_of (url s)).2 = None ∧
     ∃ e1 resp, ftp_List env (Path (url s)) = Ok [e1] ∧
                ftp_Retr env (Path (url s)) = Ok resp ∧
                (r = Ok tt → resp.2 = None)).
Proof.
  unfold Source.downloadFTP, ftp_session. cbv zeta. intros H Hd.
  rewrite credentials_of_spec in H.
  destruct (credentials_of (url s)) as [user pass]. cbn [fst snd].
  set (addr := Source.ftp_hostAddr (url s)) in *.
  unfold bind at 1 in H. unfold Source.Dial in H. rewrite Hd in H.
  unfold defer in H.
  match type of H with (let '(_, _) := ?m ?w1 in _) = _ =>
    destruct (m w1) as [r2 w2] eqn:Hm end.
  injection H as <- <-. cbn [fs net log].
  apply bind_inv in Hm as [(e & H & ->)|([] & w3 & H & Hm)].
  { unfold Source.Login in H. destruct (ftp_Login env _ _); [|discriminate H].
    injection H as <- <-. exists [FtpLogin user pass]. cbn.
    rewrite <- !app_assoc. split; [done|]. split; [done|].
    split; [by eexists|]. intros [?|?]; done. }
  assert (ftp_Login env user pass = None ∧ fs w3 = fs w ∧
          net w3 = net w ++ [FtpDial addr; FtpLogin user pass])
    as (Hl & Hf3 & Hn3).
  { unfold Source.Login in H. destruct (ftp_Login env _ _); [discriminate H|].
    injection H as <-. cbn. by rewrite <- app_assoc. }
  clear H.
  apply bind_inv in Hm as [(e & H & ->)|(entries & w4 & H & Hm)].
  { unfold Source.List in H. injection H as _ <-. cbn. rewrite Hf3, Hn3.
    exists [FtpLogin user pass; FtpList (Path (url s))].
    rewrite <- !app_assoc. split; [done|]. split; [done|].
    split; [by eexists|]. intros [?|?]; done. }
  assert (ftp_List env (Path (url s)) = Ok entries ∧ fs w4 = fs w ∧
          net w4 = net w ++ [FtpDial addr; FtpLogin user pass;
                             FtpList (Path (url s))]) as (Hls & Hf4 & Hn4).
  { unfold Source.List in H. injection H as -> <-. cbn.
    by rewrite Hf3, Hn3, <- app_assoc. }
  clear H. destruct (decide (length entries ≠ 1)) as [Hlen|Hlen].
  { injection Hm as <- <-. rewrite Hf4, Hn4.
    exists [FtpLogin user pass; FtpList (Path (url s))].
    rewrite <- !app_assoc. split; [done|]. split; [done|].
    split; [by eexists|]. intros [?|?]; done. }
  assert (∃ e1, entries = [e1]) as [e1 ->].
  { destruct entries as [|e1 [|??]]; [by destruct Hlen| |by destruct Hlen]; eauto. }
  apply bind_inv in Hm as [(e & H & ->)|(resp & w5 & H & Hm)].
  { unfold Source.Retr in H. injection H as _ <-. cbn. rewrite Hf4, Hn4.
    exists [FtpLogin user pass; FtpList (Path (url s)); FtpRetr (Path (url s))].
    rewrite <- !app_assoc. split; [done|]. split; [done|].
    split; [done|]. intros [?|?]; done. }
  assert (ftp_Retr env (Path (url s)) = Ok resp ∧ fs w5 = fs w ∧
          net w5 = net w ++ [FtpDial addr; FtpLogin user pass;
                             FtpList (Path (url s)); FtpRetr (Path (url s))])
    as (Hresp & Hf5 & Hn5).
  { unfold Source.Retr in H. injection H as -> <-. cbn.
    by rewrite Hf4, Hn4, <- app_assoc. }
  clear H.
  assert (net w2 = net w5) as Hn2.
  { apply bind_inv in Hm as [(e & H & ->)|(q & w6 & H & Hm)].
    - by apply os_Create_inv in H as [(? & _ & ->)|(? & ? & [=] & _)].
    - apply os_Create_inv in H as [(? & [=] & _)|(q' & f1 & [= <-] & Hc & ->)].
      by destruct (io_Copy_inv env (fs w5) f1 destination q resp
                     (set_fs f1 w5) w2 r2 Hc eq_refl Hm) as (_ & -> & _). }
  exists [FtpLogin user pass; FtpList (Path (url s)); FtpRetr (Path (url s))].
  rewrite Hn2, Hn5, <- !app_assoc. split; [done|]. split; [done|].
  split; [done|]. intros _. split; [done|]. split; [done|]. exists e1, resp.
  split; [done|]. split; [done|]. intros ->.
  apply bind_ok in Hm as (q & w6 & _ & Hm). unfold Source.io_Copy in Hm.
  apply bind_ok in Hm as ([] & w7 & _ & Hm).
  destruct (resp.2); [discriminate Hm|done].
Qed.

(** The run of [downloadFTP] when the dial fails. *)
Lemma downloadFTP_not_dialled (env : Env) (s : SimpleSource)
    (destination : path) (w w' : World) (r : result unit) (e : error) :
  Source.downloadFTP env s destination w = (r, w') →
  ftp_DialTimeout env (Source.ftp_hostAddr (url s)) = Some e →
  r = Err e ∧ fs w' = fs w.
Proof.
  unfold Source.downloadFTP. cbv zeta. unfold bind at 1. unfold Source.Dial.
  intros H Hd. rewrite Hd in H. by injection H as <- <-.
Qed.

(** X1. Every FTP session that was opened is closed: once the server is
    dialled, [downloadFTP] logs in, and whatever happens next it quits;
    what it sends in between is the start of login, list, retrieve. *)
Theorem downloadFTP_session (env : Env) (s : SimpleSource)
    (destination : path) (w w' : World) (r : result unit) :
  let addr := Source.ftp_hostAddr (url s) in
  Source.downloadFTP env s destination w = (r, w') →
  ftp_DialTimeout env addr = None →
  ∃ evs, evs ≠ [] ∧ evs `prefix_of` ftp_session s ∧
         net w' = net w ++ FtpDial addr :: evs ++ [FtpQuit].
Proof.
  intros addr H Hd.
  destruct (downloadFTP_session_inv env s destination w w' r H Hd)
    as (evs & Hn & Hne & Hp & _).
  by exists evs.
Qed.

(** X2. When the server cannot be dialled, [downloadFTP] returns the error
    of the dial: nothing else is sent, no quit either, and the file
    system is as it was. *)
Theorem downloadFTP_dial_refused (env : Env) (s : SimpleSource)
    (destination : path) (w : World) (e : error) :
  let addr := Source.ftp_hostAddr (url s) in
  ftp_DialTimeout env addr = Some e →
  Source.downloadFTP env s destination w =
    (Err e, {| fs := fs w; net := net w ++ [FtpDial addr] |}).
Proof.
  intros addr Hd. unfold Source.downloadFTP. cbv zeta.
  unfold bind at 1. unfold Source.Dial. fold addr. by rewrite Hd.
Qed.

(** X3. The destination is opened last: [downloadFTP] leaves the file
    system as it was unless the dial, the login, the listing (of
    exactly one entry) and the retrieval all succeeded. *)
Theorem downloadFTP_opens_last (env : Env) (s : SimpleSource)
    (destination : path) (w w' : World) (r : result unit) :
  let u := url s in
  Source.downloadFTP env s destination w = (r, w') →
  fs w' ≠ fs w →
  ftp_DialTimeout env (Source.ftp_hostAddr u) = None ∧
  ftp_Login env (credentials_of u).1 (credentials_of u).2 = None ∧
  (∃ e1, ftp_List env (Path u) = Ok [e1]) ∧
  (∃ resp, ftp_Retr env (Path u) = Ok resp).
Proof.
  intros u H Hfs. subst u.
  destruct (ftp_DialTimeout env (Source.ftp_hostAddr (url s))) as [e|] eqn:Hd.
  { destruct (downloadFTP_not_dialled env s destination w w' r e H Hd) as [_ E].
    by destruct Hfs. }
  destruct (downloadFTP_session_inv env s destination w w' r H Hd)
    as (evs & _ & _ & _ & Hk).
  destruct (Hk (or_introl Hfs)) as (_ & Hl & e1 & resp & Hls & Hr & _).
  split; [done|]. split; [done|]. split; [by exists e1|by exists resp].
Qed.

(** X4. A download over FTP that succeeds: the listing held one entry, the
    session was dial, login, list, retrieve, quit, and the destination,
    read afterwards, holds the bytes retrieved, whatever size the
    listing announced. *)
Theorem downloadFTP_ok (env : Env) (s : SimpleSource)
    (destination : path) (w w' : World) :
  let u := url s in
  Source.downloadFTP env s destination w = (Ok tt, w') →
  ∃ e1 data,
    ftp_List env (Path u) = Ok [e1] ∧
    ftp_Retr env (Path u) = Ok (data, None) ∧
    Os.ReadFile (fs w') destination = inr data ∧
    net w' = net w ++ FtpDial (Source.ftp_hostAddr u) :: ftp_session s ++ [FtpQuit].
Proof.
  intros u H. subst u.
  destruct (ftp_DialTimeout env (Source.ftp_hostAddr (url s))) as [e|] eqn:Hd.
  { by destruct (downloadFTP_not_dialled env s destination w w' _ e H Hd). }
  destruct (downloadFTP_session_inv env s destination w w' _ H Hd)
    as (evs & Hn & _ & _ & Hk).
  destruct (Hk (or_intror eq_refl)) as (-> & _ & e1 & resp & Hls & Hr & Hnone).
  destruct (downloadFTP_inv env s destination w w' _ H) as (_ & _ & Hok).
  destruct (Hok eq_refl) as (q & resp' & Hr' & Hq & Hfree & Hne & Hfs).
  rewrite Hr in Hr'. injection Hr' as <-.
  destruct resp as [data res]. cbn [fst snd] in *. rewrite (Hnone eq_refl) in Hr.
  exists e1, data. split; [done|]. split; [done|]. split; [|done].
  apply (ReadFile_intro _ _ q).
  - rewrite Hfs. by apply resolve_insert.
  - by rewrite entry_ne, Hfs, lookup_insert_eq.
Qed.

(** X5. The part of the connection parameters that holds: for a host
    without a colon, [downloadFTP] dials port 21, and once dialled it
    logs in as anonymous/anonymous when the URL has no user
    information, and with the user name and the password given (the
    empty one when none is) when it has. *)
Theorem downloadFTP_logs_in (env : Env) (s : SimpleSource)
    (destination : path) (w : World) :
  let u := url s in
  let addr := Host u +:+ ":21" in
  Contains (Host u) ":" = false →
  ftp_DialTimeout env addr = None →
  ∃ evs, net (Source.downloadFTP env s destination w).2 =
         net w ++ FtpDial addr ::
           FtpLogin (credentials_of u).1 (credentials_of u).2 :: evs.
Proof.
  intros u addr Hc Hd. subst u addr.
  rewrite <- (ftp_hostAddr_default _ Hc) in Hd |- *.
  destruct (Source.downloadFTP env s destination w) as [r w'] eqn:H.
  destruct (downloadFTP_session_inv env s destination w w' r H Hd)
    as (evs & Hn & Hne & [k Hp] & _).
  cbn [snd]. rewrite Hn. unfold ftp_session in Hp.
  destruct evs as [|ev evs]; [done|]. injection Hp as <- _.
  by eexists.
Qed.

(** X6. [downloadCurl] opens the destination first: when that fails, the
    error is returned and nothing has gone over the network. *)
Theorem downloadCurl_not_opened (env : Env) (s : SimpleSource)
    (destination : path) (w : World) :
  os_fault env (CCreate destination) ≠ None ∨
  (∃ e, Os.Create (fs w) destination = inl e) →
  ∃ e, Source.downloadCurl env s destination w = (Err (PathError e), w).
Proof.
  unfold Source.downloadCurl, bind, os_Create, syscall.
  intros [Hf|[e He]].
  - destruct (os_fault env (CCreate destination)) as [e|]; [by eexists|done].
  - destruct (os_fault env (CCreate destination)) as [e'|]; [by eexists|].
    rewrite He. by eexists.
Qed.

(** X7. A transfer by curl that breaks off leaves what was received: the
    destination was truncated when it was opened, and holds the bytes
    that came before the error. *)
Theorem downloadCurl_partial (env : Env) (s : SimpleSource)
    (destination q : path) (f1 : Os.FS) (w : World)
    (data : list byte) (e : error) :
  curl_Perform env (URI s) = (data, Some e) →
  os_fault env (CCreate destination) = None →
  os_fault env (CWrite q) = None →
  Os.Create (fs w) destination = inr (q, f1) →
  ∃ w', Source.downloadCurl env s destination w = (Err e, w') ∧
        Os.ReadFile (fs w') destination = inr data ∧
        net w' = net w ++ [CurlPerform (URI s)].
Proof.
  intros Hp Hfc Hfw Hc.
  destruct (Source.downloadCurl env s destination w) as [r w'] eqn:H.
  exists w'. pose proof H as H'.
  unfold Source.downloadCurl, bind, os_Create, syscall in H'.
  rewrite Hfc, Hc in H'. unfold Source.Perform in H'. rewrite Hp in H'.
  destruct (file_Write env q data (log (CurlPerform (URI s)) (set_fs f1 w)))
    as [rw w2] eqn:Hw.
  assert (rw = Ok tt) as ->.
  { unfold file_Write in Hw. destruct data; [by injection Hw as <-|].
    unfold syscall in Hw. rewrite Hfw in Hw. by injection Hw as <-. }
  injection H' as <- <-.
  destruct (created_written env (fs w) f1 destination q data
              (log (CurlPerform (URI s)) (set_fs f1 w)) w2 Hc eq_refl Hw)
    as [Hf Hn].
  destruct (Create_inv _ _ _ _ Hc) as (Hr & Hq & Hne & _).
  split; [done|]. split; [|by rewrite Hn].
  apply (ReadFile_intro _ _ q).
  - rewrite Hf. by apply resolve_insert.
  - by rewrite entry_ne, Hf, lookup_insert_eq.
Qed.

(** X8. After a download that succeeds, by either backend, reading the
    destination gives the bytes transferred, and nothing else has
    changed: one entry of the file system, the file the destination
    leads to, was made or replaced. *)
Theorem download_delivers (env : Env) (s : SimpleSource)
    (destination : path) (w w' : World) :
  Source.download env s destination w = (Ok tt, w') →
  Os.ReadFile (fs w') destination = inr (transferred env s) ∧
  ∃ q, Os.resolve true (fs w') destination = inr q ∧
       fs w' = <[q := Os.File (transferred env s)]> (fs w).
Proof.
  intros H. destruct (download_inv env s destination w w' _ H) as (_ & _ & Hok).
  destruct (Hok eq_refl) as (q & Hq & Hfree & Hne & Hfs).
  assert (Os.resolve true (fs w') destination = inr q) as Hq'.
  { rewrite Hfs. by apply resolve_insert. }
  split; [|by exists q].
  apply (ReadFile_intro _ _ q); [done|].
  by rewrite entry_ne, Hfs, lookup_insert_eq.
Qed.

(** * The digests of a file *)

Lemma hexdigit_is_hexdigit (n : N) : is_hexdigit (Digest.hexdigit n) = true.
Proof.
  destruct n as [|p]; [reflexivity|].
  do 5 (try destruct p as [p|p|]); reflexivity.
Qed.

Lemma EncodeToString_lower_hex (src : list byte) :
  lower_hex (Digest.EncodeToString src) = true.
Proof.
  induction src as [|b src IH]; [done|].
  cbn [Digest.EncodeToString lower_hex].
  by rewrite !hexdigit_is_hexdigit, IH.
Qed.

(** X9. The two sums of a file that can be read: [GetSHA256Sum] returns 64
    lower-case hexadecimal digits, [GetSHA1Sum] 40, they are the
    encodings of the SHA-256 and SHA-1 digests of the bytes of the
    file, they are never the same string, and neither call changes
    anything. *)
Theorem hash_sums (env : Env) (s : SimpleSource) (p : path) (w : World)
    (d : list byte) :
  let h := Digest.EncodeToString (Digest.sha256_Sum d) in
  let sha := Digest.EncodeToString (Digest.sha1_Sum d) in
  os_fault env (CReadFile p) = None →
  Os.ReadFile (fs w) p = inr d →
  Source.GetSHA256Sum env s p w = (Ok h, w) ∧
  Source.GetSHA1Sum env s p w = (Ok sha, w) ∧
  String.length h = 64 ∧ String.length sha = 40 ∧
  lower_hex h = true ∧ lower_hex sha = true ∧ h ≠ sha.
Proof.
  intros h sha Hf Hr. subst h sha.
  unfold Source.GetSHA256Sum, Source.GetSHA1Sum, bind, ioutil_ReadFile, syscall.
  rewrite Hf, Hr. cbv zeta. unfold ret. rewrite set_fs_id.
  split; [done|]. split; [done|].
  rewrite !EncodeToString_length, sha256_Sum_length, sha1_Sum_length.
  split; [done|]. split; [done|].
  rewrite !EncodeToString_lower_hex. split; [done|]. split; [done|].
  apply strong_weak_differ.
Qed.

(** X10. The two sums of a file that cannot be read: the error of the read
    is returned, and nothing is changed. *)
Theorem hash_sums_unreadable (env : Env) (s : SimpleSource) (p : path)
    (w : World) (e : Os.errno) :
  Os.ReadFile (fs w) p = inl e →
  ∃ e', (os_fault env (CReadFile p) = None → e' = e) ∧
        Source.GetSHA256Sum env s p w = (Err (PathError e'), w) ∧
        Source.GetSHA1Sum env s p w = (Err (PathError e'), w).
Proof.
  intros Hr.
  unfold Source.GetSHA256Sum, Source.GetSHA1Sum, bind, ioutil_ReadFile, syscall.
  destruct (os_fault env (CReadFile p)) as [e'|].
  - exists e'. done.
  - exists e. rewrite Hr. done.
Qed.

(** * The descriptor *)

Lemma Join_slash (X : path) : Filepath.Join X ["/"] = X.
Proof. reflexivity. Qed.

Lemma Join_Base (X : path) (p : string) :
  Filepath.Join X [Filepath.Base p] =
  if decide (Filepath.Base p = "." ∨ Filepath.Base p = "/") then X
  else if decide (Filepath.Base p = "..") then removelast X
  else X ++ [Filepath.Base p].
Proof.
  destruct (Base_shape p) as [->|[Hn Hne]]; [done|].
  rewrite (Join_nosep _ _ Hn). unfold Filepath.clean_step.
  destruct (decide (Filepath.Base p = "" ∨ Filepath.Base p = "."))
    as [[?|Hd]|Hd]; [done| |].
  - rewrite decide_True; [done|by left].
  - destruct (decide (Filepath.Base p = "." ∨ Filepath.Base p = "/"))
      as [[?|Hs]|?]; [by destruct Hd; right| |done].
    rewrite Hs in Hn. discriminate Hn.
Qed.

Section Descriptor.

Context (SourceDir SourceStagingDir : string).
Context (url_Parse : string → result URL).

Local Abbreviation Fetch := (Source.Fetch SourceDir SourceStagingDir).
Local Abbreviation GetPath := (Source.GetPath SourceDir).
Local Abbreviation IsFetched := (Source.IsFetched SourceDir).
Local Abbreviation GetBindConfiguration :=
  (Source.GetBindConfiguration SourceDir).
Local Abbreviation NewSimple := (Source.NewSimple url_Parse).
Local Abbreviation staged := (staged SourceStagingDir).

(** X11. The identifier of a source is the URI it was made from, as given,
    and this URI parses to the URL the source is fetched from; the
    validator and the legacy flag are kept as given. *)
Theorem NewSimple_identifier (uri key : string) (ypkg : bool)
    (s : SimpleSource) :
  NewSimple uri key ypkg = Ok s →
  Source.GetIdentifier s = uri ∧
  url_Parse (Source.GetIdentifier s) = Ok (url s) ∧
  validator s = key ∧ legacy s = ypkg.
Proof.
  unfold Source.NewSimple, Source.GetIdentifier.
  destruct (url_Parse uri) as [u|e] eqn:Hu; [|done].
  intros [= <-]. done.
Qed.

(** X12. Where a source made by [NewSimple] is kept, for a hash that is the
    encoding of a digest: under [<root>/<hash>] when the file name is a
    name; at [<root>/<hash>] itself when the file name is ["."] or
    ["/"] (the URL has an empty path or one of separators only); and
    at [<root>] when the file name is [".."]. *)
Theorem GetPath_shape (uri key : string) (ypkg : bool)
    (s : SimpleSource) (sum : list byte) :
  let root := Filepath.Join [] [SourceDir] in
  let h := Digest.EncodeToString sum in
  NewSimple uri key ypkg = Ok s →
  sum ≠ [] →
  GetPath s h =
    if decide (File s = "." ∨ File s = "/") then root ++ [h]
    else if decide (File s = "..") then root
    else root ++ [h; File s].
Proof.
  intros root h H Hs. subst root h.
  unfold Source.NewSimple in H.
  destruct (url_Parse uri) as [u|e]; [|done]. injection H as <-.
  rewrite (GetPath_hex SourceDir _ sum Hs). cbn [File].
  rewrite Join_Base. repeat case_decide; [done| |].
  - by rewrite removelast_last.
  - by rewrite <- app_assoc.
Qed.

(** X13. The bind configuration of a source made by [NewSimple]: the source
    of the bind is the path that [IsFetched] looks for, and the target
    is the file name under [rootfs], [rootfs] itself when the file
    name is ["."] or ["/"], and the directory above [rootfs] when it
    is [".."]. *)
Theorem GetBindConfiguration_shape (uri key : string) (ypkg : bool)
    (s : SimpleSource) (rootfs : string) (w : World) :
  let R := Filepath.Join [] [rootfs] in
  let cfg := GetBindConfiguration s rootfs in
  NewSimple uri key ypkg = Ok s →
  IsFetched s w = PathExists (BindSource cfg) w ∧
  BindSource cfg = GetPath s key ∧
  BindTarget cfg =
    if decide (File s = "." ∨ File s = "/") then R
    else if decide (File s = "..") then removelast R
    else R ++ [File s].
Proof.
  intros R cfg H. subst R cfg.
  unfold Source.NewSimple in H.
  destruct (url_Parse uri) as [u|e]; [|done]. injection H as <-.
  unfold Source.GetBindConfiguration, Source.IsFetched.
  cbn [BindSource BindTarget File validator].
  split; [done|]. split; [done|].
  by rewrite (Join_cons [] rootfs), Join_Base.
Qed.

End Descriptor.

(** * Build *)

(** X14. [Build] never succeeds: it returns the error of [CleanExisting],
    without going on to [EnsureDirs], or the error of [EnsureDirs], or
    else the error "Not yet implemented". *)
Theorem Build_not_implemented (Package BackingImage Overlay : Type)
    (NewOverlay : BackingImage → Package → Overlay)
    (CleanExisting EnsureDirs : Overlay → M unit)
    (p : Package) (img : BackingImage) (w : World) :
  let Build := Builder.Build Package BackingImage Overlay NewOverlay
                 CleanExisting EnsureDirs in
  let overlay := NewOverlay img p in
  (∃ e, (Build p img w).1 = Err e) ∧
  (∀ e w1, CleanExisting overlay w = (Err e, w1) →
           Build p img w = (Err e, w1)) ∧
  (∀ u w1 r w2, CleanExisting overlay w = (Ok u, w1) →
                EnsureDirs overlay w1 = (r, w2) →
                Build p img w =
                  (Err match r with
                       | Err e => e
                       | Ok _ => FmtError "Not yet implemented"
                       end, w2)).
Proof.
  intros Build overlay. subst Build overlay.
  unfold Builder.Build, bind, raise, Builder.errors_New. cbv zeta.
  destruct (CleanExisting (NewOverlay img p) w) as [[u|e] w1] eqn:Hc.
  - destruct (EnsureDirs (NewOverlay img p) w1) as [[u'|e] w2] eqn:He.
    + split; [by eexists|]. split; [done|].
      intros ? ? ? ? [= <- <-]. rewrite He. by intros [= <- <-].
    + split; [by eexists|]. split; [done|].
      intros ? ? ? ? [= <- <-]. rewrite He. by intros [= <- <-].
  - split; [by eexists|]. split; [by intros ? ? [= <- <-]|done].
Qed.

(** * The address dialled *)

Lemma Contains_colon_app (a : string) : Contains (a +:+ ":21") ":" = true.
Proof.
  unfold Contains. induction a as [|c a IH]; [reflexivity|].
  change (String c a +:+ ":21") with (String c (a +:+ ":21")).
  cbn [String.index String.prefix].
  destruct (String.index 0 ":" (a +:+ ":21")); [|done].
  destruct (Ascii.ascii_dec ":" c); [|done].
  by destruct (String.prefix "" (a +:+ ":21")).
Qed.

(** X15. The address that [downloadFTP] dials is the host of the URL or
    the host with [":21"] after it, and it always holds a colon. *)
Theorem downloadFTP_dial_address (env : Env) (s : SimpleSource)
    (destination : path) (w : World) :
  ∃ addr evs,
    net (Source.downloadFTP env s destination w).2
      = net w ++ FtpDial addr :: evs ∧
    Contains addr ":" = true ∧
    (addr = Host (url s) ∨ addr = Host (url s) +:+ ":21").
Proof.
  destruct (Source.downloadFTP env s destination w) as [r w'] eqn:H.
  destruct (downloadFTP_dials env s destination w w' r H) as [evs Hn].
  exists (Source.ftp_hostAddr (url s)), evs. split; [done|].
  unfold Source.ftp_hostAddr. cbv zeta.
  destruct (Contains (Host (url s)) ":") eqn:Hc; cbn [negb].
  - split; [done|by left].
  - split; [apply Contains_colon_app|by right].
Qed.

(** * More on Fetch *)

Lemma downloadCurl_net (env : Env) (s : SimpleSource) (p : path)
    (w w' : World) (r : result unit) :
  Source.downloadCurl env s p w = (r, w') →
  (net w' = net w ∧ r ≠ Ok tt) ∨ net w' = net w ++ [CurlPerform (URI s)].
Proof.
  unfold Source.downloadCurl. intros H.
  apply bind_inv in H as [(e & H & ->)|(q & w1 & H & Hp)].
  - apply os_Create_inv in H as [(? & _ & ->)|(? & ? & [=] & _)]. by left.
  - apply os_Create_inv in H as [(? & [=] & _)|(q' & f1 & [= <-] & Hc & ->)].
    right. unfold Source.Perform in Hp.
    destruct (curl_Perform env (URI s)) as [data res].
    destruct (file_Write env q data (log (CurlPerform (URI s)) (set_fs f1 w)))
      as [rw w2] eqn:Hw.
    assert (w' = w2) as ->.
    { destruct rw; [destruct res|]; by injection Hp. }
    apply file_Write_inv in Hw as [(? & _ & ->)|(_ & -> & _)]; done.
Qed.

Section FetchMore.

Context (SourceDir SourceStagingDir : string).

Local Abbreviation Fetch := (Source.Fetch SourceDir SourceStagingDir).
Local Abbreviation GetPath := (Source.GetPath SourceDir).
Local Abbreviation staged := (staged SourceStagingDir).

(** X16. When the staging directory is not there and cannot be made,
    [Fetch] returns the error of [os.MkdirAll]: nothing has gone over
    the network and nothing is changed. *)
Theorem Fetch_staging_refused (env : Env) (s : SimpleSource) (w : World)
    (e : Os.errno) :
  let dir := Filepath.Join [] [SourceStagingDir] in
  PathExists dir w = false →
  os_fault env (CMkdirAll dir) = Some e ∨
  (os_fault env (CMkdirAll dir) = None ∧ Os.MkdirAll (fs w) dir = inl e) →
  Fetch env s w = (Err (PathError e), w).
Proof.
  intros dir Hp Hm. subst dir. unfold Source.Fetch. cbv zeta.
  unfold bind at 1. rewrite Hp. cbn [negb]. unfold os_MkdirAll, syscall.
  destruct Hm as [->|[-> ->]]; done.
Qed.

(** X17. Over curl, [Fetch] asks for the URI of the source once and does
    nothing else on the network: when it succeeds, the URI has been
    performed exactly once; when it fails, once or not at all. *)
Theorem Fetch_curl_once (env : Env) (s : SimpleSource) (w w' : World)
    (r : result unit) :
  Scheme (url s) ≠ "ftp" →
  Fetch env s w = (r, w') →
  net w' = net w ++ [CurlPerform (URI s)] ∨ (net w' = net w ∧ r ≠ Ok tt).
Proof.
  intros Hs. unfold Source.Fetch. cbv zeta.
  fold (ensure_dir env (Filepath.Join [] [SourceStagingDir])).
  fold (staged s). intros H.
  apply bind_inv in H as [(e & H & ->)|([] & w1 & H1 & H)].
  { apply ensure_dir_inv in H as (-> & _). by right. }
  apply ensure_dir_inv in H1 as (Hn1 & _).
  assert (Source.download env s (staged s) = Source.downloadCurl env s (staged s))
    as Hd by (unfold Source.download; by rewrite decide_False).
  rewrite Hd in H.
  apply bind_inv in H as [(e & H & ->)|([] & w2 & H2 & H)].
  { apply downloadCurl_net in H as [[-> _]| ->]; rewrite Hn1; [by right|by left]. }
  apply downloadCurl_net in H2 as [[_ ?]|Hn2]; [done|].
  left. rewrite <- Hn1, <- Hn2. clear Hn1 Hn2 Hd.
  apply bind_inv in H as [(e & H & ->)|(h & w2' & H3 & H)].
  { by apply GetSHA256Sum_inv in H as [-> _]. }
  apply GetSHA256Sum_inv in H3 as [-> _].
  apply bind_inv in H as [(e & H & ->)|([] & w3 & H4 & H)].
  { by apply ensure_dir_inv in H as (-> & _). }
  apply ensure_dir_inv in H4 as (<- & _).
  apply bind_inv in H as [(e & H & ->)|([] & w4 & H5 & H)].
  { by apply syscall_inv in H as [(? & _ & ->)|(? & ? & _ & _ & [=] & _)]. }
  apply syscall_inv in H5 as [(? & [=] & _)|(? & f & _ & _ & _ & ->)].
  change (net w3) with (net (set_fs f w3)).
  destruct (legacy s); [|by injection H as _ <-].
  apply bind_inv in H as [(e & H & ->)|(sha & w5 & H6 & H)].
  { by apply GetSHA1Sum_inv in H as [-> _]. }
  apply GetSHA1Sum_inv in H6 as [-> _].
  by apply syscall_inv in H as [(? & _ & ->)|(? & ? & _ & _ & _ & ->)].
Qed.

(** X18. What a successful [Fetch] of a source that is not a legacy one
    changes, in a store without a symbolic link on the staging path or
    on the canonical path: the staged file is gone from the staging
    directory, no symbolic link is made, and every entry other than
    the staged and the canonical file is as it was, or is a directory
    made where nothing was. *)
Theorem Fetch_frame (env : Env) (s : SimpleSource) (w w' : World) :
  let h := strong_hash env s in
  legacy s = false →
  Fetch env s w = (Ok tt, w') →
  plain (fs w) (staged s) = true →
  plain (fs w) (GetPath s h) = true →
  (staged s ≠ GetPath s h → fs w' !! staged s = None) ∧
  no_new_links (fs w) (fs w') ∧
  ∀ k, k ≠ GetPath s h → k ≠ staged s →
       fs w' !! k = fs w !! k ∨
       (fs w !! k = None ∧ fs w' !! k = Some Os.Dir).
Proof.
  intros h Hl H Hps Hpd. subst h.
  destruct (Fetch_ok_plain SourceDir SourceStagingDir env s w w' H Hps Hpd)
    as (w4 & Hc & Ha & _).
  destruct (commits_plain SourceDir SourceStagingDir env s w _ w4 Hc Hps Hpd)
    as (_ & _ & _ & _ & Hnl & _ & Hframe & Hgone).
  unfold alias in Ha. rewrite Hl in Ha. injection Ha as <-.
  done.
Qed.

End FetchMore.

(** * Fetching again *)

Section Again.

Context (SourceDir SourceStagingDir : string).

Local Abbreviation Fetch := (Source.Fetch SourceDir SourceStagingDir).
Local Abbreviation GetPath := (Source.GetPath SourceDir).
Local Abbreviation staged := (staged SourceStagingDir).

(** The canonical path of a source made by [NewSimple] lies in the
    content root, and not under the name of another digest. *)
Lemma GetPath_root_plain (f : Os.FS) (s : SimpleSource) (sum sum' : list byte) :
  let root := Filepath.Join [] [SourceDir] in
  let h := Digest.EncodeToString sum in
  let c := Digest.EncodeToString sum' in
  File s = Filepath.Base (Path (url s)) →
  sum ≠ [] → h ≠ c →
  plain f (GetPath s h) = true →
  plain f root = true ∧ ∀ b, GetPath s h ≠ (root ++ [c]) ++ b.
Proof.
  intros root h c HF Hs Hhc Hp. subst h c.
  rewrite (GetPath_hex SourceDir s sum Hs) in Hp |- *. fold root in Hp |- *.
  rewrite HF in Hp |- *.
  destruct (Base_join_shape (Path (url s))) as [E|E|E _]; rewrite E in Hp |- *.
  - split; [by apply plain_prefix in Hp|]. intros b Hb.
    rewrite <- app_assoc in Hb. apply app_inv_head in Hb.
    injection Hb as Hb _. by destruct Hhc.
  - rewrite removelast_last in Hp |- *. split; [done|]. intros b Hb.
    apply (f_equal length) in Hb. rewrite !length_app in Hb. cbn in Hb. lia.
  - split; [rewrite <- app_assoc in Hp; by apply plain_prefix in Hp|].
    intros b Hb. rewrite <- !app_assoc in Hb. apply app_inv_head in Hb.
    injection Hb as Hb _. by destruct Hhc.
Qed.

(** After a [Fetch] of a legacy source that succeeded, the alias is at
    [<root>/<weakHash>], and the canonical path is still without a
    symbolic link. *)
Lemma Fetch_legacy_link (env : Env) (s : SimpleSource) (w w' : World) :
  let h := strong_hash env s in
  let root := Filepath.Join [] [SourceDir] in
  legacy s = true →
  File s = Filepath.Base (Path (url s)) →
  Fetch env s w = (Ok tt, w') →
  plain (fs w) (staged s) = true →
  plain (fs w) (GetPath s h) = true →
  fs w' !! (root ++ [weak_hash env s]) = Some (Os.Link h) ∧
  plain (fs w') (GetPath s h) = true.
Proof.
  intros h root Hl HF H Hps Hpd.
  destruct (Fetch_ok_plain SourceDir SourceStagingDir env s w w' H Hps Hpd)
    as (w4 & Hc & Ha & _).
  destruct (commits_plain SourceDir SourceStagingDir env s w _ w4 Hc Hps Hpd)
    as (_ & Hf & Hab & Hne & Hnl & _).
  fold h in Hf, Hab, Hne, Ha.
  apply alias_inv in Ha as (_ & _ & Hok).
  destruct (Hok eq_refl) as [[Hl' _]|(_ & d & ql & Hrd & Hrl & Hq & Hqne & Hf')];
    [congruence|]. clear Hok.
  assert (Os.ReadFile (fs w4) (GetPath s h) = inr (transferred env s)) as Hrd'.
  { eapply ReadFile_intro; [|by rewrite entry_ne].
    apply resolve_plain; [apply GetPath_no_dotdot|done|]. intros t. by rewrite Hf. }
  rewrite Hrd' in Hrd. injection Hrd as <-. fold (weak_hash env s) in Hrl.
  assert (Hsum256 := sha256_Sum_nonempty (transferred env s)).
  assert (Hsum1 := sha1_Sum_nonempty (transferred env s)).
  assert (Hhs := strong_weak_differ (transferred env s)).
  assert (plain (fs w4) (GetPath s h) = true) as Hpd4
    by (by apply (plain_no_new_links (fs w))).
  destruct (GetPath_root_plain (fs w4) s _ _ HF Hsum256 Hhs Hpd4) as [Hproot Hnot].
  fold root in Hproot, Hnot. fold (weak_hash env s) in Hnot.
  unfold weak_hash in Hrl. rewrite (Join_root_hex SourceDir _ Hsum1) in Hrl.
  fold root in Hrl. fold (weak_hash env s) in Hrl.
  assert (no_dotdot (root ++ [weak_hash env s])) as Hdl.
  { apply Forall_app. split; [apply Join_root_no_dotdot|].
    constructor; [apply hex_not_dotdot|done]. }
  destruct (resolve_nofollow_inv _ _ _ _ Hdl Hproot Hrl) as [-> _].
  split; [by rewrite Hf', lookup_insert_eq|].
  apply plain_spec. intros a b t Hab' Ha. rewrite Hf'.
  destruct (decide (a = root ++ [weak_hash env s])) as [->|Hna].
  - by destruct (Hnot b).
  - rewrite lookup_insert_ne; [|done].
    by apply (proj1 (plain_spec _ _) Hpd4 a b).
Qed.

(** X19. A legacy source is fetched once: after a [Fetch] that succeeded,
    a second [Fetch] of the same source, with the staging path still
    without a symbolic link, never succeeds, for the alias is there. *)
Theorem Fetch_legacy_once (env : Env) (s : SimpleSource) (w w' w'' : World)
    (r : result unit) :
  let h := strong_hash env s in
  legacy s = true →
  File s = Filepath.Base (Path (url s)) →
  Fetch env s w = (Ok tt, w') →
  plain (fs w) (staged s) = true →
  plain (fs w) (GetPath s h) = true →
  plain (fs w') (staged s) = true →
  Fetch env s w' = (r, w'') →
  ∃ e, r = Err e.
Proof.
  intros h Hl HF H Hps Hpd Hps' H2.
  destruct r as [[]|e]; [exfalso|by exists e].
  destruct (Fetch_legacy_link env s w w' Hl HF H Hps Hpd) as [Hlk Hpd'].
  fold h in Hlk, Hpd'. set (root := Filepath.Join [] [SourceDir]) in *.
  destruct (Fetch_ok_plain SourceDir SourceStagingDir env s w' w'' H2 Hps' Hpd')
    as (w5 & Hc & Ha & _).
  destruct (commits_plain SourceDir SourceStagingDir env s w' _ w5 Hc Hps' Hpd')
    as (_ & Hf & Hab & Hne & Hnl & _ & Hframe & _).
  fold h in Hf, Hab, Hne, Ha, Hframe.
  apply alias_inv in Ha as (_ & _ & Hok).
  destruct (Hok eq_refl) as [[Hl' _]|(_ & d & ql & Hrd & Hrl & Hq & _)];
    [congruence|]. clear Hok.
  assert (Os.ReadFile (fs w5) (GetPath s h) = inr (transferred env s)) as Hrd'.
  { eapply ReadFile_intro; [|by rewrite entry_ne].
    apply resolve_plain; [apply GetPath_no_dotdot|done|]. intros t. by rewrite Hf. }
  rewrite Hrd' in Hrd. injection Hrd as <-. fold (weak_hash env s) in Hrl.
  assert (Hsum256 := sha256_Sum_nonempty (transferred env s)).
  assert (Hsum1 := sha1_Sum_nonempty (transferred env s)).
  assert (Hhs := strong_weak_differ (transferred env s)).
  assert (plain (fs w5) (GetPath s h) = true) as Hpd5
    by (by apply (plain_no_new_links (fs w'))).
  destruct (GetPath_root_plain (fs w5) s _ _ HF Hsum256 Hhs Hpd5) as [Hproot _].
  fold root in Hproot.
  unfold weak_hash in Hrl. rewrite (Join_root_hex SourceDir _ Hsum1) in Hrl.
  fold root in Hrl. fold (weak_hash env s) in Hrl.
  assert (no_dotdot (root ++ [weak_hash env s])) as Hdl.
  { apply Forall_app. split; [apply Join_root_no_dotdot|].
    constructor; [apply hex_not_dotdot|done]. }
  destruct (resolve_nofollow_inv _ _ _ _ Hdl Hproot Hrl) as [-> _].
  destruct (Hframe (root ++ [weak_hash env s])) as [Hk|[Hk _]].
  - intros E. by rewrite E, Hf in Hq.
  - intros E. apply (proj1 (plain_spec _ _) Hps' (staged s) [] h);
      [by rewrite app_nil_r| |by rewrite <- E].
    rewrite <- E. by destruct root.
  - by rewrite Hk, Hlk in Hq.
  - by rewrite Hlk in Hk.
Qed.

End Again.

(** Writing what was received to a file just opened. *)
Lemma file_Write_opened (env : Env) (q : path) (data : list byte) (w : World)
    (f : Os.FS) :
  fs w = <[q := Os.File []]> f →
  (data ≠ [] → os_fault env (CWrite q) = None) →
  file_Write env q data w =
    (Ok tt, {| fs := <[q := Os.File data]> f; net := net w |}).
Proof.
  intros Hf Hw. unfold file_Write. destruct data as [|b data].
  - unfold ret. destruct w as [fw nw]. cbn in *. by rewrite Hf.
  - unfold syscall. rewrite Hw by done. rewrite Hf, Write_created. done.
Qed.

Lemma file_Write_ok_fault (env : Env) (q : path) (data : list byte)
    (w w' : World) :
  file_Write env q data w = (Ok tt, w') →
  data ≠ [] → os_fault env (CWrite q) = None.
Proof.
  unfold file_Write. destruct data as [|b data]; [done|]. intros H _.
  by apply syscall_ok in H as (? & ? & _).
Qed.

(** A download that succeeded succeeds again wherever the destination
    can be opened, at the same place, and sends the same again. *)
Lemma downloadCurl_again (env : Env) (s : SimpleSource) (p q : path)
    (w w2 v : World) :
  Source.downloadCurl env s p w = (Ok tt, w2) →
  Os.resolve true (fs w) p = inr q →
  Os.Create (fs v) p = inr (q, <[q := Os.File []]> (fs v)) →
  ∃ evs, net w2 = net w ++ evs ∧
    Source.downloadCurl env s p v =
      (Ok tt, {| fs := <[q := Os.File (curl_Perform env (URI s)).1]> (fs v);
                 net := net v ++ evs |}).
Proof.
  unfold Source.downloadCurl. intros H Hq Hv.
  apply bind_ok in H as (q0 & w1 & H & Hp).
  apply syscall_ok in H as (f1 & Hfault & Hc & ->).
  destruct (Create_inv _ _ _ _ Hc) as (Hq0 & _). rewrite Hq in Hq0.
  injection Hq0 as <-. clear Hc.
  unfold bind, os_Create, syscall. rewrite Hfault, Hv.
  unfold Source.Perform in Hp |- *.
  destruct (curl_Perform env (URI s)) as [data res]. cbn [fst].
  destruct (file_Write env q data (log (CurlPerform (URI s)) (set_fs f1 w)))
    as [[[]|e] w3] eqn:Hw; [|done].
  destruct res as [e|]; [done|]. injection Hp as <-.
  pose proof (file_Write_ok_fault _ _ _ _ _ Hw) as Hfw.
  rewrite (file_Write_opened env q data _ (fs v)); [|done|done].
  exists [CurlPerform (URI s)]. split; [|done].
  by apply file_Write_inv in Hw as [(? & [=] & _)|(_ & -> & _)].
Qed.

Lemma downloadFTP_again (env : Env) (s : SimpleSource) (p q : path)
    (w w2 v : World) :
  Source.downloadFTP env s p w = (Ok tt, w2) →
  Os.resolve true (fs w) p = inr q →
  Os.Create (fs v) p = inr (q, <[q := Os.File []]> (fs v)) →
  ∃ evs resp, net w2 = net w ++ evs ∧
    ftp_Retr env (Path (url s)) = Ok resp ∧
    Source.downloadFTP env s p v =
      (Ok tt, {| fs := <[q := Os.File resp.1]> (fs v); net := net v ++ evs |}).
Proof.
  intros H Hq Hv.
  destruct (ftp_DialTimeout env (Source.ftp_hostAddr (url s))) as [e|] eqn:Hd.
  { by destruct (downloadFTP_not_dialled env s p w w2 _ e H Hd). }
  destruct (downloadFTP_session_inv env s p w w2 _ H Hd)
    as (evs & Hn & _ & _ & Hk).
  destruct (Hk (or_intror eq_refl)) as (-> & Hl & e1 & resp & Hls & Hr & Hnone).
  specialize (Hnone eq_refl).
  exists (FtpDial (Source.ftp_hostAddr (url s)) :: ftp_session s ++ [FtpQuit]), resp.
  split; [done|]. split; [done|].
  (* the fault of the write, from the first run *)
  assert (resp.1 ≠ [] → os_fault env (CWrite q) = None) as Hfw.
  { revert H. unfold Source.downloadFTP. cbv zeta.
    rewrite credentials_of_spec.
    destruct (credentials_of (url s)) as [user pass]. cbn [fst snd] in Hl.
    unfold bind at 1. unfold Source.Dial. rewrite Hd. unfold defer.
    unfold bind at 1. unfold Source.Login. rewrite Hl.
    unfold bind at 1. unfold Source.List. rewrite Hls.
    destruct (decide (length [e1] ≠ 1)) as [?|_]; [done|].
    unfold bind at 1. unfold Source.Retr. rewrite Hr.
    match goal with |- (let '(_, _) := ?m in _) = _ → _ =>
      destruct m as [r3 w3] eqn:Hm end.
    intros [= -> _].
    apply bind_ok in Hm as (q0 & w4 & Hc & Hm).
    apply syscall_ok in Hc as (f1 & _ & Hc & ->).
    destruct (Create_inv _ _ _ _ Hc) as (Hq0 & _). cbn [fs log] in Hq0.
    rewrite Hq in Hq0. injection Hq0 as <-.
    unfold Source.io_Copy in Hm. apply bind_ok in Hm as ([] & w5 & Hw & _).
    exact (file_Write_ok_fault _ _ _ _ _ Hw). }
  (* the fault of the open, from the first run *)
  assert (os_fault env (CCreate p) = None) as Hfc.
  { revert H. unfold Source.downloadFTP. cbv zeta.
    rewrite credentials_of_spec.
    destruct (credentials_of (url s)) as [user pass]. cbn [fst snd] in Hl.
    unfold bind at 1. unfold Source.Dial. rewrite Hd. unfold defer.
    unfold bind at 1. unfold Source.Login. rewrite Hl.
    unfold bind at 1. unfold Source.List. rewrite Hls.
    destruct (decide (length [e1] ≠ 1)) as [?|_]; [done|].
    unfold bind at 1. unfold Source.Retr. rewrite Hr.
    match goal with |- (let '(_, _) := ?m in _) = _ → _ =>
      destruct m as [r3 w3] eqn:Hm end.
    intros [= -> _].
    apply bind_ok in Hm as (q0 & w4 & Hc & Hm).
    by apply syscall_ok in Hc as (f1 & ? & _). }
  unfold Source.downloadFTP. cbv zeta. rewrite credentials_of_spec.
  unfold ftp_session.
  destruct (credentials_of (url s)) as [user pass]. cbn [fst snd] in Hl |- *.
  unfold bind at 1. unfold Source.Dial. rewrite Hd. unfold defer.
  unfold bind at 1. unfold Source.Login. rewrite Hl.
  unfold bind at 1. unfold Source.List. rewrite Hls.
  destruct (decide (length [e1] ≠ 1)) as [?|_]; [done|].
  unfold bind at 1. unfold Source.Retr. rewrite Hr.
  unfold bind at 1. unfold os_Create, syscall. rewrite Hfc. cbn [fs log].
  rewrite Hv. unfold Source.io_Copy. unfold bind.
  rewrite (file_Write_opened env q resp.1 _ (fs v)); [|done|done].
  rewrite Hnone. unfold ret, log. cbn [fs net set_fs].
  by rewrite <- !app_assoc.
Qed.

Lemma download_again (env : Env) (s : SimpleSource) (p q : path)
    (w w2 v : World) :
  Source.download env s p w = (Ok tt, w2) →
  Os.resolve true (fs w) p = inr q →
  Os.Create (fs v) p = inr (q, <[q := Os.File []]> (fs v)) →
  ∃ evs, net w2 = net w ++ evs ∧
    Source.download env s p v =
      (Ok tt, {| fs := <[q := Os.File (transferred env s)]> (fs v);
                 net := net v ++ evs |}).
Proof.
  unfold Source.download, transferred.
  destruct (decide (Scheme (url s) = "ftp")); intros H Hq Hv.
  - destruct (downloadFTP_again env s p q w w2 v H Hq Hv)
      as (evs & resp & Hn & Hr & Hv'). rewrite Hr. by exists evs.
  - by apply (downloadCurl_again env s p q w w2 v).
Qed.

Lemma Join_name (X : path) (f : string) :
  is_name f → nosep f = true → Filepath.Join X [f] = X ++ [f].
Proof. intros Hn Hs. by rewrite Join_nosep, clean_step_name. Qed.

(** A directory all of whose parents are directories is found where it
    is. *)
Lemma Stat_dir (f : Os.FS) (p : path) :
  no_dotdot p → dirs_above f (p ++ ["x"]) → Os.Stat f p = inr Os.Dir.
Proof.
  intros Hd Hab. unfold Os.Stat. destruct (decide (p = [])) as [->|Hne].
  { reflexivity. }
  assert (f !! p = Some Os.Dir) as Hp by (by apply (Hab p ["x"])).
  rewrite resolve_plain; [by rewrite entry_ne, Hp| done | |].
  - intros a b -> Ha Hb. apply (Hab a (b ++ ["x"])); [by rewrite app_assoc|done|].
    by destruct b.
  - intros t. by rewrite Hp.
Qed.

Lemma dirs_above_name (f : Os.FS) (p : path) (c c' : string) :
  dirs_above f (p ++ [c]) → dirs_above f (p ++ [c']).
Proof.
  intros Hab a b Hp Ha Hb.
  destruct (decide (b = [])) as [->|Hbn]; [done|].
  destruct (exists_last Hbn) as (b' & x & ->).
  rewrite app_assoc in Hp. apply app_inj_tail in Hp as [-> _].
  apply (Hab a (b' ++ [c])); [by rewrite app_assoc|done|by destruct b'].
Qed.

Section Repeat.

Context (SourceDir SourceStagingDir : string).

Local Abbreviation Fetch := (Source.Fetch SourceDir SourceStagingDir).
Local Abbreviation GetPath := (Source.GetPath SourceDir).
Local Abbreviation staged := (staged SourceStagingDir).

(** X20. A source that is not a legacy one can be fetched again: when its
    file name is a name, after a [Fetch] that succeeded a second one
    succeeds too, sends over the network what the first one sent, and
    leaves the file system as the first one left it. *)
Theorem Fetch_again (env : Env) (s : SimpleSource) (w w' : World) :
  let h := strong_hash env s in
  legacy s = false →
  is_name (File s) →
  nosep (File s) = true →
  Fetch env s w = (Ok tt, w') →
  plain (fs w) (staged s) = true →
  plain (fs w) (GetPath s h) = true →
  staged s ≠ GetPath s h →
  ∃ w'' evs, Fetch env s w' = (Ok tt, w'') ∧ fs w'' = fs w' ∧
             evs ≠ [] ∧ net w' = net w ++ evs ∧ net w'' = net w' ++ evs.
Proof.
  intros h Hl Hname Hsep H Hps Hpd Hne.
  set (data := transferred env s).
  set (stg := Filepath.Join [] [SourceStagingDir]).
  set (root := Filepath.Join [] [SourceDir]).
  assert (Hsum := sha256_Sum_nonempty data).
  assert (staged s = stg ++ [File s]) as Hstaged.
  { change (staged s) with (Filepath.Join [] [SourceStagingDir; File s]).
    by rewrite (Join_cons [] SourceStagingDir), Join_name. }
  assert (GetPath s h = (root ++ [h]) ++ [File s]) as Hdest.
  { change (GetPath s h)
      with (GetPath s (Digest.EncodeToString (Digest.sha256_Sum data))).
    rewrite (GetPath_hex SourceDir s _ Hsum). by rewrite Join_name. }
  assert (Filepath.Join [] [SourceDir; h] = root ++ [h]) as Htgt
    by (by apply Join_root_hex).
  assert (no_dotdot stg) as Hdstg by apply Join_root_no_dotdot.
  assert (no_dotdot (root ++ [h])) as Hdtgt.
  { apply Forall_app. split; [apply Join_root_no_dotdot|].
    constructor; [apply hex_not_dotdot|done]. }
  assert (Hdst := staged_no_dotdot SourceStagingDir s).
  assert (Hdds := GetPath_no_dotdot SourceDir s h).
  assert (staged s ≠ []) as Hsne by (rewrite Hstaged; by destruct stg).
  assert (GetPath s h ≠ []) as Hdne by (rewrite Hdest; by destruct root).
  (* the first run *)
  destruct (Fetch_ok_plain SourceDir SourceStagingDir env s w w' H Hps Hpd)
    as (w4 & Hc & Ha & _).
  fold h in Hc, Ha. unfold alias in Ha. rewrite Hl in Ha. injection Ha as <-.
  destruct Hc as (w1 & w2 & w3 & H1 & H2 & H3 & H4 & H5).
  pose proof (ensure_dir_inv _ _ _ _ _ H1) as (Hn1 & Hd1 & _).
  pose proof (download_inv _ _ _ _ _ _ H2) as (_ & [evs0 [Hn2 Hevs]] & Hok).
  specialize (Hevs eq_refl).
  destruct (Hok eq_refl) as (q & Hq & _ & _ & Hf2). clear Hok.
  assert (plain (fs w1) (staged s) = true) as Hps1
    by (eapply plain_no_new_links; [by apply dirs_added_no_new_links|done]).
  destruct (resolve_plain_inv _ _ _ _ Hdst Hps1 Hq) as [-> Hab1].
  fold data in Hf2.
  assert (os_fault env (CReadFile (staged s)) = None) as Hfr.
  { apply bind_ok in H3 as (d & w2' & H3 & _).
    by apply syscall_ok in H3 as (? & ? & _). }
  pose proof (ensure_dir_inv _ _ _ _ _ H4) as (Hn4 & Hd4 & _).
  assert (fs w3 !! staged s = Some (Os.File data)) as Hs3.
  { apply (dirs_added_lookup (fs w2)); [done|]. by rewrite Hf2, lookup_insert_eq. }
  assert (dirs_above (fs w3) (staged s)) as Hab3s.
  { apply (dirs_added_above (fs w2)); [done|].
    intros a b Hp Ha Hb. rewrite Hf2, lookup_insert_ne; [by eapply Hab1|].
    intros Heq. rewrite <- Heq in Hp. rewrite <- (app_nil_r (staged s)) in Hp at 1.
    by apply app_inv_head in Hp. }
  apply syscall_ok in H5 as (f4 & Hfn & H5 & ->). cbn [fs net set_fs] in *.
  cbv beta in H5. unfold with_unit in H5.
  destruct (Os.Rename (fs w3) (staged s) (GetPath s h)) as [e|f4'] eqn:Hren;
    [done|]. injection H5 as <-.
  assert (Os.resolve false (fs w3) (staged s) = inr (staged s)) as Hr3.
  { apply resolve_plain; [done|done|]. intros t. by rewrite Hs3. }
  apply (Rename_file_inv _ _ _ _ _ data Hr3) in Hren; [|by rewrite entry_ne].
  destruct Hren as (qd & Hrd & Hcase).
  assert (plain (fs w3) (GetPath s h) = true) as Hpd3.
  { apply (plain_no_new_links (fs w)); [|done]. intros k t E.
    apply dirs_added_no_new_links in Hd1, Hd4. apply Hd1.
    apply Hd4 in E. rewrite Hf2 in E.
    destruct (decide (staged s = k)) as [<-|Hk].
    - by rewrite lookup_insert_eq in E.
    - by rewrite lookup_insert_ne in E. }
  destruct (resolve_plain_inv _ _ _ _ Hdds Hpd3 Hrd) as [-> Hab3].
  destruct Hcase as [[? _]|(_ & Hnd & ->)]; [done|].
  rewrite entry_ne in Hnd by done.
  set (F := <[GetPath s h := Os.File data]> (delete (staged s) (fs w3))).
  (* the state after the first run *)
  assert (∀ a, fs w3 !! a = Some Os.Dir → F !! a = Some Os.Dir) as Hkeep.
  { intros a Ha. unfold F. rewrite lookup_insert_ne; [|by intros <-].
    rewrite lookup_delete_ne; [done|]. intros <-. by rewrite Hs3 in Ha. }
  assert (dirs_above F (staged s)) as HabS
    by (intros a b Hp Ha Hb; apply Hkeep; by apply (Hab3s a b)).
  assert (dirs_above F (GetPath s h)) as HabD
    by (intros a b Hp Ha Hb; apply Hkeep; by apply (Hab3 a b)).
  assert (F !! staged s = None) as HFs.
  { unfold F. rewrite lookup_insert_ne by done. apply lookup_delete_eq. }
  assert (F !! GetPath s h = Some (Os.File data)) as HFd
    by (unfold F; apply lookup_insert_eq).
  set (v0 := set_fs F w3).
  (* the staging directory is there *)
  assert (ensure_dir env stg v0 = (Ok tt, v0)) as E1.
  { unfold ensure_dir, PathExists. cbn [fs v0 set_fs].
    rewrite (Stat_dir F stg); [done|done|].
    apply (dirs_above_name _ _ (File s)). by rewrite <- Hstaged. }
  (* the transfer *)
  assert (Os.resolve true F (staged s) = inr (staged s)) as HrS.
  { apply resolve_plain; [done|done|]. intros t. by rewrite HFs. }
  assert (Os.Create F (staged s) = inr (staged s, <[staged s := Os.File []]> F))
    as HcS.
  { apply Create_free; [done|]. by rewrite entry_ne, HFs. }
  destruct (download_again env s (staged s) (staged s) w1 w2 v0 H2 Hq HcS)
    as (evs & Hn2' & E2).
  assert (evs = evs0) as ->.
  { rewrite Hn2 in Hn2'. by apply app_inv_head in Hn2'. }
  fold data in E2. cbn [fs net v0 set_fs] in E2.
  set (F2 := <[staged s := Os.File data]> F) in *.
  set (v2 := {| fs := F2; net := net w3 ++ evs0 |}) in *.
  assert (F2 !! staged s = Some (Os.File data)) as HF2s
    by (unfold F2; apply lookup_insert_eq).
  assert (∀ a, F !! a = Some Os.Dir → F2 !! a = Some Os.Dir) as Hkeep2.
  { intros a Ha. unfold F2. rewrite lookup_insert_ne; [done|].
    intros <-. by rewrite HFs in Ha. }
  assert (dirs_above F2 (staged s)) as HabS2
    by (intros a b Hp Ha Hb; apply Hkeep2; by apply (HabS a b)).
  assert (dirs_above F2 (GetPath s h)) as HabD2
    by (intros a b Hp Ha Hb; apply Hkeep2; by apply (HabD a b)).
  assert (F2 !! GetPath s h = Some (Os.File data)) as HF2d
    by (unfold F2; by rewrite lookup_insert_ne).
  (* the digest *)
  assert (Source.GetSHA256Sum env s (staged s) v2 = (Ok h, v2)) as E3.
  { unfold Source.GetSHA256Sum, bind, ioutil_ReadFile, syscall. rewrite Hfr.
    cbn [fs v2].
    rewrite (ReadFile_intro F2 (staged s) (staged s) data);
      [|apply resolve_plain; [done|done|intros t; by rewrite HF2s]
       |by rewrite entry_ne].
    reflexivity. }
  (* the canonical directory is there *)
  assert (ensure_dir env (Filepath.Join [] [SourceDir; h]) v2 = (Ok tt, v2)) as E4.
  { rewrite Htgt. unfold ensure_dir, PathExists. cbn [fs v2].
    rewrite (Stat_dir F2 (root ++ [h])); [done|done|].
    apply (dirs_above_name _ _ (File s)). by rewrite <- Hdest. }
  (* the rename *)
  assert (os_Rename env (staged s) (GetPath s h) v2 = (Ok tt, set_fs F v2)) as E5.
  { unfold os_Rename, syscall. rewrite Hfn. cbn [fs v2]. unfold Os.Rename.
    rewrite (resolve_nofollow F2 (staged s)); [|done|done].
    rewrite entry_ne, HF2s by done.
    rewrite (resolve_nofollow F2 (GetPath s h)); [|done|done].
    rewrite decide_False by done.
    rewrite entry_ne, HF2d by done. cbn [with_unit].
    unfold F2. rewrite delete_insert_eq, delete_id by done.
    by rewrite insert_id. }
  exists (set_fs F v2), evs0.
  split.
  { rewrite (Fetch_commits SourceDir SourceStagingDir env s v0 h (set_fs F v2)).
    - unfold alias. by rewrite Hl.
    - by exists v0, v2, v2. }
  cbn [fs net set_fs v0 v2]. split; [done|]. split; [done|].
  split; [|done]. by rewrite Hn4, Hn2, Hn1.
Qed.

End Repeat.

(** * The claims on concrete runs *)

Import Example.

Example strong_hash_abc :
  strong_hash (http abc) (foo sha256_abc_hex) = sha256_abc_hex.
Proof. vm_compute. reflexivity. Qed.

Example weak_hash_abc : weak_hash (http abc) foo_legacy = sha1_abc_hex.
Proof. vm_compute. reflexivity. Qed.

(** The scenario of the spec: [foo-1.2.tar.xz] ends at
    [root/<sha256>/foo-1.2.tar.xz]. *)
Example Fetch_foo :
  (Fetch (http abc) (foo sha256_abc_hex) fresh).1 = Ok tt ∧
  Os.ReadFile (fs after_foo)
    ["var"; "lib"; "solbuild"; "sources"; sha256_abc_hex; "foo-1.2.tar.xz"]
    = inr abc ∧
  PathExists (staged SourceStagingDir (foo sha256_abc_hex)) after_foo = false.
Proof. vm_compute. done. Qed.

(** C1, counterexample. [foo] is in the store, [IsFetched] says so, and
    [Fetch] transfers it again. *)
Lemma Fetch_transfers_again :
  IsFetched (foo sha256_abc_hex) after_foo = true ∧
  net after_foo = [CurlPerform "https://example.org/pkg/foo-1.2.tar.xz"] ∧
  (Fetch (http abc) (foo sha256_abc_hex) after_foo).1 = Ok tt ∧
  net (Fetch (http abc) (foo sha256_abc_hex) after_foo).2 =
    [CurlPerform "https://example.org/pkg/foo-1.2.tar.xz";
     CurlPerform "https://example.org/pkg/foo-1.2.tar.xz"].
Proof. vm_compute. done. Qed.

(** C3, counterexample. The bytes of [foo_legacy] are fetched again
    under another name: the alias is there, the alias step fails and
    [Fetch] returns its error, but the file has been committed and is no
    longer in the staging directory. *)
Lemma Fetch_fails_after_commit :
  let w' := (Fetch (http abc) foo_mirror after_foo_legacy).2 in
  (Fetch (http abc) foo_mirror after_foo_legacy).1 = Err (PathError Os.EEXIST) ∧
  PathExists (GetPath foo_mirror sha256_abc_hex) after_foo_legacy = false ∧
  Os.ReadFile (fs w') (GetPath foo_mirror sha256_abc_hex) = inr abc ∧
  PathExists (staged SourceStagingDir foo_mirror) w' = false.
Proof. vm_compute. done. Qed.

(** C6, counterexample. The alias of [foo_legacy] is there and leads to
    the canonical directory of the very bytes fetched; fetching the
    source again fails with the file-exists error all the same. *)
Lemma Fetch_same_alias_fails :
  Os.Lstat (fs after_foo_legacy) (Filepath.Join [] [SourceDir; sha1_abc_hex])
    = inr (Os.Link sha256_abc_hex) ∧
  strong_hash (http abc) foo_legacy = sha256_abc_hex ∧
  (Fetch (http abc) foo_legacy after_foo_legacy).1 = Err (PathError Os.EEXIST).
Proof. vm_compute. done. Qed.

(** C7, counterexample. The path of [http://example.org/] is ["/"]: its
    final segment is empty and the file name is ["/"]. *)
Lemma NewSimple_root_path :
  ∃ s, Source.NewSimple url_Parse "http://example.org/" "" false = Ok s ∧
       final_segment (Path (url s)) = "" ∧ File s = "/" ∧
       File s ≠ final_segment (Path (url s)).
Proof. eexists. vm_compute. done. Qed.

(** C9, at the failing input. The host ["[::1]"] gives no port, and
    [downloadFTP] dials ["[::1]"], not port 21. *)
Lemma downloadFTP_ipv6_no_port :
  Port (Host (url bar_ipv6)) = "" ∧
  Source.ftp_hostAddr (url bar_ipv6) = "[::1]" ∧
  net (Source.downloadFTP (ftp [{| Name := "bar.tar.gz"; Size := 3 |}] abc)
         bar_ipv6 (staged SourceStagingDir bar_ipv6) initialised).2 =
    [FtpDial "[::1]"; FtpLogin "anonymous" "anonymous";
     FtpList "/pub/bar.tar.gz"; FtpRetr "/pub/bar.tar.gz"; FtpQuit].
Proof. vm_compute. done. Qed.

(** C9, where it holds: a host name without a port, a user name without
    a password. *)
Example downloadFTP_default_port :
  Port (Host (url bar)) = "" ∧
  net (Source.downloadFTP (ftp [{| Name := "bar.tar.gz"; Size := 3 |}] abc)
         bar (staged SourceStagingDir bar) initialised).2 =
    [FtpDial "mirror.example:21"; FtpLogin "anonymous" "";
     FtpList "/pub/bar.tar.gz"; FtpRetr "/pub/bar.tar.gz"; FtpQuit].
Proof. vm_compute. done. Qed.

(** C10, counterexample. The validator of [foo_legacy] is the SHA-1 of
    the bytes, which the SHA-256 computed differs from; after the
    [Fetch], [IsFetched] holds and the bind source is the file fetched. *)
Lemma Fetch_legacy_is_fetched :
  strong_hash (http abc) foo_legacy ≠ validator foo_legacy ∧
  IsFetched foo_legacy fresh = false ∧
  (Fetch (http abc) foo_legacy fresh).1 = Ok tt ∧
  IsFetched foo_legacy after_foo_legacy = true ∧
  Os.ReadFile (fs after_foo_legacy)
    (BindSource (Source.GetBindConfiguration SourceDir foo_legacy "/build"))
    = inr abc.
Proof. vm_compute. done. Qed.

Example Port_examples :
  Port "mirror.example" = "" ∧ Port "mirror.example:2121" = "2121" ∧
  Port "[::1]" = "" ∧ Port "[::1]:2121" = "2121".
Proof. vm_compute. done. Qed.

Lemma Fetch_content_addressed_witness :
  Fetch (http abc) (foo sha256_abc_hex) fresh = (Ok tt, after_foo) ∧
  plain (fs fresh) (staged SourceStagingDir (foo sha256_abc_hex)) = true ∧
  plain (fs fresh) (GetPath (foo sha256_abc_hex) sha256_abc_hex) = true ∧
  Os.ReadFile (fs after_foo)
    (Filepath.Join [] [SourceDir; sha256_abc_hex; "foo-1.2.tar.xz"]) = inr abc.
Proof.
  assert (Fetch (http abc) (foo sha256_abc_hex) fresh = (Ok tt, after_foo)) as H1
    by (vm_compute; reflexivity).
  assert (plain (fs fresh) (staged SourceStagingDir (foo sha256_abc_hex)) = true)
    as H2 by (vm_compute; reflexivity).
  assert (plain (fs fresh)
            (GetPath (foo sha256_abc_hex)
               (Digest.EncodeToString
                  (Digest.sha256_Sum (transferred (http abc) (foo sha256_abc_hex)))))
          = true) as H3 by (vm_compute; reflexivity).
  split; [exact H1|]. split; [exact H2|]. split; [vm_compute; reflexivity|].
  pose proof (proj1 (Fetch_content_addressed SourceDir SourceStagingDir
                       (http abc) (foo sha256_abc_hex) fresh after_foo H1 H2 H3))
    as H.
  vm_compute in H. vm_compute. exact H.
Defined.

Lemma Fetch_always_transfers_witness :
  Fetch (http abc) (foo sha256_abc_hex) fresh = (Ok tt, after_foo) ∧
  net after_foo ≠ net fresh ∧
  IsFetched (foo sha256_abc_hex) after_foo = true.
Proof.
  assert (Fetch (http abc) (foo sha256_abc_hex) fresh = (Ok tt, after_foo)) as H1
    by (vm_compute; reflexivity).
  destruct (Fetch_always_transfers SourceDir SourceStagingDir
              (http abc) (foo sha256_abc_hex) fresh after_foo H1)
    as [(evs & Hne & Hn) Hv]; [vm_compute; reflexivity..|].
  split; [exact H1|]. split.
  - rewrite Hn. destruct evs; [done|]. discriminate.
  - apply Hv. vm_compute. reflexivity.
Defined.

Lemma Fetch_failure_witness :
  let w' := (Fetch offline (foo sha256_abc_hex) initialised).2 in
  Fetch offline (foo sha256_abc_hex) initialised
    = (Err (NetError "curl: Couldn't resolve host name"), w') ∧
  (only_staged SourceStagingDir (foo sha256_abc_hex) initialised w' ∨
   legacy (foo sha256_abc_hex) = true ∧
   Fetch offline (without_alias (foo sha256_abc_hex)) initialised = (Ok tt, w')).
Proof.
  intros w'.
  assert (Fetch offline (foo sha256_abc_hex) initialised
          = (Err (NetError "curl: Couldn't resolve host name"), w')) as H1
    by (vm_compute; reflexivity).
  split; [exact H1|].
  exact (Fetch_failure SourceDir SourceStagingDir offline (foo sha256_abc_hex)
           initialised w' _ H1).
Defined.

Lemma downloadFTP_ambiguous_witness :
  let entries := [{| Name := "bar.tar.gz"; Size := 3 |};
                  {| Name := "bar.tar.gz.sig"; Size := 1 |}] in
  let env := ftp entries abc in
  let destination := staged SourceStagingDir bar in
  ftp_List env (Path (url bar)) = Ok entries ∧
  length entries ≠ 1 ∧
  Source.downloadFTP env bar destination initialised =
    (Err (FmtError "FTP expected 1 file, found 2 files"),
     {| fs := fs initialised;
        net := [FtpDial "mirror.example:21"; FtpLogin "anonymous" "";
                FtpList "/pub/bar.tar.gz"; FtpQuit] |}).
Proof.
  intros entries env destination.
  split; [reflexivity|]. split; [discriminate|].
  exact (downloadFTP_ambiguous env bar destination initialised entries
           eq_refl eq_refl eq_refl ltac:(discriminate)).
Defined.

Lemma Fetch_legacy_alias_witness :
  legacy foo_legacy = true ∧
  File foo_legacy = Filepath.Base (Path (url foo_legacy)) ∧
  Fetch (http abc) foo_legacy fresh = (Ok tt, after_foo_legacy) ∧
  Os.Lstat (fs after_foo_legacy) (Filepath.Join [] [SourceDir; sha1_abc_hex])
    = inr (Os.Link sha256_abc_hex) ∧
  Os.resolve true (fs after_foo_legacy) (GetPath foo_legacy sha1_abc_hex)
    = inr (GetPath foo_legacy sha256_abc_hex) ∧
  Os.ReadFile (fs after_foo_legacy) (GetPath foo_legacy sha1_abc_hex) = inr abc.
Proof.
  assert (File foo_legacy = Filepath.Base (Path (url foo_legacy))) as H0
    by (vm_compute; reflexivity).
  assert (Fetch (http abc) foo_legacy fresh = (Ok tt, after_foo_legacy)) as H1
    by (vm_compute; reflexivity).
  assert (plain (fs fresh) (staged SourceStagingDir foo_legacy) = true) as H2
    by (vm_compute; reflexivity).
  assert (plain (fs fresh)
            (GetPath foo_legacy (strong_hash (http abc) foo_legacy)) = true)
    as H3 by (vm_compute; reflexivity).
  split; [reflexivity|]. split; [exact H0|]. split; [exact H1|].
  pose proof (Fetch_legacy_alias SourceDir SourceStagingDir (http abc)
                foo_legacy fresh after_foo_legacy eq_refl H0 H1 H2 H3) as H.
  vm_compute in H.
  destruct H as (Ha & _ & Hb & Hc & _).
  vm_compute.
  split; [exact Ha|]. split; [exact Hb|exact Hc].
Defined.

Lemma Fetch_alias_exists_witness :
  let w1 := (Fetch (http abc) (without_alias foo_mirror) after_foo_legacy).2 in
  legacy foo_mirror = true ∧
  Fetch (http abc) (without_alias foo_mirror) after_foo_legacy = (Ok tt, w1) ∧
  Os.Lstat (fs w1) (Filepath.Join [] [SourceDir; sha1_abc_hex])
    = inr (Os.Link sha256_abc_hex) ∧
  Fetch (http abc) foo_mirror after_foo_legacy = (Err (PathError Os.EEXIST), w1).
Proof.
  intros w1.
  assert (Fetch (http abc) (without_alias foo_mirror) after_foo_legacy
          = (Ok tt, w1)) as H1 by (vm_compute; reflexivity).
  assert (Os.Lstat (fs w1)
            (Filepath.Join [] [SourceDir; weak_hash (http abc) foo_mirror])
          = inr (Os.Link sha256_abc_hex)) as H2 by (vm_compute; reflexivity).
  assert (plain (fs after_foo_legacy) (staged SourceStagingDir foo_mirror)
          = true) as H3 by (vm_compute; reflexivity).
  assert (plain (fs after_foo_legacy)
            (GetPath foo_mirror (strong_hash (http abc) foo_mirror)) = true)
    as H4 by (vm_compute; reflexivity).
  split; [reflexivity|]. split; [exact H1|]. split; [vm_compute; reflexivity|].
  destruct (Fetch_alias_exists SourceDir SourceStagingDir (http abc) foo_mirror
              after_foo_legacy w1 (Os.Link sha256_abc_hex) eq_refl H1 H3 H4 H2)
    as (e & He & Hk).
  rewrite <- (Hk eq_refl eq_refl). exact He.
Defined.

Lemma NewSimple_fileName_witness :
  ∃ s, Source.NewSimple url_Parse "https://example.org/pkg/foo-1.2.tar.xz"
         sha256_abc_hex false = Ok s ∧
       File s = "foo-1.2.tar.xz".
Proof.
  destruct (NewSimple_fileName url_Parse "https://example.org/pkg/foo-1.2.tar.xz"
              sha256_abc_hex false) as [_ H].
  destruct (H foo_url eq_refl) as (s & Hs & _ & _ & _ & _ & Hseg).
  exists s. split; [exact Hs|]. rewrite Hseg; [reflexivity|discriminate].
Defined.

Lemma Fetch_ignores_validator_witness :
  let s := foo sha256_empty_hex in
  let w' := (Fetch (http abc) s initialised).2 in
  strong_hash (http abc) s ≠ validator s ∧
  Fetch (http abc) s initialised = (Ok tt, w') ∧
  IsFetched s initialised = false ∧
  Os.ReadFile (fs w') (GetPath s sha256_abc_hex) = inr abc ∧
  IsFetched s w' = false.
Proof.
  intros s w'.
  assert (Fetch (http abc) s initialised = (Ok tt, w')) as H1
    by (vm_compute; reflexivity).
  split; [refute_by_computation|]. split; [exact H1|].
  split; [vm_compute; reflexivity|].
  destruct (Fetch_ignores_validator SourceDir SourceStagingDir (http abc) s
              initialised w' "/build" eq_refl H1)
    as (_ & Hr & Hf & _);
    [vm_compute; reflexivity..|refute_by_computation|refute_by_computation
    |refute_by_computation|].
  split; [|exact Hf]. vm_compute in Hr. vm_compute. exact Hr.
Defined.

Import Cases.

(** ** More theorems at concrete inputs *)

Lemma downloadFTP_logs_in_witness :
  Contains (Host (url bar)) ":" = false ∧
  ∃ evs, net (Source.downloadFTP (ftp [bar_entry] abc) bar
                (staged SourceStagingDir bar) initialised).2 =
         net initialised ++ FtpDial "mirror.example:21" ::
           FtpLogin "anonymous" "" :: evs.
Proof.
  split; [reflexivity|].
  exact (downloadFTP_logs_in (ftp [bar_entry] abc) bar
           (staged SourceStagingDir bar) initialised eq_refl eq_refl).
Defined.

Lemma downloadFTP_session_witness :
  let env := ftp [bar_entry; bar_entry] abc in
  let dest := staged SourceStagingDir bar in
  let w' := (Source.downloadFTP env bar dest initialised).2 in
  Source.downloadFTP env bar dest initialised =
    (Err (FmtError "FTP expected 1 file, found 2 files"), w') ∧
  ∃ evs, evs ≠ [] ∧ evs `prefix_of` ftp_session bar ∧
         net w' = net initialised ++ FtpDial "mirror.example:21" :: evs ++ [FtpQuit].
Proof.
  intros env dest w'.
  assert (Source.downloadFTP env bar dest initialised =
            (Err (FmtError "FTP expected 1 file, found 2 files"), w')) as H
    by (apply run_result; vm_compute; reflexivity).
  split; [exact H|].
  exact (downloadFTP_session env bar dest initialised w' _ H eq_refl).
Defined.

Lemma downloadFTP_dial_refused_witness :
  ftp_DialTimeout (http abc) (Source.ftp_hostAddr (url bar))
    = Some (NetError "dial tcp: connection refused") ∧
  Source.downloadFTP (http abc) bar (staged SourceStagingDir bar) initialised =
    (Err (NetError "dial tcp: connection refused"),
     {| fs := fs initialised; net := [FtpDial "mirror.example:21"] |}).
Proof.
  split; [reflexivity|].
  exact (downloadFTP_dial_refused (http abc) bar (staged SourceStagingDir bar)
           initialised _ eq_refl).
Defined.

Lemma downloadFTP_opens_last_witness :
  let env := ftp [bar_entry] abc in
  let dest := staged SourceStagingDir bar in
  let w' := (Source.downloadFTP env bar dest initialised).2 in
  Source.downloadFTP env bar dest initialised = (Ok tt, w') ∧
  fs w' ≠ fs initialised ∧
  ftp_DialTimeout env "mirror.example:21" = None ∧
  ftp_Login env "anonymous" "" = None ∧
  (∃ e1, ftp_List env "/pub/bar.tar.gz" = Ok [e1]) ∧
  (∃ resp, ftp_Retr env "/pub/bar.tar.gz" = Ok resp).
Proof.
  intros env dest w'.
  assert (Source.downloadFTP env bar dest initialised = (Ok tt, w')) as H
    by (apply run_result; vm_compute; reflexivity).
  assert (fs w' ≠ fs initialised) as Hne.
  { intros He.
    apply (f_equal (λ f : Os.FS, match f !! dest with
                                 | Some _ => true
                                 | None => false
                                 end)) in He.
    vm_compute in He. discriminate He. }
  split; [exact H|]. split; [exact Hne|].
  exact (downloadFTP_opens_last env bar dest initialised w' _ H Hne).
Defined.

Lemma downloadFTP_ok_witness :
  let env := ftp [bar_entry] abc in
  let dest := staged SourceStagingDir bar in
  let w' := (Source.downloadFTP env bar dest initialised).2 in
  Source.downloadFTP env bar dest initialised = (Ok tt, w') ∧
  ∃ e1 data,
    ftp_List env "/pub/bar.tar.gz" = Ok [e1] ∧
    ftp_Retr env "/pub/bar.tar.gz" = Ok (data, None) ∧
    Os.ReadFile (fs w') dest = inr data ∧
    net w' = net initialised ++
             FtpDial "mirror.example:21" :: ftp_session bar ++ [FtpQuit].
Proof.
  intros env dest w'.
  assert (Source.downloadFTP env bar dest initialised = (Ok tt, w')) as H
    by (apply run_result; vm_compute; reflexivity).
  split; [exact H|].
  exact (downloadFTP_ok env bar dest initialised w' H).
Defined.

Lemma downloadCurl_not_opened_witness :
  let dest := staged SourceStagingDir (foo sha256_abc_hex) in
  Os.Create (fs blocked) dest = inl Os.ENOTDIR ∧
  ∃ e, Source.downloadCurl (http abc) (foo sha256_abc_hex) dest blocked
       = (Err (PathError e), blocked).
Proof.
  intros dest.
  assert (Os.Create (fs blocked) dest = inl Os.ENOTDIR) as H
    by (vm_compute; reflexivity).
  split; [exact H|].
  exact (downloadCurl_not_opened (http abc) (foo sha256_abc_hex) dest blocked
           (or_intror (ex_intro _ Os.ENOTDIR H))).
Defined.

Lemma downloadCurl_partial_witness :
  let s := foo sha256_abc_hex in
  let dest := staged SourceStagingDir s in
  let part := bytes_of "ab" in
  Os.Create (fs initialised) dest
    = inr (dest, <[dest := Os.File []]> (fs initialised)) ∧
  ∃ w', Source.downloadCurl (cut_off part) s dest initialised
          = (Err (NetError "curl: transfer closed with outstanding read data remaining"), w') ∧
        Os.ReadFile (fs w') dest = inr part ∧
        net w' = net initialised ++ [CurlPerform (URI s)].
Proof.
  intros s dest part.
  assert (Os.Create (fs initialised) dest
            = inr (dest, <[dest := Os.File []]> (fs initialised))) as H
    by (apply Create_free; vm_compute; reflexivity).
  split; [exact H|].
  exact (downloadCurl_partial (cut_off part) s dest dest _ initialised part _
           eq_refl eq_refl eq_refl H).
Defined.

Lemma download_delivers_witness :
  let s := foo sha256_abc_hex in
  let dest := staged SourceStagingDir s in
  let w' := (Source.download (http abc) s dest initialised).2 in
  Source.download (http abc) s dest initialised = (Ok tt, w') ∧
  Os.ReadFile (fs w') dest = inr abc.
Proof.
  intros s dest w'.
  assert (Source.download (http abc) s dest initialised = (Ok tt, w')) as H
    by (apply run_result; vm_compute; reflexivity).
  split; [exact H|].
  exact (proj1 (download_delivers (http abc) s dest initialised w' H)).
Defined.

Lemma hash_sums_witness :
  let s := foo sha256_abc_hex in
  let p := GetPath s sha256_abc_hex in
  Os.ReadFile (fs after_foo) p = inr abc ∧
  Source.GetSHA256Sum (http abc) s p after_foo = (Ok sha256_abc_hex, after_foo) ∧
  Source.GetSHA1Sum (http abc) s p after_foo = (Ok sha1_abc_hex, after_foo).
Proof.
  intros s p.
  assert (Os.ReadFile (fs after_foo) p = inr abc) as H
    by (vm_compute; reflexivity).
  split; [exact H|].
  destruct (hash_sums (http abc) s p after_foo abc eq_refl H)
    as (H256 & H1 & _).
  assert (Digest.EncodeToString (Digest.sha256_Sum abc) = sha256_abc_hex) as E256
    by (vm_compute; reflexivity).
  assert (Digest.EncodeToString (Digest.sha1_Sum abc) = sha1_abc_hex) as E1
    by (vm_compute; reflexivity).
  rewrite E256 in H256. rewrite E1 in H1. split; [exact H256|exact H1].
Defined.

Lemma hash_sums_unreadable_witness :
  let s := foo sha256_abc_hex in
  let p := GetPath s sha256_abc_hex in
  Os.ReadFile (fs fresh) p = inl Os.ENOENT ∧
  Source.GetSHA256Sum (http abc) s p fresh = (Err (PathError Os.ENOENT), fresh).
Proof.
  intros s p.
  assert (Os.ReadFile (fs fresh) p = inl Os.ENOENT) as H
    by (vm_compute; reflexivity).
  split; [exact H|].
  destruct (hash_sums_unreadable (http abc) s p fresh _ H) as (e' & He & H256 & _).
  rewrite <- (He eq_refl). exact H256.
Defined.

Lemma NewSimple_identifier_witness :
  let uri := "https://example.org/pkg/foo-1.2.tar.xz" in
  Source.NewSimple url_Parse uri sha1_abc_hex true = Ok foo_legacy ∧
  Source.GetIdentifier foo_legacy = uri ∧
  url_Parse (Source.GetIdentifier foo_legacy) = Ok foo_url.
Proof.
  intros uri.
  assert (Source.NewSimple url_Parse uri sha1_abc_hex true = Ok foo_legacy) as H
    by (vm_compute; reflexivity).
  split; [exact H|].
  destruct (NewSimple_identifier url_Parse uri sha1_abc_hex true foo_legacy H)
    as (H1 & H2 & _).
  split; [exact H1|exact H2].
Defined.

Lemma GetPath_shape_witness :
  Source.NewSimple url_Parse "http://example.org/" sha256_abc_hex false = Ok site ∧
  Digest.sha256_Sum abc ≠ [] ∧
  Source.GetPath SourceDir site (Digest.EncodeToString (Digest.sha256_Sum abc)) =
    Filepath.Join [] [SourceDir] ++ [Digest.EncodeToString (Digest.sha256_Sum abc)].
Proof.
  assert (Source.NewSimple url_Parse "http://example.org/" sha256_abc_hex false
          = Ok site) as H by (vm_compute; reflexivity).
  split; [exact H|]. split; [apply sha256_Sum_nonempty|].
  exact (GetPath_shape SourceDir url_Parse "http://example.org/" sha256_abc_hex
           false site (Digest.sha256_Sum abc) H (sha256_Sum_nonempty abc)).
Defined.

Lemma GetBindConfiguration_shape_witness :
  let uri := "https://example.org/pkg/foo-1.2.tar.xz" in
  let cfg := Source.GetBindConfiguration SourceDir foo_legacy "/build" in
  Source.NewSimple url_Parse uri sha1_abc_hex true = Ok foo_legacy ∧
  BindSource cfg = GetPath foo_legacy sha1_abc_hex ∧
  BindTarget cfg = ["build"; "foo-1.2.tar.xz"] ∧
  IsFetched foo_legacy after_foo_legacy = PathExists (BindSource cfg) after_foo_legacy.
Proof.
  intros uri cfg.
  assert (Source.NewSimple url_Parse uri sha1_abc_hex true = Ok foo_legacy) as H
    by (vm_compute; reflexivity).
  split; [exact H|].
  destruct (GetBindConfiguration_shape SourceDir url_Parse uri sha1_abc_hex true
              foo_legacy "/build" after_foo_legacy H) as (H1 & H2 & H3).
  split; [exact H2|]. split; [exact H3|exact H1].
Defined.

Lemma Fetch_staging_refused_witness :
  let dir := Filepath.Join [] [SourceStagingDir] in
  PathExists dir blocked = false ∧
  Os.MkdirAll (fs blocked) dir = inl Os.ENOTDIR ∧
  Fetch (http abc) (foo sha256_abc_hex) blocked = (Err (PathError Os.ENOTDIR), blocked).
Proof.
  intros dir.
  assert (PathExists dir blocked = false) as H1 by (vm_compute; reflexivity).
  assert (Os.MkdirAll (fs blocked) dir = inl Os.ENOTDIR) as H2
    by (vm_compute; reflexivity).
  split; [exact H1|]. split; [exact H2|].
  exact (Fetch_staging_refused SourceDir SourceStagingDir (http abc)
           (foo sha256_abc_hex) blocked Os.ENOTDIR H1
           (or_intror (conj eq_refl H2))).
Defined.

Lemma Fetch_curl_once_witness :
  let s := foo sha256_abc_hex in
  Scheme (url s) ≠ "ftp" ∧
  Fetch (http abc) s after_foo = (Ok tt, (Fetch (http abc) s after_foo).2) ∧
  net (Fetch (http abc) s after_foo).2 = net after_foo ++ [CurlPerform (URI s)].
Proof.
  intros s.
  assert (Scheme (url s) ≠ "ftp") as H1 by discriminate.
  assert (Fetch (http abc) s after_foo = (Ok tt, (Fetch (http abc) s after_foo).2))
    as H2 by (apply run_result; vm_compute; reflexivity).
  split; [exact H1|]. split; [exact H2|].
  destruct (Fetch_curl_once SourceDir SourceStagingDir (http abc) s after_foo
              _ _ H1 H2) as [Hn|[_ Hr]]; [exact Hn|destruct (Hr eq_refl)].
Defined.

Lemma Fetch_frame_witness :
  let s := foo sha256_abc_hex in
  let w' := (Fetch (http abc) s initialised).2 in
  Fetch (http abc) s initialised = (Ok tt, w') ∧
  fs w' !! staged SourceStagingDir s = None ∧
  no_new_links (fs initialised) (fs w').
Proof.
  intros s w'.
  assert (Fetch (http abc) s initialised = (Ok tt, w')) as H
    by (apply run_result; vm_compute; reflexivity).
  assert (plain (fs initialised) (staged SourceStagingDir s) = true) as Hps
    by (vm_compute; reflexivity).
  assert (plain (fs initialised) (GetPath s (strong_hash (http abc) s)) = true)
    as Hpd by (vm_compute; reflexivity).
  assert (staged SourceStagingDir s ≠ GetPath s (strong_hash (http abc) s)) as Hne
    by refute_by_computation.
  split; [exact H|].
  destruct (Fetch_frame SourceDir SourceStagingDir (http abc) s initialised w'
              eq_refl H Hps Hpd) as (Hg & Hl & _).
  split; [exact (Hg Hne)|exact Hl].
Defined.

Lemma Fetch_legacy_once_witness :
  legacy foo_legacy = true ∧
  File foo_legacy = Filepath.Base (Path (url foo_legacy)) ∧
  Fetch (http abc) foo_legacy fresh = (Ok tt, after_foo_legacy) ∧
  plain (fs after_foo_legacy) (staged SourceStagingDir foo_legacy) = true ∧
  ∃ e, (Fetch (http abc) foo_legacy after_foo_legacy).1 = Err e.
Proof.
  assert (File foo_legacy = Filepath.Base (Path (url foo_legacy))) as HF
    by (vm_compute; reflexivity).
  assert ((Fetch (http abc) foo_legacy fresh).1 = Ok tt) as H0
    by (vm_compute; reflexivity).
  pose proof (run_result (Fetch (http abc) foo_legacy) fresh (Ok tt) H0) as H.
  assert (plain (fs fresh) (staged SourceStagingDir foo_legacy) = true) as Hps
    by (vm_compute; reflexivity).
  assert (plain (fs fresh)
            (GetPath foo_legacy (strong_hash (http abc) foo_legacy)) = true)
    as Hpd by (vm_compute; reflexivity).
  assert (plain (fs after_foo_legacy) (staged SourceStagingDir foo_legacy) = true)
    as Hps' by (vm_compute; reflexivity).
  split; [reflexivity|]. split; [exact HF|]. split; [exact H|].
  split; [exact Hps'|].
  exact (Fetch_legacy_once SourceDir SourceStagingDir (http abc) foo_legacy
           fresh after_foo_legacy
           (Fetch (http abc) foo_legacy after_foo_legacy).2
           (Fetch (http abc) foo_legacy after_foo_legacy).1
           eq_refl HF H Hps Hpd Hps' (run_result _ _ _ eq_refl)).
Defined.

Lemma Fetch_again_witness :
  let s := foo sha256_abc_hex in
  legacy s = false ∧ is_name (File s) ∧ nosep (File s) = true ∧
  Fetch (http abc) s fresh = (Ok tt, after_foo) ∧
  staged SourceStagingDir s ≠ GetPath s (strong_hash (http abc) s) ∧
  ∃ w'' evs, Fetch (http abc) s after_foo = (Ok tt, w'') ∧
             fs w'' = fs after_foo ∧ evs ≠ [] ∧
             net after_foo = net fresh ++ evs ∧
             net w'' = net after_foo ++ evs.
Proof.
  intros s.
  assert (is_name (File s)) as Hn by (repeat split; discriminate).
  assert ((Fetch (http abc) s fresh).1 = Ok tt) as H0
    by (vm_compute; reflexivity).
  pose proof (run_result (Fetch (http abc) s) fresh (Ok tt) H0) as H.
  assert (plain (fs fresh) (staged SourceStagingDir s) = true) as Hps
    by (vm_compute; reflexivity).
  assert (plain (fs fresh) (GetPath s (strong_hash (http abc) s)) = true)
    as Hpd by (vm_compute; reflexivity).
  assert (staged SourceStagingDir s ≠ GetPath s (strong_hash (http abc) s)) as Hne
    by refute_by_computation.
  split; [reflexivity|]. split; [exact Hn|]. split; [reflexivity|].
  split; [exact H|]. split; [exact Hne|].
  exact (Fetch_again SourceDir SourceStagingDir (http abc) s fresh after_foo
           eq_refl Hn eq_refl H Hps Hpd Hne).
Defined.
